(** * ESP32 TCD1304 SPI master: acquisition core

    A shallow embedding of [esp32_code.ino]: the SPI command/response codec
    ([buildCommand], [processData_Raw]), the dark-spectrum correction
    ([saveDarkSpectrum], [applyDarkSpectrumCorrection]), the settings editor
    ([handleSettingsAcqInput] and its siblings), the state machine of [loop]
    with [changeState], the Raman-shift conversion
    ([pixelToWavelength], [wavelengthToWavenumber]), the geometry of the
    graph ([drawGraph_GFX]) and the gesture decoder at the head of [loop].

    Conventions.
    - [uint8_t], [uint16_t], [uint32_t] values are integers in [Z]; every
      assignment that narrows in C is written with the wrap-around of its
      type ([to_u16], [to_u32]); bytes are masked with [0xFF] as in the
      sketch.
    - The global arrays are lists indexed with stdpp's lookup and insert.
    - The globals of the sketch are the fields of one record, [State];
      functions of the sketch are commands that thread it and log the calls
      they make to the hardware objects (SPI bus, TCP client, display,
      serial console) as a list of [Event]s, in program order.
    - [float] and [double] are IEEE 754 binary32 and binary64, computed with
      the Standard Library's [SpecFloat].
    - [int] and [long] are 32 bits wide; [map] and [constrain] are
      Arduino's, as the core for the ESP32 defines them.
    - What the libraries answer when the sketch asks (the size of the
      display, the encoder, the button, the clock) is a parameter or an
      input of the function that asks. *)

From Stdlib Require Import ZArith Lia Bool String.
From Stdlib Require Import Floats.SpecFloat.
From stdpp Require Import base list.

Local Open Scope Z_scope.

(** ** Machine integers *)

Definition to_u16 (z : Z) : Z := z mod 2 ^ 16.
Definition to_u32 (z : Z) : Z := z mod 2 ^ 32.

Definition is_u8 (z : Z) : Prop := 0 <= z < 2 ^ 8.
Definition is_u16 (z : Z) : Prop := 0 <= z < 2 ^ 16.
Definition is_u32 (z : Z) : Prop := 0 <= z < 2 ^ 32.

(** ** Constants of the sketch *)

Definition PACKET_SIZE : Z := 7388.
Definition PIXEL_COUNT : Z := 3694.
Definition ADC_MAX_VALUE : Z := 4095.
Definition NUM_INTEGRATIONS : Z := 1.

Definition MAIN_MENU_MAX : Z := 3.
Definition SETTINGS_MAX : Z := 2.
Definition SETTINGS_ACQ_MAX : Z := 2.
Definition SETTINGS_AXIS_MAX : Z := 5.

Definition PACKET_START_MARKER : list Z := [0xAA; 0xBB; 0xCC; 0xDD].

Inductive ScreenState : Type :=
  | STATE_MAIN_MENU
  | STATE_SETTINGS
  | STATE_SETTINGS_ACQ
  | STATE_SETTINGS_AXIS
  | STATE_ACQUISITION_CONT
  | STATE_ACQUISITION_SINGLE
  | STATE_ACQUISITION_DARK.

Inductive XAxisUnit : Type := UNIT_PIXEL | UNIT_NM | UNIT_CM_1.

Definition is_acquisition (st : ScreenState) : bool :=
  match st with
  | STATE_ACQUISITION_CONT | STATE_ACQUISITION_SINGLE
  | STATE_ACQUISITION_DARK => true
  | _ => false
  end.

(** ** Arrays and loops *)

(** [a[i]] read; the default is only met out of range, which the sketch
    never does on buffers of their declared size. *)
Definition rd (a : list Z) (i : nat) : Z := default 0 (a !! i).

(** [memcpy(dst, src, n elements)]. *)
Definition memcpy (dst src : list Z) (n : nat) : list Z :=
  take n src ++ drop n dst.

(** [memset(dst, v, n)]. *)
Definition memset (dst : list Z) (v : Z) (n : nat) : list Z :=
  replicate (Nat.min n (length dst)) v ++ drop n dst.

(** [for (int i = 0; i < n; i++) body(i)]. *)
Definition for_loop {A : Type} (n : nat) (body : nat -> A -> A) (a : A) : A :=
  foldl (fun acc i => body i acc) a (seq 0 n).

(** [for (int i = 0; i < n; i++) a[i] = f(i)]. *)
Definition store_each (f : nat -> Z) (n : nat) (a : list Z) : list Z :=
  for_loop n (fun i a => <[i := f i]> a) a.

(** ** The globals *)

#[projections(primitive)]
Record State : Type := mkState {
  currentState : ScreenState;
  redrawScreen : bool;
  SH_PERIOD : Z;
  ICG_PERIOD : Z;
  currentXUnit : XAxisUnit;
  plot_pixel_min : Z;
  plot_pixel_max : Z;
  plot_adc_min : Z;
  plot_adc_max : Z;
  tx_buffer : list Z;
  rx_buffer : list Z;
  pixel_data : list Z;
  raw_pixel_data : list Z;
  dark_spectrum_data : list Z;
  darkSpectrumSaved : bool;
  dataReady : bool;
  waitingForSingleScan : bool;
  mainMenuSelection : Z;
  settingsSelection : Z;
  settingsAcqSelection : Z;
  settingsAxisSelection : Z;
  settingsEditMode : bool
}.

Definition set_currentState (v : ScreenState) (s : State) : State :=
  mkState v (redrawScreen s) (SH_PERIOD s) (ICG_PERIOD s) (currentXUnit s)
    (plot_pixel_min s) (plot_pixel_max s) (plot_adc_min s) (plot_adc_max s)
    (tx_buffer s) (rx_buffer s) (pixel_data s) (raw_pixel_data s)
    (dark_spectrum_data s) (darkSpectrumSaved s) (dataReady s)
    (waitingForSingleScan s) (mainMenuSelection s) (settingsSelection s)
    (settingsAcqSelection s) (settingsAxisSelection s) (settingsEditMode s).

Definition set_redrawScreen (v : bool) (s : State) : State :=
  mkState (currentState s) v (SH_PERIOD s) (ICG_PERIOD s) (currentXUnit s)
    (plot_pixel_min s) (plot_pixel_max s) (plot_adc_min s) (plot_adc_max s)
    (tx_buffer s) (rx_buffer s) (pixel_data s) (raw_pixel_data s)
    (dark_spectrum_data s) (darkSpectrumSaved s) (dataReady s)
    (waitingForSingleScan s) (mainMenuSelection s) (settingsSelection s)
    (settingsAcqSelection s) (settingsAxisSelection s) (settingsEditMode s).

Definition set_SH_PERIOD (v : Z) (s : State) : State :=
  mkState (currentState s) (redrawScreen s) v (ICG_PERIOD s) (currentXUnit s)
    (plot_pixel_min s) (plot_pixel_max s) (plot_adc_min s) (plot_adc_max s)
    (tx_buffer s) (rx_buffer s) (pixel_data s) (raw_pixel_data s)
    (dark_spectrum_data s) (darkSpectrumSaved s) (dataReady s)
    (waitingForSingleScan s) (mainMenuSelection s) (settingsSelection s)
    (settingsAcqSelection s) (settingsAxisSelection s) (settingsEditMode s).

Definition set_ICG_PERIOD (v : Z) (s : State) : State :=
  mkState (currentState s) (redrawScreen s) (SH_PERIOD s) v (currentXUnit s)
    (plot_pixel_min s) (plot_pixel_max s) (plot_adc_min s) (plot_adc_max s)
    (tx_buffer s) (rx_buffer s) (pixel_data s) (raw_pixel_data s)
    (dark_spectrum_data s) (darkSpectrumSaved s) (dataReady s)
    (waitingForSingleScan s) (mainMenuSelection s) (settingsSelection s)
    (settingsAcqSelection s) (settingsAxisSelection s) (settingsEditMode s).

Definition set_currentXUnit (v : XAxisUnit) (s : State) : State :=
  mkState (currentState s) (redrawScreen s) (SH_PERIOD s) (ICG_PERIOD s) v
    (plot_pixel_min s) (plot_pixel_max s) (plot_adc_min s) (plot_adc_max s)
    (tx_buffer s) (rx_buffer s) (pixel_data s) (raw_pixel_data s)
    (dark_spectrum_data s) (darkSpectrumSaved s) (dataReady s)
    (waitingForSingleScan s) (mainMenuSelection s) (settingsSelection s)
    (settingsAcqSelection s) (settingsAxisSelection s) (settingsEditMode s).

Definition set_plot_pixel_min (v : Z) (s : State) : State :=
  mkState (currentState s) (redrawScreen s) (SH_PERIOD s) (ICG_PERIOD s)
    (currentXUnit s) v (plot_pixel_max s) (plot_adc_min s) (plot_adc_max s)
    (tx_buffer s) (rx_buffer s) (pixel_data s) (raw_pixel_data s)
    (dark_spectrum_data s) (darkSpectrumSaved s) (dataReady s)
    (waitingForSingleScan s) (mainMenuSelection s) (settingsSelection s)
    (settingsAcqSelection s) (settingsAxisSelection s) (settingsEditMode s).

Definition set_plot_pixel_max (v : Z) (s : State) : State :=
  mkState (currentState s) (redrawScreen s) (SH_PERIOD s) (ICG_PERIOD s)
    (currentXUnit s) (plot_pixel_min s) v (plot_adc_min s) (plot_adc_max s)
    (tx_buffer s) (rx_buffer s) (pixel_data s) (raw_pixel_data s)
    (dark_spectrum_data s) (darkSpectrumSaved s) (dataReady s)
    (waitingForSingleScan s) (mainMenuSelection s) (settingsSelection s)
    (settingsAcqSelection s) (settingsAxisSelection s) (settingsEditMode s).

Definition set_plot_adc_min (v : Z) (s : State) : State :=
  mkState (currentState s) (redrawScreen s) (SH_PERIOD s) (ICG_PERIOD s)
    (currentXUnit s) (plot_pixel_min s) (plot_pixel_max s) v (plot_adc_max s)
    (tx_buffer s) (rx_buffer s) (pixel_data s) (raw_pixel_data s)
    (dark_spectrum_data s) (darkSpectrumSaved s) (dataReady s)
    (waitingForSingleScan s) (mainMenuSelection s) (settingsSelection s)
    (settingsAcqSelection s) (settingsAxisSelection s) (settingsEditMode s).

Definition set_plot_adc_max (v : Z) (s : State) : State :=
  mkState (currentState s) (redrawScreen s) (SH_PERIOD s) (ICG_PERIOD s)
    (currentXUnit s) (plot_pixel_min s) (plot_pixel_max s) (plot_adc_min s) v
    (tx_buffer s) (rx_buffer s) (pixel_data s) (raw_pixel_data s)
    (dark_spectrum_data s) (darkSpectrumSaved s) (dataReady s)
    (waitingForSingleScan s) (mainMenuSelection s) (settingsSelection s)
    (settingsAcqSelection s) (settingsAxisSelection s) (settingsEditMode s).

Definition set_tx_buffer (v : list Z) (s : State) : State :=
  mkState (currentState s) (redrawScreen s) (SH_PERIOD s) (ICG_PERIOD s)
    (currentXUnit s) (plot_pixel_min s) (plot_pixel_max s) (plot_adc_min s)
    (plot_adc_max s) v (rx_buffer s) (pixel_data s) (raw_pixel_data s)
    (dark_spectrum_data s) (darkSpectrumSaved s) (dataReady s)
    (waitingForSingleScan s) (mainMenuSelection s) (settingsSelection s)
    (settingsAcqSelection s) (settingsAxisSelection s) (settingsEditMode s).

Definition set_rx_buffer (v : list Z) (s : State) : State :=
  mkState (currentState s) (redrawScreen s) (SH_PERIOD s) (ICG_PERIOD s)
    (currentXUnit s) (plot_pixel_min s) (plot_pixel_max s) (plot_adc_min s)
    (plot_adc_max s) (tx_buffer s) v (pixel_data s) (raw_pixel_data s)
    (dark_spectrum_data s) (darkSpectrumSaved s) (dataReady s)
    (waitingForSingleScan s) (mainMenuSelection s) (settingsSelection s)
    (settingsAcqSelection s) (settingsAxisSelection s) (settingsEditMode s).

Definition set_pixel_data (v : list Z) (s : State) : State :=
  mkState (currentState s) (redrawScreen s) (SH_PERIOD s) (ICG_PERIOD s)
    (currentXUnit s) (plot_pixel_min s) (plot_pixel_max s) (plot_adc_min s)
    (plot_adc_max s) (tx_buffer s) (rx_buffer s) v (raw_pixel_data s)
    (dark_spectrum_data s) (darkSpectrumSaved s) (dataReady s)
    (waitingForSingleScan s) (mainMenuSelection s) (settingsSelection s)
    (settingsAcqSelection s) (settingsAxisSelection s) (settingsEditMode s).

Definition set_raw_pixel_data (v : list Z) (s : State) : State :=
  mkState (currentState s) (redrawScreen s) (SH_PERIOD s) (ICG_PERIOD s)
    (currentXUnit s) (plot_pixel_min s) (plot_pixel_max s) (plot_adc_min s)
    (plot_adc_max s) (tx_buffer s) (rx_buffer s) (pixel_data s) v
    (dark_spectrum_data s) (darkSpectrumSaved s) (dataReady s)
    (waitingForSingleScan s) (mainMenuSelection s) (settingsSelection s)
    (settingsAcqSelection s) (settingsAxisSelection s) (settingsEditMode s).

Definition set_dark_spectrum_data (v : list Z) (s : State) : State :=
  mkState (currentState s) (redrawScreen s) (SH_PERIOD s) (ICG_PERIOD s)
    (currentXUnit s) (plot_pixel_min s) (plot_pixel_max s) (plot_adc_min s)
    (plot_adc_max s) (tx_buffer s) (rx_buffer s) (pixel_data s)
    (raw_pixel_data s) v (darkSpectrumSaved s) (dataReady s)
    (waitingForSingleScan s) (mainMenuSelection s) (settingsSelection s)
    (settingsAcqSelection s) (settingsAxisSelection s) (settingsEditMode s).

Definition set_darkSpectrumSaved (v : bool) (s : State) : State :=
  mkState (currentState s) (redrawScreen s) (SH_PERIOD s) (ICG_PERIOD s)
    (currentXUnit s) (plot_pixel_min s) (plot_pixel_max s) (plot_adc_min s)
    (plot_adc_max s) (tx_buffer s) (rx_buffer s) (pixel_data s)
    (raw_pixel_data s) (dark_spectrum_data s) v (dataReady s)
    (waitingForSingleScan s) (mainMenuSelection s) (settingsSelection s)
    (settingsAcqSelection s) (settingsAxisSelection s) (settingsEditMode s).

Definition set_dataReady (v : bool) (s : State) : State :=
  mkState (currentState s) (redrawScreen s) (SH_PERIOD s) (ICG_PERIOD s)
    (currentXUnit s) (plot_pixel_min s) (plot_pixel_max s) (plot_adc_min s)
    (plot_adc_max s) (tx_buffer s) (rx_buffer s) (pixel_data s)
    (raw_pixel_data s) (dark_spectrum_data s) (darkSpectrumSaved s) v
    (waitingForSingleScan s) (mainMenuSelection s) (settingsSelection s)
    (settingsAcqSelection s) (settingsAxisSelection s) (settingsEditMode s).

Definition set_waitingForSingleScan (v : bool) (s : State) : State :=
  mkState (currentState s) (redrawScreen s) (SH_PERIOD s) (ICG_PERIOD s)
    (currentXUnit s) (plot_pixel_min s) (plot_pixel_max s) (plot_adc_min s)
    (plot_adc_max s) (tx_buffer s) (rx_buffer s) (pixel_data s)
    (raw_pixel_data s) (dark_spectrum_data s) (darkSpectrumSaved s)
    (dataReady s) v (mainMenuSelection s) (settingsSelection s)
    (settingsAcqSelection s) (settingsAxisSelection s) (settingsEditMode s).

Definition set_mainMenuSelection (v : Z) (s : State) : State :=
  mkState (currentState s) (redrawScreen s) (SH_PERIOD s) (ICG_PERIOD s)
    (currentXUnit s) (plot_pixel_min s) (plot_pixel_max s) (plot_adc_min s)
    (plot_adc_max s) (tx_buffer s) (rx_buffer s) (pixel_data s)
    (raw_pixel_data s) (dark_spectrum_data s) (darkSpectrumSaved s)
    (dataReady s) (waitingForSingleScan s) v (settingsSelection s)
    (settingsAcqSelection s) (settingsAxisSelection s) (settingsEditMode s).

Definition set_settingsSelection (v : Z) (s : State) : State :=
  mkState (currentState s) (redrawScreen s) (SH_PERIOD s) (ICG_PERIOD s)
    (currentXUnit s) (plot_pixel_min s) (plot_pixel_max s) (plot_adc_min s)
    (plot_adc_max s) (tx_buffer s) (rx_buffer s) (pixel_data s)
    (raw_pixel_data s) (dark_spectrum_data s) (darkSpectrumSaved s)
    (dataReady s) (waitingForSingleScan s) (mainMenuSelection s) v
    (settingsAcqSelection s) (settingsAxisSelection s) (settingsEditMode s).

Definition set_settingsAcqSelection (v : Z) (s : State) : State :=
  mkState (currentState s) (redrawScreen s) (SH_PERIOD s) (ICG_PERIOD s)
    (currentXUnit s) (plot_pixel_min s) (plot_pixel_max s) (plot_adc_min s)
    (plot_adc_max s) (tx_buffer s) (rx_buffer s) (pixel_data s)
    (raw_pixel_data s) (dark_spectrum_data s) (darkSpectrumSaved s)
    (dataReady s) (waitingForSingleScan s) (mainMenuSelection s)
    (settingsSelection s) v (settingsAxisSelection s) (settingsEditMode s).

Definition set_settingsAxisSelection (v : Z) (s : State) : State :=
  mkState (currentState s) (redrawScreen s) (SH_PERIOD s) (ICG_PERIOD s)
    (currentXUnit s) (plot_pixel_min s) (plot_pixel_max s) (plot_adc_min s)
    (plot_adc_max s) (tx_buffer s) (rx_buffer s) (pixel_data s)
    (raw_pixel_data s) (dark_spectrum_data s) (darkSpectrumSaved s)
    (dataReady s) (waitingForSingleScan s) (mainMenuSelection s)
    (settingsSelection s) (settingsAcqSelection s) v (settingsEditMode s).

Definition set_settingsEditMode (v : bool) (s : State) : State :=
  mkState (currentState s) (redrawScreen s) (SH_PERIOD s) (ICG_PERIOD s)
    (currentXUnit s) (plot_pixel_min s) (plot_pixel_max s) (plot_adc_min s)
    (plot_adc_max s) (tx_buffer s) (rx_buffer s) (pixel_data s)
    (raw_pixel_data s) (dark_spectrum_data s) (darkSpectrumSaved s)
    (dataReady s) (waitingForSingleScan s) (mainMenuSelection s)
    (settingsSelection s) (settingsAcqSelection s) (settingsAxisSelection s) v.

(** The buffers have their declared sizes and element types. *)
Definition wf_state (s : State) : Prop :=
  length (tx_buffer s) = Z.to_nat PACKET_SIZE /\
  length (rx_buffer s) = Z.to_nat PACKET_SIZE /\
  Forall is_u8 (tx_buffer s) /\
  Forall is_u8 (rx_buffer s) /\
  is_u32 (SH_PERIOD s) /\
  is_u32 (ICG_PERIOD s).

(** ** Bus protocol codec *)

(** [buildCommand()]: the array-level body, then the command on the globals. *)
Definition build_frame (sh icg : Z) (tx : list Z) : list Z :=
  let tx := memset tx 0 (Z.to_nat PACKET_SIZE) in
  let tx := <[0%nat := 0x45]> tx in
  let tx := <[1%nat := 0x52]> tx in
  let tx := <[2%nat := Z.land (Z.shiftr sh 24) 0xFF]> tx in
  let tx := <[3%nat := Z.land (Z.shiftr sh 16) 0xFF]> tx in
  let tx := <[4%nat := Z.land (Z.shiftr sh 8) 0xFF]> tx in
  let tx := <[5%nat := Z.land (Z.shiftr sh 0) 0xFF]> tx in
  let tx := <[6%nat := Z.land (Z.shiftr icg 24) 0xFF]> tx in
  let tx := <[7%nat := Z.land (Z.shiftr icg 16) 0xFF]> tx in
  let tx := <[8%nat := Z.land (Z.shiftr icg 8) 0xFF]> tx in
  let tx := <[9%nat := Z.land (Z.shiftr icg 0) 0xFF]> tx in
  let tx := <[10%nat := 0x01]> tx in
  let tx := <[11%nat := Z.land (Z.shiftr NUM_INTEGRATIONS 8) 0xFF]> tx in
  let tx := <[12%nat := Z.land (Z.shiftr NUM_INTEGRATIONS 0) 0xFF]> tx in
  tx.

Definition buildCommand (s : State) : State :=
  set_tx_buffer (build_frame (SH_PERIOD s) (ICG_PERIOD s) (tx_buffer s)) s.

(** [processData_Raw()]: one iteration of the loop body, then the loop. *)
Definition decode_pixel (rx : list Z) (i : nat) : Z :=
  let index := (i * 2)%nat in
  let lsb := rd rx index in
  let msb := rd rx (index + 1)%nat in
  to_u16 (ADC_MAX_VALUE - Z.lor (Z.shiftl msb 8) lsb).

Definition decode_frame (rx raw : list Z) : list Z :=
  store_each (decode_pixel rx) (Z.to_nat PIXEL_COUNT) raw.

Definition processData_Raw (s : State) : State :=
  set_raw_pixel_data (decode_frame (rx_buffer s) (raw_pixel_data s)) s.

(** ** Correction engine *)

Definition correct_pixel (raw dark : list Z) (i : nat) : Z :=
  if rd raw i >? rd dark i then to_u16 (rd raw i - rd dark i) else 0.

Definition subtract_dark (raw dark pixel : list Z) : list Z :=
  store_each (correct_pixel raw dark) (Z.to_nat PIXEL_COUNT) pixel.

Definition applyDarkSpectrumCorrection (s : State) : State :=
  if darkSpectrumSaved s then
    set_pixel_data
      (subtract_dark (raw_pixel_data s) (dark_spectrum_data s) (pixel_data s)) s
  else
    set_pixel_data
      (memcpy (pixel_data s) (raw_pixel_data s) (Z.to_nat PIXEL_COUNT)) s.

(** [saveDarkSpectrum()], without its logging and display feedback, which
    the command [saveDarkSpectrum] below adds. *)
Definition store_dark (s : State) : State :=
  set_darkSpectrumSaved true
    (set_dark_spectrum_data
       (memcpy (dark_spectrum_data s) (raw_pixel_data s)
          (Z.to_nat PIXEL_COUNT)) s).

(** ** Effects

    Calls to the hardware objects, logged in program order. The display
    calls of one screen are one event; [delay] is not modelled. *)

Inductive Event : Type :=
  | Serial_println (msg : string)
  | Spi_writeBytes (tx : list Z)
  | Spi_transferBytes (tx rx : list Z)
  | Client_write_marker (bytes : list Z)
  | Client_write_samples (samples : list Z)
  | Tft_message (msg : string)
  | Tft_graph (mode : ScreenState) (spectrum : list Z)
  | Tft_menu (screen : ScreenState).

Definition Cmd : Type := State -> list Event * State.

Definition skip : Cmd := fun s => ([], s).
Definition emit (e : Event) : Cmd := fun s => ([e], s).
Definition modify (f : State -> State) : Cmd := fun s => ([], f s).
Definition seq_cmd (p q : Cmd) : Cmd :=
  fun s => let '(e1, s1) := p s in let '(e2, s2) := q s1 in (e1 ++ e2, s2).
Definition ite (c : State -> bool) (p q : Cmd) : Cmd :=
  fun s => if c s then p s else q s.
Definition when (c : State -> bool) (p : Cmd) : Cmd := ite c p skip.

Declare Scope cmd_scope.
Delimit Scope cmd_scope with cmd.
Bind Scope cmd_scope with Cmd.
Notation "p ;; q" := (seq_cmd p q)
  (at level 100, q at level 200, right associativity) : cmd_scope.
Local Open Scope cmd_scope.

Definition events (p : Cmd) (s : State) : list Event := fst (p s).
Definition after (p : Cmd) (s : State) : State := snd (p s).

(** What the environment supplies to one iteration of [loop]: the gesture
    decoded from the rotary encoder at the top of the iteration
    ([rotation] is -1, 0 or 1), whether the TCP connection manager saw a
    client arrive or leave, whether [client && client.connected()] holds,
    and the frame the controller clocks out if the bus is exchanged. *)
Record Inputs : Type := mkInputs {
  rotation : Z;
  clicked : bool;
  longPress : bool;
  client_event : bool;
  client_up : bool;
  spi_frame : list Z
}.

(** The gesture is a step of the encoder and the frame has the size of a
    packet. *)
Definition wf_inputs (inp : Inputs) : Prop :=
  -1 <= rotation inp <= 1 /\
  length (spi_frame inp) = Z.to_nat PACKET_SIZE /\
  Forall is_u8 (spi_frame inp).

(** [onDataReady()], the interrupt handler. *)
Definition onDataReady (s : State) : State := set_dataReady true s.

(** [readDataAndRequestNext()]. *)
Definition readDataAndRequestNext (frame : list Z) : Cmd :=
  fun s =>
    ([Spi_transferBytes (tx_buffer s) frame],
     set_rx_buffer (memcpy (rx_buffer s) frame (Z.to_nat PACKET_SIZE)) s).

(** [requestFirstScan()]. *)
Definition requestFirstScan : Cmd :=
  emit (Serial_println "Enviando primeiro comando (kick-start)...") ;;
  (fun s => ([Spi_writeBytes (tx_buffer s)], s)).

(** [sendDataViaWiFi()]. *)
Definition sendDataViaWiFi (up : bool) : Cmd :=
  if up then
    emit (Serial_println "Enviando dados via Wi-Fi (AP)...") ;;
    emit (Client_write_marker PACKET_START_MARKER) ;;
    (fun s => ([Client_write_samples (pixel_data s)], s)) ;;
    emit (Serial_println "Envio Wi-Fi (AP) completo.")
  else
    emit (Serial_println "Nenhum cliente conectado, envio ignorado.").

(** [saveDarkSpectrum()]. *)
Definition saveDarkSpectrum : Cmd :=
  modify store_dark ;;
  emit (Serial_println "Dark Spectrum Salvo!") ;;
  emit (Tft_message "Dark Spectrum Salvo!").

(** [drawGraph_GFX(mode)] plots [pixel_data]. *)
Definition drawGraph_GFX (mode : ScreenState) : Cmd :=
  fun s => ([Tft_graph mode (pixel_data s)], s).

(** ** State machine *)

(** [switch (currentState) { ... }] and [if (currentState == ...)] chains. *)
Definition switch_state (k : ScreenState -> Cmd) : Cmd :=
  fun s => k (currentState s) s.

(** [changeState(newState)]. *)
Definition changeState (newState : ScreenState) : Cmd :=
  modify (set_currentState newState) ;;
  modify (set_redrawScreen true) ;;
  switch_state (fun st =>
    match st with
    | STATE_ACQUISITION_CONT =>
        emit (Serial_println "Entrando no modo de Aquisicao (Continua)...") ;;
        modify buildCommand ;;
        requestFirstScan
    | STATE_ACQUISITION_SINGLE =>
        emit (Serial_println "Entrando no modo de Aquisicao (Unica)...") ;;
        modify buildCommand ;;
        requestFirstScan ;;
        modify (set_waitingForSingleScan true) ;;
        emit (Tft_message "Aguardando 1a aquisicao...")
    | STATE_ACQUISITION_DARK =>
        emit (Serial_println "Entrando no modo Dark Spectrum...") ;;
        modify buildCommand ;;
        requestFirstScan ;;
        modify (set_waitingForSingleScan true) ;;
        emit (Tft_message "Aguardando aquisicao (Dark)...")
    | STATE_SETTINGS => modify (set_settingsEditMode false)
    | STATE_SETTINGS_ACQ => modify (set_settingsEditMode false)
    | STATE_SETTINGS_AXIS => modify (set_settingsEditMode false)
    | STATE_MAIN_MENU => skip
    end).

(** A menu cursor moved by [rotation] and wrapped at both ends:
    [sel += rotation; if (sel > max) sel = 0; if (sel < 0) sel = max;]. *)
Definition move_selection (sel rot max : Z) : Z :=
  let sel := sel + rot in
  let sel := if sel >? max then 0 else sel in
  let sel := if sel <? 0 then max else sel in
  sel.

(** [handleMainMenuInput(rotation, clicked)]. *)
Definition handleMainMenuInput (rot : Z) (clk : bool) : Cmd :=
  when (fun _ => negb (rot =? 0))
    (modify (fun s =>
       set_mainMenuSelection
         (move_selection (mainMenuSelection s) rot MAIN_MENU_MAX) s) ;;
     modify (set_redrawScreen true)) ;;
  when (fun _ => clk)
    (ite (fun s => mainMenuSelection s =? 0)
       (changeState STATE_ACQUISITION_CONT)
    (ite (fun s => mainMenuSelection s =? 1)
       (changeState STATE_ACQUISITION_SINGLE)
    (ite (fun s => mainMenuSelection s =? 2)
       (changeState STATE_ACQUISITION_DARK)
    (when (fun s => mainMenuSelection s =? 3)
       (changeState STATE_SETTINGS))))).

(** [handleSettingsInput(rotation, clicked)]. *)
Definition handleSettingsInput (rot : Z) (clk : bool) : Cmd :=
  when (fun _ => negb (rot =? 0))
    (modify (fun s =>
       set_settingsSelection
         (move_selection (settingsSelection s) rot SETTINGS_MAX) s) ;;
     modify (set_redrawScreen true)) ;;
  when (fun _ => clk)
    (ite (fun s => settingsSelection s =? 0)
       (changeState STATE_SETTINGS_ACQ)
     (ite (fun s => settingsSelection s =? 1)
       (changeState STATE_SETTINGS_AXIS)
     (when (fun s => settingsSelection s =? 2)
       (changeState STATE_MAIN_MENU))) ;;
     modify (set_redrawScreen true)).

(** The edit step of [handleSettingsAcqInput]: the [switch] on the selected
    item, with the unsigned 32-bit compound assignments written out. *)
Definition edit_acq (rot : Z) (s : State) : State :=
  let step_time := if rot >? 0 then 100 else -100 in
  if settingsAcqSelection s =? 0 then
    let s := set_SH_PERIOD (to_u32 (SH_PERIOD s + step_time)) s in
    if SH_PERIOD s <? 40 then set_SH_PERIOD 40 s else s
  else if settingsAcqSelection s =? 1 then
    let s := set_ICG_PERIOD (to_u32 (ICG_PERIOD s + step_time * 10)) s in
    if ICG_PERIOD s <? 32000 then set_ICG_PERIOD 32000 s else s
  else s.

(** [handleSettingsAcqInput(rotation, clicked)]. *)
Definition handleSettingsAcqInput (rot : Z) (clk : bool) : Cmd :=
  ite (fun s => settingsEditMode s)
    (when (fun _ => negb (rot =? 0))
       (modify (edit_acq rot) ;;
        modify (set_redrawScreen true)) ;;
     when (fun _ => clk)
       (modify (set_settingsEditMode false) ;;
        modify (set_redrawScreen true)))
    (when (fun _ => negb (rot =? 0))
       (modify (fun s =>
          set_settingsAcqSelection
            (move_selection (settingsAcqSelection s) rot SETTINGS_ACQ_MAX) s) ;;
        modify (set_redrawScreen true)) ;;
     when (fun _ => clk)
       (ite (fun s =>
               (settingsAcqSelection s =? 0) || (settingsAcqSelection s =? 1))
          (modify (set_settingsEditMode true))
          (when (fun s => settingsAcqSelection s =? 2)
             (changeState STATE_SETTINGS)) ;;
        modify (set_redrawScreen true))).

(** Arduino's [constrain(amt, low, high)] macro. *)
Definition constrain (amt low high : Z) : Z :=
  if amt <? low then low else if amt >? high then high else amt.

(** The edit step of [handleSettingsAxisInput]. The plot bounds are [int]s
    kept between 0 and [ADC_MAX_VALUE] by [constrain], far from the ends
    of the type. *)
Definition edit_axis (rot : Z) (s : State) : State :=
  let step_px := if rot >? 0 then 10 else -10 in
  let step_adc := if rot >? 0 then 50 else -50 in
  if settingsAxisSelection s =? 1 then
    let s := set_plot_pixel_min (plot_pixel_min s + step_px) s in
    set_plot_pixel_min
      (constrain (plot_pixel_min s) 0 (plot_pixel_max s - 10)) s
  else if settingsAxisSelection s =? 2 then
    let s := set_plot_pixel_max (plot_pixel_max s + step_px) s in
    set_plot_pixel_max
      (constrain (plot_pixel_max s) (plot_pixel_min s + 10) (PIXEL_COUNT - 1)) s
  else if settingsAxisSelection s =? 3 then
    let s := set_plot_adc_min (plot_adc_min s + step_adc) s in
    set_plot_adc_min
      (constrain (plot_adc_min s) 0 (plot_adc_max s - 100)) s
  else if settingsAxisSelection s =? 4 then
    let s := set_plot_adc_max (plot_adc_max s + step_adc) s in
    set_plot_adc_max
      (constrain (plot_adc_max s) (plot_adc_min s + 100) ADC_MAX_VALUE) s
  else s.

Definition next_unit (u : XAxisUnit) : XAxisUnit :=
  match u with
  | UNIT_PIXEL => UNIT_NM
  | UNIT_NM => UNIT_CM_1
  | UNIT_CM_1 => UNIT_PIXEL
  end.

(** [handleSettingsAxisInput(rotation, clicked)]. *)
Definition handleSettingsAxisInput (rot : Z) (clk : bool) : Cmd :=
  ite (fun s => settingsEditMode s)
    (when (fun _ => negb (rot =? 0))
       (modify (edit_axis rot) ;;
        modify (set_redrawScreen true)) ;;
     when (fun _ => clk)
       (modify (set_settingsEditMode false) ;;
        modify (set_redrawScreen true)))
    (when (fun _ => negb (rot =? 0))
       (modify (fun s =>
          set_settingsAxisSelection
            (move_selection (settingsAxisSelection s) rot SETTINGS_AXIS_MAX)
            s) ;;
        modify (set_redrawScreen true)) ;;
     when (fun _ => clk)
       (ite (fun s =>
               let sel := settingsAxisSelection s in
               (sel =? 1) || (sel =? 2) || (sel =? 3) || (sel =? 4))
          (modify (set_settingsEditMode true))
        (ite (fun s => settingsAxisSelection s =? 0)
          (modify (fun s => set_currentXUnit (next_unit (currentXUnit s)) s))
        (when (fun s => settingsAxisSelection s =? 5)
          (changeState STATE_SETTINGS))) ;;
        modify (set_redrawScreen true))).

(** [handleAcquisitionInput(clicked)]. *)
Definition handleAcquisitionInput (clk : bool) : Cmd :=
  when (fun _ => clk) (changeState STATE_MAIN_MENU).

(** [drawCurrentScreen()]. *)
Definition drawCurrentScreen : Cmd :=
  switch_state (fun st =>
    match st with
    | STATE_MAIN_MENU => emit (Tft_menu STATE_MAIN_MENU)
    | STATE_SETTINGS => emit (Tft_menu STATE_SETTINGS)
    | STATE_SETTINGS_ACQ => emit (Tft_menu STATE_SETTINGS_ACQ)
    | STATE_SETTINGS_AXIS => emit (Tft_menu STATE_SETTINGS_AXIS)
    | STATE_ACQUISITION_CONT =>
        modify processData_Raw ;;
        modify applyDarkSpectrumCorrection ;;
        drawGraph_GFX STATE_ACQUISITION_CONT
    | STATE_ACQUISITION_SINGLE | STATE_ACQUISITION_DARK => skip
    end).

(** The [switch (currentState)] of [loop]: navigation. *)
Definition loop_navigation (inp : Inputs) : Cmd :=
  switch_state (fun st =>
    match st with
    | STATE_MAIN_MENU => handleMainMenuInput (rotation inp) (clicked inp)
    | STATE_SETTINGS => handleSettingsInput (rotation inp) (clicked inp)
    | STATE_SETTINGS_ACQ => handleSettingsAcqInput (rotation inp) (clicked inp)
    | STATE_SETTINGS_AXIS =>
        handleSettingsAxisInput (rotation inp) (clicked inp)
    | STATE_ACQUISITION_CONT => handleAcquisitionInput (clicked inp)
    | STATE_ACQUISITION_SINGLE =>
        when (fun _ => negb (rotation inp =? 0))
          (emit (Serial_println "Saindo do modo unico (rotacao)...") ;;
           changeState STATE_MAIN_MENU)
    | STATE_ACQUISITION_DARK =>
        when (fun _ => clicked inp || negb (rotation inp =? 0))
          (changeState STATE_MAIN_MENU) ;;
        when (fun _ => longPress inp)
          (saveDarkSpectrum ;;
           changeState STATE_MAIN_MENU)
    end).

(** One completed scan in the continuous and single modes:
    [readDataAndRequestNext(); processData_Raw();
     applyDarkSpectrumCorrection(); sendDataViaWiFi(); drawGraph_GFX(mode)]. *)
Definition scan_corrected (inp : Inputs) (mode : ScreenState) : Cmd :=
  readDataAndRequestNext (spi_frame inp) ;;
  modify processData_Raw ;;
  modify applyDarkSpectrumCorrection ;;
  sendDataViaWiFi (client_up inp) ;;
  drawGraph_GFX mode.

(** One completed scan in the dark mode:
    [readDataAndRequestNext(); processData_Raw();
     memcpy(pixel_data, raw_pixel_data, sizeof(pixel_data));
     drawGraph_GFX(STATE_ACQUISITION_DARK)]. *)
Definition scan_raw (inp : Inputs) : Cmd :=
  readDataAndRequestNext (spi_frame inp) ;;
  modify processData_Raw ;;
  modify (fun s =>
    set_pixel_data
      (memcpy (pixel_data s) (raw_pixel_data s) (Z.to_nat PIXEL_COUNT)) s) ;;
  drawGraph_GFX STATE_ACQUISITION_DARK.

(** The acquisition part of [loop]: the [if]/[else if] chain on
    [currentState] that tests and clears [dataReady]. *)
Definition loop_acquisition (inp : Inputs) : Cmd :=
  switch_state (fun st =>
    match st with
    | STATE_ACQUISITION_CONT =>
        when (fun s => dataReady s)
          (modify (set_dataReady false) ;;
           scan_corrected inp STATE_ACQUISITION_CONT)
    | STATE_ACQUISITION_SINGLE =>
        ite (fun s => dataReady s && waitingForSingleScan s)
          (modify (set_dataReady false) ;;
           modify (set_waitingForSingleScan false) ;;
           scan_corrected inp STATE_ACQUISITION_SINGLE)
          (when (fun s => clicked inp && negb (waitingForSingleScan s))
             (emit (Serial_println "Modo Unico: Pedindo novo scan...") ;;
              requestFirstScan ;;
              modify (set_waitingForSingleScan true) ;;
              emit (Tft_message "Aguardando nova aquisicao..."))) ;;
        when (fun s => dataReady s && negb (waitingForSingleScan s))
          (modify (set_dataReady false))
    | STATE_ACQUISITION_DARK =>
        when (fun s => dataReady s && waitingForSingleScan s)
          (modify (set_dataReady false) ;;
           modify (set_waitingForSingleScan false) ;;
           scan_raw inp) ;;
        when (fun s => dataReady s && negb (waitingForSingleScan s))
          (modify (set_dataReady false))
    | _ => skip
    end).

(** The tail of [loop]: menus are redrawn on request, graphs are not. *)
Definition loop_redraw : Cmd :=
  when (fun s => redrawScreen s && negb (is_acquisition (currentState s)))
    (drawCurrentScreen ;;
     modify (set_redrawScreen false)).

(** One iteration of [loop()], after the gesture has been decoded. *)
Definition loop (inp : Inputs) : Cmd :=
  when (fun _ => client_event inp) (modify (set_redrawScreen true)) ;;
  loop_navigation inp ;;
  loop_acquisition inp ;;
  loop_redraw.

(** The firmware runs [loop] forever while the data-ready interrupt may
    fire between iterations. *)
Inductive Tick : Type :=
  | Irq
  | Poll (inp : Inputs).

Definition tick (t : Tick) : Cmd :=
  match t with
  | Irq => modify onDataReady
  | Poll inp => loop inp
  end.

Fixpoint run (ts : list Tick) : Cmd :=
  match ts with
  | [] => skip
  | t :: ts => tick t ;; run ts
  end.

(** The globals as initialised by their declarations and [setup()]. *)
Definition zeros (n : Z) : list Z := replicate (Z.to_nat n) 0.

Definition initial_state : State :=
  buildCommand
    {| currentState := STATE_MAIN_MENU;
       redrawScreen := true;
       SH_PERIOD := 5000000;
       ICG_PERIOD := 5000000;
       currentXUnit := UNIT_PIXEL;
       plot_pixel_min := 0;
       plot_pixel_max := PIXEL_COUNT - 1;
       plot_adc_min := 0;
       plot_adc_max := ADC_MAX_VALUE;
       tx_buffer := zeros PACKET_SIZE;
       rx_buffer := zeros PACKET_SIZE;
       pixel_data := zeros PIXEL_COUNT;
       raw_pixel_data := zeros PIXEL_COUNT;
       dark_spectrum_data := zeros PIXEL_COUNT;
       darkSpectrumSaved := false;
       dataReady := false;
       waitingForSingleScan := false;
       mainMenuSelection := 0;
       settingsSelection := 0;
       settingsAcqSelection := 0;
       settingsAxisSelection := 0;
       settingsEditMode := false |}.

(** ** The wire format as its receiver reads it

    The frame layouts of the protocol, read back: a field is a run of
    bytes, most significant first. These follow the protocol description,
    not [buildCommand]; the theorems compare the two. *)

Definition big_endian (bytes : list Z) : Z :=
  foldl (fun acc b => acc * 256 + b) 0 bytes.

Definition little_endian (bytes : list Z) : Z :=
  foldr (fun b acc => b + 256 * acc) 0 bytes.

Definition field (frame : list Z) (off len : nat) : list Z :=
  take len (drop off frame).

Record Header : Type := mkHeader {
  h_magic : list Z;
  h_shPeriod : Z;
  h_icgPeriod : Z;
  h_mode : Z;
  h_integrations : Z
}.

Definition decode_header (frame : list Z) : Header :=
  {| h_magic := field frame 0 2;
     h_shPeriod := big_endian (field frame 2 4);
     h_icgPeriod := big_endian (field frame 6 4);
     h_mode := big_endian (field frame 10 1);
     h_integrations := big_endian (field frame 11 2) |}.

(** ** Sample data

    A response frame that is zero except for the two bytes of pixel 0, and
    the globals after [setup()] with that frame received. *)

Definition frame_with_pixel0 (byte0 byte1 : Z) : list Z :=
  <[0%nat := byte0]> (<[1%nat := byte1]> (zeros PACKET_SIZE)).

Definition received (frame : list Z) : State :=
  set_rx_buffer frame initial_state.

(** The array loops stay folded when a command is evaluated step by step. *)
Arguments build_frame : simpl never.
Arguments decode_frame : simpl never.
Arguments subtract_dark : simpl never.
Arguments memcpy : simpl never.
Arguments zeros : simpl never.

(** ** Vocabulary for the properties *)

(** Every event a command can emit satisfies [P]. *)
Definition emits_only (P : Event -> bool) (p : Cmd) : Prop :=
  forall s e, e ∈ events p s -> P e = true.

(** A command leaves an observation of the globals unchanged. *)
Definition preserves {A : Type} (f : State -> A) (p : Cmd) : Prop :=
  forall s, f (after p s) = f s.

(** A command maintains an invariant of the globals. *)
Definition maintains (I : State -> Prop) (p : Cmd) : Prop :=
  forall s, I s -> I (after p s).

(** The events of menu navigation and of entering a mode: console lines,
    the kick-start write and the waiting messages. *)
Definition is_navigation_event (e : Event) : bool :=
  match e with
  | Serial_println _ | Spi_writeBytes _ | Tft_message _ => true
  | _ => false
  end.

Definition is_menu_event (e : Event) : bool :=
  match e with
  | Tft_menu _ => true
  | _ => false
  end.

(** The spectra have the size of the detector and hold 16-bit samples. *)
Definition spectra_ok (s : State) : Prop :=
  length (pixel_data s) = Z.to_nat PIXEL_COUNT /\
  length (raw_pixel_data s) = Z.to_nat PIXEL_COUNT /\
  length (dark_spectrum_data s) = Z.to_nat PIXEL_COUNT /\
  Forall is_u16 (raw_pixel_data s) /\
  Forall is_u16 (dark_spectrum_data s).

(** [raw - dark], clamped at zero. *)
Definition clamped_difference (raw dark : Z) : Z :=
  if raw >? dark then raw - dark else 0.

(** The events of [sendDataViaWiFi()] for a spectrum. *)
Definition wifi_events (up : bool) (spectrum : list Z) : list Event :=
  if up then
    [Serial_println "Enviando dados via Wi-Fi (AP)...";
     Client_write_marker PACKET_START_MARKER;
     Client_write_samples spectrum;
     Serial_println "Envio Wi-Fi (AP) completo."]
  else
    [Serial_println "Nenhum cliente conectado, envio ignorado."].

(** The state in which [loop] reaches its acquisition part. *)
Definition loop_front (inp : Inputs) : Cmd :=
  when (fun _ => client_event inp) (modify (set_redrawScreen true)) ;;
  loop_navigation inp.

(** The events of [sendDataViaWiFi()], whatever the spectrum sent. *)
Definition is_wifi_event (e : Event) : bool :=
  match e with
  | Client_write_marker _ | Client_write_samples _ => true
  | Serial_println msg =>
      (msg =? "Enviando dados via Wi-Fi (AP)...")%string
      || (msg =? "Envio Wi-Fi (AP) completo.")%string
      || (msg =? "Nenhum cliente conectado, envio ignorado.")%string
  | _ => false
  end.

(** What [sendDataViaWiFi()] writes to the TCP client. *)
Definition is_client_write (e : Event) : bool :=
  match e with
  | Client_write_marker _ | Client_write_samples _ => true
  | _ => false
  end.

(** The spectra and the flags of the data path, as one observation. *)
Definition data_path (s : State) :=
  (pixel_data s, raw_pixel_data s, rx_buffer s, dataReady s).

Definition stored_dark (s : State) :=
  (dark_spectrum_data s, darkSpectrumSaved s).

(** A property of every iteration of [loop] along a run: [P s inp] for
    each [Poll inp] met in state [s]. *)
Fixpoint all_polls (P : State -> Inputs -> Prop) (ts : list Tick) (s : State)
  : Prop :=
  match ts with
  | [] => True
  | t :: ts =>
      match t with
      | Irq => True
      | Poll inp => P s inp
      end /\ all_polls P ts (after (tick t) s)
  end.

(** The spectrum an event hands to a sink: the display or the TCP client. *)
Definition published (e : Event) : option (list Z) :=
  match e with
  | Tft_graph _ spectrum | Client_write_samples spectrum => Some spectrum
  | _ => None
  end.

(** The kind of an event, for reading traces. *)
Inductive Kind : Type :=
  | K_serial
  | K_kick_start
  | K_exchange
  | K_marker
  | K_samples
  | K_message
  | K_graph (mode : ScreenState)
  | K_menu (screen : ScreenState).

Definition kind_of (e : Event) : Kind :=
  match e with
  | Serial_println _ => K_serial
  | Spi_writeBytes _ => K_kick_start
  | Spi_transferBytes _ _ => K_exchange
  | Client_write_marker _ => K_marker
  | Client_write_samples _ => K_samples
  | Tft_message _ => K_message
  | Tft_graph mode _ => K_graph mode
  | Tft_menu screen => K_menu screen
  end.

(** Gestures, with a client connected and a frame whose pixel 0 holds the
    count 0x0234. *)
Definition gesture (rot : Z) (clk lp : bool) : Inputs :=
  {| rotation := rot; clicked := clk; longPress := lp;
     client_event := false; client_up := true;
     spi_frame := frame_with_pixel0 0x34 0x02 |}.

Definition no_gesture : Inputs := gesture 0 false false.
Definition click : Inputs := gesture 0 true false.
Definition turn_right : Inputs := gesture 1 false false.
Definition turn_left : Inputs := gesture (-1) false false.
Definition long_press : Inputs := gesture 0 false true.

(** A frame clocked in with no gesture and a client connected; the first
    pixel of the frame holds the count [byte0 + 256 * byte1]. *)
Definition scan_frame (byte0 byte1 : Z) : Inputs :=
  {| rotation := 0; clicked := false; longPress := false;
     client_event := false; client_up := true;
     spi_frame := frame_with_pixel0 byte0 byte1 |}.

(** No gesture and no client connected. *)
Definition no_client : Inputs :=
  {| rotation := 0; clicked := false; longPress := false;
     client_event := false; client_up := false;
     spi_frame := frame_with_pixel0 0x34 0x02 |}.

(** An iteration of [loop] whose acquisition part runs in the dark mode.
    If it finds the data-ready flag set and the latch armed it completes
    a scan: it exchanges the bus, decodes the frame received into
    [rx_buffer] and draws the decoded spectrum as it is, with no dark
    spectrum subtracted. It publishes nothing else, and nothing to the
    client. *)
Definition raw_in_dark (s : State) (inp : Inputs) : Prop :=
  let s1 := after (loop_front inp) s in
  let s' := after (loop inp) s in
  currentState s1 = STATE_ACQUISITION_DARK ->
  (dataReady s = true -> waitingForSingleScan s1 = true ->
     events (loop inp) s =
       events (loop_front inp) s
         ++ [Spi_transferBytes (tx_buffer s1) (spi_frame inp);
             Tft_graph STATE_ACQUISITION_DARK (pixel_data s')] /\
     rx_buffer s' =
       memcpy (rx_buffer s) (spi_frame inp) (Z.to_nat PACKET_SIZE) /\
     (length (rx_buffer s) = Z.to_nat PACKET_SIZE ->
      length (spi_frame inp) = Z.to_nat PACKET_SIZE ->
      rx_buffer s' = spi_frame inp) /\
     pixel_data s' = raw_pixel_data s' /\
     forall i : nat,
       (i < Z.to_nat PIXEL_COUNT)%nat ->
       rd (pixel_data s') i = decode_pixel (rx_buffer s') i) /\
  (forall e spectrum,
     e ∈ events (loop inp) s -> published e = Some spectrum ->
     dataReady s = true /\ waitingForSingleScan s1 = true /\
     e = Tft_graph STATE_ACQUISITION_DARK spectrum /\
     spectrum = pixel_data s').

(** An iteration of [loop] whose acquisition part runs in the continuous
    mode, with [dark] the dark spectrum stored when the iteration starts,
    which it leaves alone. If it finds the data-ready flag set it
    completes a scan: it exchanges the bus, decodes the frame received
    into [rx_buffer] and publishes [raw - dark], clamped at zero, to the
    client when one is connected and to the display. It publishes
    nothing else. *)
Definition corrected_in_cont (s : State) (inp : Inputs) : Prop :=
  let s1 := after (loop_front inp) s in
  let s' := after (loop inp) s in
  currentState s1 = STATE_ACQUISITION_CONT ->
  dark_spectrum_data s' = dark_spectrum_data s /\
  (dataReady s = true ->
     events (loop inp) s =
       events (loop_front inp) s
         ++ Spi_transferBytes (tx_buffer s1) (spi_frame inp)
            :: wifi_events (client_up inp) (pixel_data s')
         ++ [Tft_graph STATE_ACQUISITION_CONT (pixel_data s')] /\
     rx_buffer s' =
       memcpy (rx_buffer s) (spi_frame inp) (Z.to_nat PACKET_SIZE) /\
     (length (rx_buffer s) = Z.to_nat PACKET_SIZE ->
      length (spi_frame inp) = Z.to_nat PACKET_SIZE ->
      rx_buffer s' = spi_frame inp) /\
     forall i : nat,
       (i < Z.to_nat PIXEL_COUNT)%nat ->
       rd (raw_pixel_data s') i = decode_pixel (rx_buffer s') i /\
       rd (pixel_data s') i =
         clamped_difference (decode_pixel (rx_buffer s') i)
                            (rd (dark_spectrum_data s) i)) /\
  (forall e spectrum,
     e ∈ events (loop inp) s -> published e = Some spectrum ->
     dataReady s = true /\ spectrum = pixel_data s').

(** The item of the main menu under the cursor, as
    [handleMainMenuInput] reads it on a click. *)
Definition menu_choice (sel : Z) : option ScreenState :=
  if sel =? 0 then Some STATE_ACQUISITION_CONT
  else if sel =? 1 then Some STATE_ACQUISITION_SINGLE
  else if sel =? 2 then Some STATE_ACQUISITION_DARK
  else if sel =? 3 then Some STATE_SETTINGS
  else None.

(** An iteration of [loop] whose acquisition part runs in a menu or
    settings state. *)
Definition stays_in_menus (s : State) (inp : Inputs) : Prop :=
  is_acquisition (currentState (after (loop_front inp) s)) = false.

(** The events of a scan completed on entry, by mode. *)
Definition scan_events (mode : ScreenState) (tx frame : list Z) (up : bool)
    (spectrum : list Z) : list Event :=
  match mode with
  | STATE_ACQUISITION_DARK =>
      [Spi_transferBytes tx frame; Tft_graph mode spectrum]
  | _ =>
      Spi_transferBytes tx frame
        :: wifi_events up spectrum ++ [Tft_graph mode spectrum]
  end.

(** States reached from power-up: a mode entered from the main menu, then
    the data-ready interrupt. *)
Definition in_cont_ready : State :=
  after (run [Poll click; Irq]) initial_state.

Definition in_single_armed : State :=
  after (run [Poll turn_right; Poll click; Irq]) initial_state.

Definition in_dark_armed : State :=
  after (run [Poll turn_right; Poll turn_right; Poll click; Irq])
    initial_state.

(** The timing parameters sent to the controller. *)
Definition periods (s : State) := (SH_PERIOD s, ICG_PERIOD s).

(** From power-up to the SH-period editor: the cursor is wrapped back to
    "settings", then three clicks open the settings, the acquisition
    settings and the editor of the first item. *)
Definition open_sh_editor : list Tick :=
  [Poll turn_left; Poll click; Poll click; Poll click].

(** The encoder turned left [n] times. *)
Definition turns_left (n : Z) : list Tick :=
  replicate (Z.to_nat n) (Poll turn_left).

(** The SH period brought down from its power-up value, 5000000, in
    50000 steps of 100. *)
Definition sh_at_minimum : State :=
  after (run (open_sh_editor ++ turns_left 50000)) initial_state.

(** ** Spectral calibration

    [float] is IEEE 754 binary32 and [double] binary64, both computed by
    the Standard Library's [SpecFloat] with round-to-nearest-even; each
    operation is rounded on its own. A [float] operand of a [double]
    operation is widened first, which is exact, and a [double] returned as
    [float] is rounded. *)

Definition float : Type := spec_float.
Definition double : Type := spec_float.

Definition float_of_int (z : Z) : float := binary_normalize 24 128 z 0 false.
Definition double_of_int (z : Z) : double := binary_normalize 53 1024 z 0 false.

Definition double_of_float (x : float) : double :=
  match x with
  | S754_finite s m e => binary_round 53 1024 s m e
  | _ => x
  end.

Definition float_of_double (x : double) : float :=
  match x with
  | S754_finite s m e => binary_round 24 128 s m e
  | _ => x
  end.

(** The [double] nearest to the decimal literal [n / d]. *)
Definition double_literal (n d : Z) : double :=
  SFdiv 53 1024 (double_of_int n) (double_of_int d).

Definition fadd : float -> float -> float := SFadd 24 128.
Definition fsub : float -> float -> float := SFsub 24 128.
Definition fmul : float -> float -> float := SFmul 24 128.
Definition fdiv : float -> float -> float := SFdiv 24 128.
Definition dsub : double -> double -> double := SFsub 53 1024.
Definition dmul : double -> double -> double := SFmul 53 1024.
Definition ddiv : double -> double -> double := SFdiv 53 1024.

(** Comparisons of C: false as soon as an operand is not a number. *)
Definition float_le (x y : float) : bool := SFleb x y.
Definition float_lt (x y : float) : bool := SFltb x y.

Definition CAL_LAMBDA_1 : float := float_of_double (double_literal 5320 10).
Definition CAL_PIXEL_1 : Z := 387.
Definition CAL_LAMBDA_2 : float := float_of_double (double_literal 6328 10).
Definition CAL_PIXEL_2 : Z := 2416.
Definition EXC_LAMBDA : float := float_of_double (double_literal 5320 10).

(** The calibration coefficients as [setup()] computes them. *)
Definition cal_slope_a : float :=
  fdiv (fsub CAL_LAMBDA_2 CAL_LAMBDA_1)
       (float_of_int (CAL_PIXEL_2 - CAL_PIXEL_1)).

Definition cal_intercept_b : float :=
  fsub CAL_LAMBDA_1 (fmul cal_slope_a (float_of_int CAL_PIXEL_1)).

(** [pixelToWavelength(pixel)]. *)
Definition pixelToWavelength (pixel : Z) : float :=
  fadd (fmul cal_slope_a (float_of_int pixel)) cal_intercept_b.

(** [wavelengthToWavenumber(lambda_nm)]. *)
Definition wavelengthToWavenumber (lambda_nm : float) : float :=
  if float_le lambda_nm EXC_LAMBDA then
    float_of_double (double_literal 0 10)
  else
    float_of_double
      (dmul
         (dsub (ddiv (double_literal 10 10) (double_of_float EXC_LAMBDA))
               (ddiv (double_literal 10 10) (double_of_float lambda_nm)))
         (double_literal 100000000 10)).

(** [getXUnitValue(pixel)]. *)
Definition getXUnitValue (unit : XAxisUnit) (pixel : Z) : float :=
  match unit with
  | UNIT_NM => pixelToWavelength pixel
  | UNIT_CM_1 => wavelengthToWavenumber (pixelToWavelength pixel)
  | UNIT_PIXEL => float_of_int pixel
  end.

(** The formula of [wavelengthToWavenumber] as the sketch evaluates it. *)
Definition raman_shift (lambda_nm : float) : float :=
  float_of_double
    (dmul
       (dsub (ddiv (double_of_int 1) (double_of_float (float_of_int 532)))
             (ddiv (double_of_int 1) (double_of_float lambda_nm)))
       (double_of_int 10000000)).

(** Adjacent pixels from [p] up, [n] of them, give increasing shifts. *)
Fixpoint shifts_increase (n : nat) (p : Z) : bool :=
  match n with
  | O => true
  | S n =>
      float_lt (wavelengthToWavenumber (pixelToWavelength p))
               (wavelengthToWavenumber (pixelToWavelength (p + 1)))
      && float_lt (pixelToWavelength p) (pixelToWavelength (p + 1))
      && shifts_increase n (p + 1)
  end.

(** Pixels from [p] up, [n] of them, lie at or below the excitation line. *)
Fixpoint below_excitation (n : nat) (p : Z) : bool :=
  match n with
  | O => true
  | S n =>
      float_le (pixelToWavelength p) EXC_LAMBDA
      && below_excitation n (p + 1)
  end.

(** ** Rounding in closed form

    The vocabulary in which the properties of the floating-point
    operations are stated: values are integers counted in units of a power
    of two [2 ^ B] below every exponent in play, and [round_at] is what
    [binary_round] computes, written with one division. *)

(** The integer nearest to [N / D], ties to the even one. *)
Definition rnd (N D : Z) : Z :=
  let q := N / D in
  let r := N mod D in
  if 2 * r <? D then q
  else if D <? 2 * r then q + 1
  else if Z.even q then q else q + 1.

(** [N / 2 ^ k] rounded. *)
Definition rne (N k : Z) : Z := rnd N (2 ^ k).

(** The number of binary digits of [V]. *)
Definition dg (V : Z) : Z := Z.log2 V + 1.

(** [N] shifted right by [k] places, with the round and sticky bits. *)
Definition shr_rep (N k : Z) : shr_record :=
  {| shr_m := N / 2 ^ k;
     shr_r := (0 <? k) && Z.odd (N / 2 ^ (k - 1));
     shr_s := (0 <? k) && negb (N mod 2 ^ (k - 1) =? 0) |}.

(** A significand that rounded up to [2 ^ prec] moves to the next binade. *)
Definition renorm (prec M E : Z) : Z * Z :=
  if M =? 2 ^ prec then (2 ^ (prec - 1), E + 1) else (M, E).

(** The last step of [binary_round_aux]. *)
Definition pack (prec emax : Z) (s : bool) (ME : Z * Z) : spec_float :=
  match fst ME with
  | Z0 => S754_zero s
  | Zpos m =>
      if snd ME <=? emax - prec then S754_finite s m (snd ME)
      else S754_infinity s
  | Zneg _ => S754_nan
  end.

(** The value [V * 2 ^ B], [0 <= V], rounded to the format. *)
Definition round_at (prec emax B V : Z) : spec_float :=
  let E := fexp prec emax (dg V + B) in
  pack prec emax false (renorm prec (rne V (E - B)) E).

(** The value of a non-negative number in units of [2 ^ B]. *)
Definition val (B : Z) (x : spec_float) : Z :=
  match x with
  | S754_finite false m e => Zpos m * 2 ^ (e - B)
  | _ => 0
  end.

(** Zero or a positive number of the format. *)
Definition is_nonneg (prec emax : Z) (x : spec_float) : bool :=
  match x with
  | S754_zero false => true
  | S754_finite false m e => bounded prec emax m e
  | _ => false
  end.

(** The value of [round_at], in units of [2 ^ B]. *)
Definition rv (prec emax B V : Z) : Z :=
  let k := fexp prec emax (dg V + B) - B in
  rne V k * 2 ^ k.

(** [1.0 / x] of the sketch, in [double]. *)
Definition reciprocal (x : float) : double :=
  ddiv (double_literal 10 10) (double_of_float x).

(** What [wavelengthToWavenumber] makes of the reciprocal [d] of the
    wavelength. *)
Definition shift_of_reciprocal (d : double) : float :=
  float_of_double
    (dmul (dsub (reciprocal EXC_LAMBDA) d) (double_literal 100000000 10)).

(** A positive number of the [float] format, or plus infinity. *)
Definition is_wavelength (x : float) : bool :=
  match x with
  | S754_infinity false => true
  | S754_finite false m e => bounded 24 128 m e
  | _ => false
  end.

(** ** Invariants of the user interface *)

(** Each menu cursor is on an item of its menu. *)
Definition cursors_ok (s : State) : Prop :=
  0 <= mainMenuSelection s <= MAIN_MENU_MAX /\
  0 <= settingsSelection s <= SETTINGS_MAX /\
  0 <= settingsAcqSelection s <= SETTINGS_ACQ_MAX /\
  0 <= settingsAxisSelection s <= SETTINGS_AXIS_MAX.

(** The plot window lies inside the detector and the ADC range, at least
    10 pixels wide and 100 counts high. *)
Definition axis_ok (s : State) : Prop :=
  0 <= plot_pixel_min s /\
  plot_pixel_min s + 10 <= plot_pixel_max s /\
  plot_pixel_max s <= PIXEL_COUNT - 1 /\
  0 <= plot_adc_min s /\
  plot_adc_min s + 100 <= plot_adc_max s /\
  plot_adc_max s <= ADC_MAX_VALUE.

(** The periods are 32-bit and not below the minimums of the editor. *)
Definition periods_ok (s : State) : Prop :=
  40 <= SH_PERIOD s < 2 ^ 32 /\ 32000 <= ICG_PERIOD s < 2 ^ 32.

(** The edit mode is on only in one of the two editors, with the cursor
    on a value that can be edited. *)
Definition editing_ok (s : State) : Prop :=
  settingsEditMode s = true ->
  (currentState s = STATE_SETTINGS_ACQ /\ 0 <= settingsAcqSelection s <= 1) \/
  (currentState s = STATE_SETTINGS_AXIS /\ 1 <= settingsAxisSelection s <= 4).

(** The command frame for given periods: what [buildCommand] leaves in a
    buffer of the size of a packet. *)
Definition command_frame (sh icg : Z) : list Z :=
  build_frame sh icg (zeros PACKET_SIZE).

(** In an acquisition mode the transmit buffer holds the command frame
    of the current periods. *)
Definition command_ok (s : State) : Prop :=
  length (tx_buffer s) = Z.to_nat PACKET_SIZE /\
  (is_acquisition (currentState s) = true ->
   tx_buffer s = command_frame (SH_PERIOD s) (ICG_PERIOD s)).

(** What the user interface keeps true from power-up on. *)
Definition ui_ok (s : State) : Prop :=
  cursors_ok s /\ axis_ok s /\ periods_ok s /\ editing_ok s /\ command_ok s.

(** The globals that the navigation part of [loop] works on. *)
Definition ui_view (s : State) :=
  (currentState s, SH_PERIOD s, ICG_PERIOD s,
   (plot_pixel_min s, plot_pixel_max s, plot_adc_min s, plot_adc_max s),
   tx_buffer s,
   (mainMenuSelection s, settingsSelection s, settingsAcqSelection s,
    settingsAxisSelection s),
   settingsEditMode s).

(** The frame an event puts on the SPI bus. *)
Definition bus_frame (e : Event) : option (list Z) :=
  match e with
  | Spi_writeBytes tx | Spi_transferBytes tx _ => Some tx
  | _ => None
  end.

(** The four menu cursors. *)
Definition cursors (s : State) :=
  (mainMenuSelection s, settingsSelection s, settingsAcqSelection s,
   settingsAxisSelection s).

(** The values that the two editors change. *)
Definition settings (s : State) :=
  (SH_PERIOD s, ICG_PERIOD s, plot_pixel_min s, plot_pixel_max s,
   plot_adc_min s, plot_adc_max s).

(** What the menu and settings screens show of the globals. *)
Definition shown (s : State) :=
  (currentState s, cursors s, settings s, settingsEditMode s, currentXUnit s).

(** The frame of an iteration has the size of a packet and holds bytes. *)
Definition frame_ok (inp : Inputs) : Prop :=
  length (spi_frame inp) = Z.to_nat PACKET_SIZE /\
  Forall is_u8 (spi_frame inp).

(** The spectra have their size and hold 16-bit samples, the one on
    display included. *)
Definition pixels_ok (s : State) : Prop :=
  spectra_ok s /\ Forall is_u16 (pixel_data s).

(** Every array has its declared size and every cell a value of its
    type. *)
Definition cells_ok (s : State) : Prop :=
  wf_state s /\ spectra_ok s /\ Forall is_u16 (pixel_data s).

(** ** The graph

    [drawGraph_GFX] in detail, on a display of [w] by [h] pixels (what
    [tft.width()] and [tft.height()] return): the frame of the plot, the
    grid with its labels, and the polyline of the spectrum. *)

Definition MARGEM_Y : Z := 20.
Definition MARGEM_X : Z := 30.
Definition NUM_DIVISOES_X : Z := 8.
Definition NUM_DIVISOES_Y : Z := 4.

(** [int] and [long] are 32 bits wide on the ESP32. *)
Definition to_i32 (z : Z) : Z := (z + 2 ^ 31) mod 2 ^ 32 - 2 ^ 31.

(** Arduino's [map(x, in_min, in_max, out_min, out_max)] on [long], as the
    ESP32 core defines it: an empty input range gives [-1], and the
    division truncates towards zero. *)
Definition arduino_map (x in_min in_max out_min out_max : Z) : Z :=
  let run := to_i32 (in_max - in_min) in
  if run =? 0 then -1
  else
    let rise := to_i32 (out_max - out_min) in
    let delta := to_i32 (x - in_min) in
    to_i32 (to_i32 (to_i32 (delta * rise) ÷ run) + out_min).

Definition plot_x0 : Z := MARGEM_X.
Definition plot_y0 : Z := MARGEM_Y.
Definition plot_x1 (w : Z) : Z := w - MARGEM_X.
Definition plot_y1 (h : Z) : Z := h - MARGEM_Y.
Definition plot_w (w : Z) : Z := plot_x1 w - plot_x0.
Definition plot_h (h : Z) : Z := plot_y1 h - plot_y0.

(** The vertical grid line [i] and the pixel whose value labels it. *)
Definition grid_x (w i : Z) : Z :=
  plot_x0 + to_i32 (i * plot_w w) ÷ NUM_DIVISOES_X.
Definition grid_pixel (s : State) (i : Z) : Z :=
  arduino_map i 0 NUM_DIVISOES_X (plot_pixel_min s) (plot_pixel_max s).
Definition grid_x_label (s : State) (i : Z) : float :=
  getXUnitValue (currentXUnit s) (grid_pixel s i).

(** The horizontal grid line [i] and its label. *)
Definition grid_y (h i : Z) : Z :=
  plot_y0 + to_i32 (i * plot_h h) ÷ NUM_DIVISOES_Y.
Definition grid_y_label (s : State) (i : Z) : Z :=
  arduino_map i 0 NUM_DIVISOES_Y (plot_adc_max s) (plot_adc_min s).

(** The sample plotted in column [x_plot]. *)
Definition curve_pixel (w : Z) (s : State) (x_plot : Z) : Z :=
  arduino_map x_plot 0 (plot_w w - 1) (plot_pixel_min s) (plot_pixel_max s).

(** The height on the display of the count [v]. *)
Definition curve_y (h : Z) (s : State) (v : Z) : Z :=
  let y_adc := constrain v (plot_adc_min s) (plot_adc_max s) in
  arduino_map y_adc (plot_adc_min s) (plot_adc_max s) (plot_y1 h) plot_y0.

(** A segment [drawLine(x0, y0, x1, y1)] of the polyline, with the index
    of the sample read for its end point. *)
Record Segment : Type := {
  seg_x0 : Z; seg_y0 : Z; seg_x1 : Z; seg_y1 : Z; seg_pixel : Z
}.

(** One round of the loop over [x_plot]. *)
Definition curve_step (w h : Z) (s : State)
    (acc : list Segment * (Z * Z)) (x_plot : Z) : list Segment * (Z * Z) :=
  let '(segs, (prev_x, prev_y)) := acc in
  let i := curve_pixel w s x_plot in
  let y := curve_y h s (rd (pixel_data s) (Z.to_nat i)) in
  let x := plot_x0 + x_plot in
  (segs ++ [{| seg_x0 := prev_x; seg_y0 := prev_y;
               seg_x1 := x; seg_y1 := y; seg_pixel := i |}],
   (x, y)).

(** The polyline: [for (int x_plot = 1; x_plot < plot_w; x_plot++)]. *)
Definition curve (w h : Z) (s : State) : list Segment :=
  let prev_y :=
    curve_y h s (rd (pixel_data s) (Z.to_nat (plot_pixel_min s))) in
  let prev_x := plot_x0 in
  fst (foldl (curve_step w h s) ([], (prev_x, prev_y))
             (map Z.of_nat (seq 1 (Z.to_nat (plot_w w - 1))))).

(** The display of the sketch after [tft.setRotation(1)]. *)
Definition TFT_WIDTH : Z := 480.
Definition TFT_HEIGHT : Z := 320.

(** Adjacent pixels from [p] up, [n] of them, have values on the x axis,
    in the unit [unit], that do not decrease. *)
Fixpoint axis_ordered (unit : XAxisUnit) (n : nat) (p : Z) : bool :=
  match n with
  | O => true
  | S n =>
      float_le (getXUnitValue unit p) (getXUnitValue unit (p + 1))
      && axis_ordered unit n (p + 1)
  end.

(** ** The gesture decoder

    The head of [loop()]: the encoder and its button are read once per
    iteration and turned into a rotation, a click or a long press. *)

Definition to_i16 (z : Z) : Z := (z + 2 ^ 15) mod 2 ^ 16 - 2 ^ 15.

Definition LONG_PRESS_DURATION : Z := 3000.

(** [lastEncoderValue] and the [static] locals of [loop()]. *)
Record Button : Type := mkButton {
  lastEncoderValue : Z;
  lastTimePressed : Z;
  pressStartTime : Z;
  isPressing : bool;
  longPressEventTriggered : bool
}.

(** The statics start at zero and [false]; [setup()] stores the position
    of the encoder in [lastEncoderValue]. *)
Definition initial_button (encoder : Z) : Button :=
  {| lastEncoderValue := to_i16 encoder;
     lastTimePressed := 0;
     pressStartTime := 0;
     isPressing := false;
     longPressEventTriggered := false |}.

(** What the encoder library and the clock answer during one iteration;
    [millis k] is what the call number [k] of [millis()] returns, counted
    from zero. *)
Record Sense : Type := mkSense {
  encoderChanged : bool;
  readEncoder : Z;
  isEncoderButtonDown : bool;
  millis : nat -> Z
}.

(** [if (rotaryEncoder.encoderChanged()) { ... }]. *)
Definition decode_rotation (x : Sense) (b : Button) : Z * Button :=
  if encoderChanged x then
    let currentValue := to_i16 (readEncoder x) in
    (if currentValue >? lastEncoderValue b then 1 else -1,
     mkButton currentValue (lastTimePressed b) (pressStartTime b)
       (isPressing b) (longPressEventTriggered b))
  else (0, b).

(** [if (rotaryEncoder.isEncoderButtonDown()) { ... } else { ... }]:
    [clicked], [longPress], what is printed and the statics afterwards.
    The differences of clock readings are [unsigned long]. *)
Definition decode_button (x : Sense) (b : Button)
  : bool * bool * list Event * Button :=
  if isEncoderButtonDown x then
    let '(b, evs, k) :=
      if negb (isPressing b) then
        (mkButton (lastEncoderValue b) (lastTimePressed b)
           (to_u32 (millis x 0)) true false,
         [Serial_println "Button Down"], 1%nat)
      else (b, [], 0%nat) in
    if isPressing b && negb (longPressEventTriggered b)
       && (to_u32 (to_u32 (millis x k) - pressStartTime b)
             >? LONG_PRESS_DURATION)
    then
      (false, true, evs ++ [Serial_println "Long Press Event!"],
       mkButton (lastEncoderValue b) (lastTimePressed b) (pressStartTime b)
         (isPressing b) true)
    else (false, false, evs, b)
  else if isPressing b then
    let b :=
      mkButton (lastEncoderValue b) (lastTimePressed b) (pressStartTime b)
        false (longPressEventTriggered b) in
    let pressDuration := to_u32 (to_u32 (millis x 0) - pressStartTime b) in
    if negb (longPressEventTriggered b) && (pressDuration <? 1000) then
      if to_u32 (to_u32 (millis x 1) - lastTimePressed b) >? 500 then
        (true, false,
         [Serial_println "Button Clicked!"; Serial_println "Button Up"],
         mkButton (lastEncoderValue b) (to_u32 (millis x 2))
           (pressStartTime b) (isPressing b) (longPressEventTriggered b))
      else (false, false, [Serial_println "Button Up"], b)
    else (false, false, [Serial_println "Button Up"], b)
  else (false, false, [], b).

(** The gesture of one iteration, as [loop()] hands it to the
    navigation, with the client and the frame of the iteration. *)
Definition decode_gesture (x : Sense) (b : Button)
    (client_event client_up : bool) (frame : list Z) : Inputs * Button :=
  let '(rot, b) := decode_rotation x b in
  let '(clk, lp, _, b) := decode_button x b in
  (mkInputs rot clk lp client_event client_up frame, b).

(** The button over successive iterations: the pairs
    ([clicked], [longPress]) reported, and the statics at the end. *)
Fixpoint decode_buttons (xs : list Sense) (b : Button)
  : list (bool * bool) * Button :=
  match xs with
  | [] => ([], b)
  | x :: xs =>
      let '(clk, lp, _, b) := decode_button x b in
      let '(gs, b) := decode_buttons xs b in
      ((clk, lp) :: gs, b)
  end.

(** The number of gestures reported. *)
Definition gesture_count (gs : list (bool * bool)) : nat :=
  foldr (fun g n => (Nat.b2n g.1 + Nat.b2n g.2 + n)%nat) 0%nat gs.

Definition button_down (x : Sense) : Prop := isEncoderButtonDown x = true.

(** The button seen down, or seen released, with the clock at [t] and the
    encoder at rest. *)
Definition held_at (t : Z) : Sense :=
  {| encoderChanged := false; readEncoder := 0;
     isEncoderButtonDown := true; millis := fun _ => t |}.
Definition released_at (t : Z) : Sense :=
  {| encoderChanged := false; readEncoder := 0;
     isEncoderButtonDown := false; millis := fun _ => t |}.

(** The encoder seen at position [v], with the button up. *)
Definition turned_to (v : Z) : Sense :=
  {| encoderChanged := true; readEncoder := v;
     isEncoderButtonDown := false; millis := fun _ => 0 |}.

(* ================================================================== *)
(** * Properties *)
(* ================================================================== *)

(** ** Arrays filled by a counting loop *)

Lemma for_loop_S {A} (n : nat) (body : nat -> A -> A) (a : A) :
  for_loop (S n) body a = body n (for_loop n body a).
Proof. unfold for_loop. rewrite seq_S, foldl_app. reflexivity. Qed.

Lemma store_each_length f n a : length (store_each f n a) = length a.
Proof.
  induction n as [|n IH]; [reflexivity|].
  unfold store_each in *. rewrite for_loop_S, length_insert. exact IH.
Qed.

Lemma store_each_lookup_lt f n a i :
  (i < n)%nat -> (i < length a)%nat -> store_each f n a !! i = Some (f i).
Proof.
  induction n as [|n IH]; intros Hi Hlen; [lia|].
  unfold store_each. rewrite for_loop_S. fold (store_each f n a).
  destruct (decide (i = n)) as [->|Hne].
  - apply list_lookup_insert_eq. rewrite store_each_length. lia.
  - rewrite list_lookup_insert_ne by congruence. apply IH; lia.
Qed.

Lemma store_each_lookup_ge f n a i :
  (n <= i)%nat -> store_each f n a !! i = a !! i.
Proof.
  induction n as [|n IH]; intros Hi; [reflexivity|].
  unfold store_each. rewrite for_loop_S. fold (store_each f n a).
  rewrite list_lookup_insert_ne by lia. apply IH; lia.
Qed.

Lemma rd_lookup (a : list Z) i v : a !! i = Some v -> rd a i = v.
Proof. unfold rd. intros ->. reflexivity. Qed.

Lemma rd_Forall (P : Z -> Prop) (a : list Z) i :
  Forall P a -> (i < length a)%nat -> P (rd a i).
Proof.
  intros HP Hi. destruct (lookup_lt_is_Some_2 a i Hi) as [v Hv].
  rewrite (rd_lookup _ _ _ Hv). exact (Forall_lookup_1 _ _ _ _ HP Hv).
Qed.

Lemma memcpy_full (dst src : list Z) n :
  length dst = n -> length src = n -> memcpy dst src n = src.
Proof.
  intros Hd Hs. unfold memcpy.
  rewrite take_ge, drop_ge, app_nil_r by lia. reflexivity.
Qed.

Lemma memset_full (dst : list Z) v n :
  length dst = n -> memset dst v n = replicate n v.
Proof.
  intros Hd. unfold memset.
  rewrite drop_ge, app_nil_r by lia. f_equal. lia.
Qed.

Lemma decode_frame_rd rx raw i :
  (i < Z.to_nat PIXEL_COUNT)%nat -> length raw = Z.to_nat PIXEL_COUNT ->
  rd (decode_frame rx raw) i = decode_pixel rx i.
Proof.
  intros Hi Hlen. apply rd_lookup. unfold decode_frame.
  apply store_each_lookup_lt; lia.
Qed.

Lemma decode_frame_length rx raw :
  length (decode_frame rx raw) = length raw.
Proof. unfold decode_frame. apply store_each_length. Qed.

Lemma subtract_dark_rd raw dark pixel i :
  (i < Z.to_nat PIXEL_COUNT)%nat -> length pixel = Z.to_nat PIXEL_COUNT ->
  rd (subtract_dark raw dark pixel) i = correct_pixel raw dark i.
Proof.
  intros Hi Hlen. apply rd_lookup. unfold subtract_dark.
  apply store_each_lookup_lt; lia.
Qed.

Lemma subtract_dark_length raw dark pixel :
  length (subtract_dark raw dark pixel) = length pixel.
Proof. unfold subtract_dark. apply store_each_length. Qed.

(** ** Bytes and words *)

Lemma lor_shiftl_8 (msb lsb : Z) :
  is_u8 msb -> is_u8 lsb -> Z.lor (Z.shiftl msb 8) lsb = msb * 256 + lsb.
Proof.
  unfold is_u8. intros Hm Hl.
  rewrite Z.shiftl_mul_pow2 by lia. change (2 ^ 8) with 256 in *.
  symmetry. apply Z.add_nocarry_lor.
  apply Z.bits_inj'. intros n Hn.
  rewrite Z.land_spec, Z.bits_0.
  destruct (Z_lt_ge_dec n 8) as [Hlt|Hge].
  - change 256 with (2 ^ 8). rewrite Z.mul_pow2_bits_low by lia. reflexivity.
  - assert (Z.testbit lsb n = false) as ->; [|apply andb_false_r].
    destruct (Z.eq_dec lsb 0) as [->|Hnz]; [apply Z.bits_0|].
    apply Z.bits_above_log2; [lia|].
    apply Z.lt_le_trans with 8; [|lia]. apply Z.log2_lt_pow2; lia.
Qed.

Lemma byte_of_word (v k : Z) :
  0 <= k -> Z.land (Z.shiftr v k) 0xFF = (v / 2 ^ k) mod 256.
Proof.
  intros Hk. rewrite Z.shiftr_div_pow2 by lia.
  change 0xFF with (Z.ones 8). rewrite Z.land_ones by lia. reflexivity.
Qed.

(** ** C1: dark-spectrum correction *)

(** C1. With a dark spectrum stored, every corrected sample [i] below
    [PIXEL_COUNT] is [raw[i] - dark[i]] when [raw[i] > dark[i]] and [0]
    otherwise, hence never negative; with none stored, the corrected
    spectrum is the raw spectrum. *)
Theorem C1_dark_correction (s : State) (i : nat) :
  length (pixel_data s) = Z.to_nat PIXEL_COUNT ->
  length (raw_pixel_data s) = Z.to_nat PIXEL_COUNT ->
  length (dark_spectrum_data s) = Z.to_nat PIXEL_COUNT ->
  Forall is_u16 (raw_pixel_data s) ->
  Forall is_u16 (dark_spectrum_data s) ->
  (i < Z.to_nat PIXEL_COUNT)%nat ->
  let raw := raw_pixel_data s in
  let dark := dark_spectrum_data s in
  let corrected := pixel_data (applyDarkSpectrumCorrection s) in
  (darkSpectrumSaved s = true ->
     (rd raw i > rd dark i -> rd corrected i = rd raw i - rd dark i) /\
     (rd raw i <= rd dark i -> rd corrected i = 0) /\
     0 <= rd corrected i) /\
  (darkSpectrumSaved s = false ->
     corrected = raw /\ rd corrected i = rd raw i).
Proof.
  intros Hlp Hlr Hld Hur Hud Hi raw dark corrected.
  assert (Hr : is_u16 (rd raw i)) by (apply rd_Forall; [assumption|unfold raw; lia]).
  assert (Hd : is_u16 (rd dark i)) by (apply rd_Forall; [assumption|unfold dark; lia]).
  unfold is_u16 in Hr, Hd.
  split; intros Hsaved.
  - assert (Hc : rd corrected i = correct_pixel raw dark i).
    { unfold corrected, applyDarkSpectrumCorrection. rewrite Hsaved. cbn.
      apply subtract_dark_rd; assumption. }
    rewrite Hc. unfold correct_pixel, to_u16.
    destruct (Z.gtb_spec (rd raw i) (rd dark i)) as [Hgt|Hle].
    + rewrite Z.mod_small by lia. repeat split; lia.
    + repeat split; lia.
  - assert (Hc : corrected = raw).
    { unfold corrected, applyDarkSpectrumCorrection. rewrite Hsaved. cbn.
      apply memcpy_full; assumption. }
    rewrite Hc. split; reflexivity.
Qed.

Lemma Forall_u16_replicate n v : is_u16 v -> Forall is_u16 (replicate n v).
Proof. intros Hv. apply Forall_replicate. exact Hv. Qed.

(** A raw level of 1000 counts over a stored dark level of 300 counts is
    corrected to 700 counts at pixel 5. *)
Lemma C1_dark_correction_witness :
  let s :=
    set_darkSpectrumSaved true
      (set_dark_spectrum_data (replicate (Z.to_nat PIXEL_COUNT) 300)
         (set_raw_pixel_data (replicate (Z.to_nat PIXEL_COUNT) 1000)
            initial_state)) in
  rd (pixel_data (applyDarkSpectrumCorrection s)) 5 = 700.
Proof.
  intros s.
  assert (H1 : length (pixel_data s) = Z.to_nat PIXEL_COUNT)
    by apply length_replicate.
  assert (H2 : length (raw_pixel_data s) = Z.to_nat PIXEL_COUNT)
    by apply length_replicate.
  assert (H3 : length (dark_spectrum_data s) = Z.to_nat PIXEL_COUNT)
    by apply length_replicate.
  assert (H4 : Forall is_u16 (raw_pixel_data s))
    by (apply Forall_u16_replicate; unfold is_u16; lia).
  assert (H5 : Forall is_u16 (dark_spectrum_data s))
    by (apply Forall_u16_replicate; unfold is_u16; lia).
  assert (H6 : (5 < Z.to_nat PIXEL_COUNT)%nat) by (unfold PIXEL_COUNT; lia).
  destruct (C1_dark_correction s 5 H1 H2 H3 H4 H5 H6) as [Hsaved _].
  destruct (Hsaved eq_refl) as [Hgt _].
  rewrite Hgt; vm_compute; reflexivity.
Defined.

(** ** C2: command frame *)

Lemma build_frame_eq (sh icg : Z) (tx : list Z) :
  length tx = Z.to_nat PACKET_SIZE ->
  build_frame sh icg tx =
    [0x45; 0x52;
     Z.land (Z.shiftr sh 24) 0xFF; Z.land (Z.shiftr sh 16) 0xFF;
     Z.land (Z.shiftr sh 8) 0xFF; Z.land (Z.shiftr sh 0) 0xFF;
     Z.land (Z.shiftr icg 24) 0xFF; Z.land (Z.shiftr icg 16) 0xFF;
     Z.land (Z.shiftr icg 8) 0xFF; Z.land (Z.shiftr icg 0) 0xFF;
     0x01; 0; 1] ++ replicate (Z.to_nat PACKET_SIZE - 13) 0.
Proof.
  intros Hlen. unfold build_frame. rewrite (memset_full _ _ _ Hlen).
  replace (Z.to_nat PACKET_SIZE) with (13 + (Z.to_nat PACKET_SIZE - 13))%nat
    at 1 by (unfold PACKET_SIZE; lia).
  rewrite replicate_add.
  generalize (replicate (Z.to_nat PACKET_SIZE - 13) 0). intros tail.
  reflexivity.
Qed.

Lemma word32_bytes (v : Z) :
  is_u32 v ->
  big_endian [Z.land (Z.shiftr v 24) 0xFF; Z.land (Z.shiftr v 16) 0xFF;
              Z.land (Z.shiftr v 8) 0xFF; Z.land (Z.shiftr v 0) 0xFF] = v.
Proof.
  unfold is_u32. intros Hv.
  rewrite !byte_of_word by lia. unfold big_endian. cbn [foldl].
  change (2 ^ 24) with 16777216. change (2 ^ 16) with 65536.
  change (2 ^ 8) with 256. change (2 ^ 0) with 1. change (2 ^ 32) with 4294967296 in Hv.
  rewrite Z.div_1_r.
  pose proof (Z.div_mod v 256 ltac:(lia)).
  pose proof (Z.div_mod (v / 256) 256 ltac:(lia)).
  pose proof (Z.div_mod (v / 256 / 256) 256 ltac:(lia)).
  rewrite !Z.div_div in * by lia.
  change (256 * 256) with 65536 in *. change (65536 * 256) with 16777216 in *.
  assert (v / 16777216 < 256) by (apply Z.div_lt_upper_bound; lia).
  assert (0 <= v / 16777216) by (apply Z.div_pos; lia).
  rewrite (Z.mod_small (v / 16777216)) by lia. lia.
Qed.

Lemma byte_is_u8 (v k : Z) : 0 <= k -> is_u8 (Z.land (Z.shiftr v k) 0xFF).
Proof.
  intros Hk. rewrite byte_of_word by lia. unfold is_u8.
  change (2 ^ 8) with 256. apply Z.mod_pos_bound. lia.
Qed.

(** C2. [buildCommand] leaves in [tx_buffer] a frame of [PACKET_SIZE]
    bytes: the magic "ER" (0x45, 0x52), [SH_PERIOD] then [ICG_PERIOD] as
    big-endian 32-bit words, the constant mode byte 0x01, the integration
    count as a big-endian 16-bit word, and zeros from byte 13 on; read
    back field by field, the header gives the parameters again. *)
Theorem C2_command_frame (s : State) :
  is_u32 (SH_PERIOD s) -> is_u32 (ICG_PERIOD s) ->
  length (tx_buffer s) = Z.to_nat PACKET_SIZE ->
  let frame := tx_buffer (buildCommand s) in
  length frame = Z.to_nat PACKET_SIZE /\
  Forall is_u8 frame /\
  field frame 0 2 = [0x45; 0x52] /\
  field frame 2 4 =
    [SH_PERIOD s / 2 ^ 24 mod 256; SH_PERIOD s / 2 ^ 16 mod 256;
     SH_PERIOD s / 2 ^ 8 mod 256; SH_PERIOD s / 2 ^ 0 mod 256] /\
  field frame 6 4 =
    [ICG_PERIOD s / 2 ^ 24 mod 256; ICG_PERIOD s / 2 ^ 16 mod 256;
     ICG_PERIOD s / 2 ^ 8 mod 256; ICG_PERIOD s / 2 ^ 0 mod 256] /\
  field frame 10 1 = [0x01] /\
  field frame 11 2 =
    [NUM_INTEGRATIONS / 2 ^ 8 mod 256; NUM_INTEGRATIONS / 2 ^ 0 mod 256] /\
  (forall j : nat,
     (13 <= j < Z.to_nat PACKET_SIZE)%nat -> frame !! j = Some 0) /\
  decode_header frame =
    {| h_magic := [0x45; 0x52];
       h_shPeriod := SH_PERIOD s;
       h_icgPeriod := ICG_PERIOD s;
       h_mode := 0x01;
       h_integrations := NUM_INTEGRATIONS |}.
Proof.
  intros Hsh Hicg Hlen frame.
  assert (Hf : frame = build_frame (SH_PERIOD s) (ICG_PERIOD s) (tx_buffer s))
    by reflexivity.
  rewrite (build_frame_eq _ _ _ Hlen) in Hf.
  set (tail := replicate (Z.to_nat PACKET_SIZE - 13) 0) in Hf.
  assert (Htail : length tail = (Z.to_nat PACKET_SIZE - 13)%nat)
    by apply length_replicate.
  clearbody frame. subst frame.
  split; [|split; [|split; [|split; [|split; [|split; [|split; [|split]]]]]]].
  - rewrite length_app, Htail. cbn [length]. unfold PACKET_SIZE. lia.
  - apply Forall_app. split.
    + repeat (apply Forall_cons; split;
              [first [apply byte_is_u8; lia | unfold is_u8; lia]|]).
      apply Forall_nil_2.
    + apply Forall_replicate. unfold is_u8. lia.
  - reflexivity.
  - unfold field. cbn [app drop take]. rewrite !byte_of_word by lia.
    reflexivity.
  - unfold field. cbn [app drop take]. rewrite !byte_of_word by lia.
    reflexivity.
  - reflexivity.
  - reflexivity.
  - intros j [Hlo Hhi].
    rewrite lookup_app_r by (cbn [length]; lia). cbn [length].
    apply lookup_replicate_2. unfold PACKET_SIZE in *. lia.
  - unfold decode_header, field. cbn [app drop take].
    rewrite (word32_bytes _ Hsh), (word32_bytes _ Hicg). reflexivity.
Qed.

(** The frame built from the parameters [{sh = 40, icg = 32000,
    integrations = 1}] reads back as exactly those values. *)
Lemma C2_command_frame_witness :
  let s := set_SH_PERIOD 40 (set_ICG_PERIOD 32000 initial_state) in
  let h := decode_header (tx_buffer (buildCommand s)) in
  h_magic h = [0x45; 0x52] /\ h_shPeriod h = 40 /\ h_icgPeriod h = 32000 /\
  h_integrations h = 1.
Proof.
  intros s h.
  assert (H1 : is_u32 (SH_PERIOD s)) by (unfold is_u32; cbn; lia).
  assert (H2 : is_u32 (ICG_PERIOD s)) by (unfold is_u32; cbn; lia).
  assert (H3 : length (tx_buffer s) = Z.to_nat PACKET_SIZE) by reflexivity.
  pose proof (C2_command_frame s H1 H2 H3) as H.
  cbv zeta in H. destruct H as (_ & _ & _ & _ & _ & _ & _ & _ & Hdec).
  unfold h. rewrite Hdec. cbn. repeat split; reflexivity.
Defined.

(** ** C3 and C8: response frame *)

Lemma decode_pixel_value (rx : list Z) (i : nat) :
  length rx = Z.to_nat PACKET_SIZE -> Forall is_u8 rx ->
  (i < Z.to_nat PIXEL_COUNT)%nat ->
  decode_pixel rx i =
    to_u16 (ADC_MAX_VALUE
            - little_endian [rd rx (i * 2); rd rx (i * 2 + 1)]).
Proof.
  intros Hlen Hu8 Hi. unfold decode_pixel, little_endian. cbn [foldr].
  assert (H0 : is_u8 (rd rx (i * 2)))
    by (apply rd_Forall; [assumption|unfold PACKET_SIZE, PIXEL_COUNT in *; lia]).
  assert (H1 : is_u8 (rd rx (i * 2 + 1)))
    by (apply rd_Forall; [assumption|unfold PACKET_SIZE, PIXEL_COUNT in *; lia]).
  rewrite (lor_shiftl_8 _ _ H1 H0). f_equal. lia.
Qed.

Lemma little_endian_u16 (b0 b1 : Z) :
  is_u8 b0 -> is_u8 b1 -> is_u16 (little_endian [b0; b1]).
Proof.
  unfold is_u8, is_u16, little_endian. cbn [foldr].
  change (2 ^ 8) with 256. change (2 ^ 16) with 65536. lia.
Qed.

(** C3, as amended. Every decoded sample [i] below [PIXEL_COUNT] is
    [ADC_MAX_VALUE] minus the 16-bit count of the pixel, reduced to 16
    bits, where the pixel's first byte (offset [2 i]) is the low byte of
    the count and its second byte (offset [2 i + 1]) the high byte; for a
    count up to [ADC_MAX_VALUE] this is [ADC_MAX_VALUE - count] itself. *)
Theorem C3_response_decoding (s : State) (i : nat) :
  length (rx_buffer s) = Z.to_nat PACKET_SIZE ->
  Forall is_u8 (rx_buffer s) ->
  length (raw_pixel_data s) = Z.to_nat PIXEL_COUNT ->
  (i < Z.to_nat PIXEL_COUNT)%nat ->
  let byte0 := rd (rx_buffer s) (i * 2) in
  let byte1 := rd (rx_buffer s) (i * 2 + 1) in
  let count := little_endian [byte0; byte1] in
  let sample := rd (raw_pixel_data (processData_Raw s)) i in
  count = byte0 + 256 * byte1 /\
  sample = (ADC_MAX_VALUE - count) mod 2 ^ 16 /\
  (count <= ADC_MAX_VALUE -> sample = ADC_MAX_VALUE - count).
Proof.
  intros Hlen Hu8 Hraw Hi byte0 byte1 count sample.
  assert (Hs : sample = to_u16 (ADC_MAX_VALUE - count)).
  { unfold sample, processData_Raw. cbn.
    rewrite decode_frame_rd by assumption.
    rewrite decode_pixel_value by assumption.
    reflexivity. }
  assert (Hc : is_u16 count).
  { apply little_endian_u16; apply rd_Forall; try assumption;
      unfold PACKET_SIZE, PIXEL_COUNT in *; lia. }
  split; [|split].
  - unfold count, little_endian. cbn [foldr]. lia.
  - exact Hs.
  - intros Hle. rewrite Hs. unfold to_u16, is_u16, ADC_MAX_VALUE in *.
    apply Z.mod_small. change (2 ^ 16) with 65536 in *. lia.
Qed.

(** C8. Every decoded sample is [(ADC_MAX_VALUE - v) mod 2^16], with [v]
    the count assembled low byte first; a count above [ADC_MAX_VALUE]
    decodes to [69631 - v], above [ADC_MAX_VALUE] and not to zero. *)
Theorem C8_decode_wraps (s : State) (i : nat) :
  length (rx_buffer s) = Z.to_nat PACKET_SIZE ->
  Forall is_u8 (rx_buffer s) ->
  length (raw_pixel_data s) = Z.to_nat PIXEL_COUNT ->
  (i < Z.to_nat PIXEL_COUNT)%nat ->
  let v := little_endian [rd (rx_buffer s) (i * 2);
                          rd (rx_buffer s) (i * 2 + 1)] in
  let sample := rd (raw_pixel_data (processData_Raw s)) i in
  0 <= v <= 65535 /\
  sample = (ADC_MAX_VALUE - v) mod 2 ^ 16 /\
  (ADC_MAX_VALUE < v <= 65535 ->
     sample = 69631 - v /\ ADC_MAX_VALUE < sample /\ sample <> 0).
Proof.
  intros Hlen Hu8 Hraw Hi v sample.
  assert (Hs : sample = to_u16 (ADC_MAX_VALUE - v)).
  { unfold sample, processData_Raw. cbn.
    rewrite decode_frame_rd by assumption.
    rewrite decode_pixel_value by assumption.
    reflexivity. }
  assert (Hv : is_u16 v).
  { apply little_endian_u16; apply rd_Forall; try assumption;
      unfold PACKET_SIZE, PIXEL_COUNT in *; lia. }
  unfold is_u16 in Hv. change (2 ^ 16) with 65536 in *.
  split; [lia|]. split; [exact Hs|].
  intros Hgt. unfold ADC_MAX_VALUE in *.
  assert (Hw : sample = 69631 - v).
  { rewrite Hs. unfold to_u16. change (2 ^ 16) with 65536.
    symmetry. apply (Z.mod_unique _ _ (-1)); lia. }
  lia.
Qed.

Lemma frame_with_pixel0_length b0 b1 :
  length (frame_with_pixel0 b0 b1) = Z.to_nat PACKET_SIZE.
Proof.
  unfold frame_with_pixel0, zeros. rewrite !length_insert.
  apply length_replicate.
Qed.

Lemma frame_with_pixel0_u8 b0 b1 :
  is_u8 b0 -> is_u8 b1 -> Forall is_u8 (frame_with_pixel0 b0 b1).
Proof.
  intros H0 H1. unfold frame_with_pixel0, zeros.
  apply Forall_insert; [|exact H0]. apply Forall_insert; [|exact H1].
  apply Forall_replicate. unfold is_u8. lia.
Qed.

Lemma received_rx frame : rx_buffer (received frame) = frame.
Proof. reflexivity. Qed.

Lemma received_raw frame :
  raw_pixel_data (received frame) = zeros PIXEL_COUNT.
Proof. reflexivity. Qed.

Lemma zeros_length n : length (zeros n) = Z.to_nat n.
Proof. apply length_replicate. Qed.

Lemma zeros_u16 n : Forall is_u16 (zeros n).
Proof. apply Forall_replicate. unfold is_u16. lia. Qed.

Lemma zeros_u8 n : Forall is_u8 (zeros n).
Proof. apply Forall_replicate. unfold is_u8. lia. Qed.

Ltac frame_hyps :=
  rewrite ?received_rx, ?received_raw;
  lazymatch goal with
  | |- length (frame_with_pixel0 _ _) = _ => apply frame_with_pixel0_length
  | |- length (zeros _) = _ => apply zeros_length
  | |- Forall is_u8 _ => apply frame_with_pixel0_u8; unfold is_u8; lia
  | |- (_ < _)%nat => unfold PIXEL_COUNT; lia
  end.

(** The bytes 0x34, 0x02 of pixel 0 are the count 0x0234 = 564, decoded to
    4095 - 564 = 3531. *)
Lemma C3_response_decoding_witness :
  rd (raw_pixel_data (processData_Raw (received (frame_with_pixel0 0x34 0x02)))) 0
  = 3531.
Proof.
  pose proof (C3_response_decoding (received (frame_with_pixel0 0x34 0x02)) 0
                ltac:(frame_hyps) ltac:(frame_hyps) ltac:(frame_hyps)
                ltac:(frame_hyps)) as H.
  cbv zeta in H. destruct H as (_ & _ & H).
  rewrite H; vm_compute; [reflexivity | discriminate].
Defined.

(** C3 as stated fails: with the bytes 0x01, 0x00 for pixel 0 the sketch
    decodes the count 1 and stores 4094, where the big-endian reading of
    the same two bytes is the count 256 and would give 3839. *)
Lemma C3_counterexample :
  let s := received (frame_with_pixel0 0x01 0x00) in
  let byte0 := rd (rx_buffer s) 0 in
  let byte1 := rd (rx_buffer s) 1 in
  let sample := rd (raw_pixel_data (processData_Raw s)) 0 in
  sample = 4094 /\
  ADC_MAX_VALUE - big_endian [byte0; byte1] = 3839 /\
  sample <> ADC_MAX_VALUE - big_endian [byte0; byte1].
Proof. vm_compute. repeat split; discriminate. Qed.

(** The bytes 0xFF, 0xFF of pixel 0 are the count 65535, decoded to
    69631 - 65535 = 4096. *)
Lemma C8_decode_wraps_witness :
  rd (raw_pixel_data (processData_Raw (received (frame_with_pixel0 0xFF 0xFF)))) 0
  = 4096.
Proof.
  pose proof (C8_decode_wraps (received (frame_with_pixel0 0xFF 0xFF)) 0
                ltac:(frame_hyps) ltac:(frame_hyps) ltac:(frame_hyps)
                ltac:(frame_hyps)) as H.
  cbv zeta in H. destruct H as (_ & _ & H).
  destruct H as (H & _).
  - vm_compute. split; [reflexivity | discriminate].
  - rewrite H. vm_compute. reflexivity.
Defined.

Lemma build_frame_wf (sh icg : Z) (tx : list Z) :
  length tx = Z.to_nat PACKET_SIZE ->
  length (build_frame sh icg tx) = Z.to_nat PACKET_SIZE /\
  Forall is_u8 (build_frame sh icg tx).
Proof.
  intros Hlen. rewrite (build_frame_eq _ _ _ Hlen). split.
  - rewrite length_app, length_replicate. cbn [length].
    unfold PACKET_SIZE. lia.
  - apply Forall_app. split.
    + repeat (apply Forall_cons; split;
              [first [apply byte_is_u8; lia | unfold is_u8; lia]|]).
      apply Forall_nil_2.
    + apply Forall_replicate. unfold is_u8. lia.
Qed.

(** ** Decoded samples are 16-bit *)

Lemma decode_pixel_u16 rx i : is_u16 (decode_pixel rx i).
Proof. unfold decode_pixel, to_u16, is_u16. apply Z.mod_pos_bound. lia. Qed.

Lemma store_each_Forall (P : Z -> Prop) f n a :
  (forall i, P (f i)) -> Forall P a -> Forall P (store_each f n a).
Proof.
  intros Hf Ha. induction n as [|n IH]; [exact Ha|].
  unfold store_each. rewrite for_loop_S. fold (store_each f n a).
  apply Forall_insert; [exact IH|apply Hf].
Qed.

Lemma decode_frame_u16 rx raw :
  Forall is_u16 raw -> Forall is_u16 (decode_frame rx raw).
Proof.
  intros Hraw. unfold decode_frame.
  apply store_each_Forall; [apply decode_pixel_u16|exact Hraw].
Qed.

(** ** Reasoning about commands

    From here on the array loops are black boxes: the state machine is
    reasoned about through the lemmas above, not by running them. *)

Opaque memcpy decode_frame subtract_dark build_frame zeros.

Ltac destruct_state s :=
  destruct s as [cs rs sh icg xu ppmin ppmax pamin pamax tx rx px raw dark
                   saved ready waiting mm ss sas sxs edit];
  cbn [currentState redrawScreen SH_PERIOD ICG_PERIOD currentXUnit
       plot_pixel_min plot_pixel_max plot_adc_min plot_adc_max tx_buffer
       rx_buffer pixel_data raw_pixel_data dark_spectrum_data
       darkSpectrumSaved dataReady waitingForSingleScan mainMenuSelection
       settingsSelection settingsAcqSelection settingsAxisSelection
       settingsEditMode] in *.

Lemma events_seq p q s :
  events (p ;; q) s = events p s ++ events q (after p s).
Proof.
  unfold events, after, seq_cmd. destruct (p s) as [e1 s1]. cbn.
  destruct (q s1) as [e2 s2]. reflexivity.
Qed.

Lemma after_seq p q s : after (p ;; q) s = after q (after p s).
Proof.
  unfold after, seq_cmd. destruct (p s) as [e1 s1]. cbn.
  destruct (q s1) as [e2 s2]. reflexivity.
Qed.

Lemma events_ite c p q s :
  events (ite c p q) s = if c s then events p s else events q s.
Proof. unfold events, ite. destruct (c s); reflexivity. Qed.

Lemma after_ite c p q s :
  after (ite c p q) s = if c s then after p s else after q s.
Proof. unfold after, ite. destruct (c s); reflexivity. Qed.

Lemma events_when c p s :
  events (when c p) s = if c s then events p s else [].
Proof. unfold when. rewrite events_ite. reflexivity. Qed.

Lemma after_when c p s :
  after (when c p) s = if c s then after p s else s.
Proof. unfold when. rewrite after_ite. reflexivity. Qed.

Lemma events_modify f s : events (modify f) s = [].
Proof. reflexivity. Qed.

Lemma after_modify f s : after (modify f) s = f s.
Proof. reflexivity. Qed.

Lemma events_emit e s : events (emit e) s = [e].
Proof. reflexivity. Qed.

Lemma after_emit e s : after (emit e) s = s.
Proof. reflexivity. Qed.

Lemma events_switch k s :
  events (switch_state k) s = events (k (currentState s)) s.
Proof. reflexivity. Qed.

Lemma after_switch k s :
  after (switch_state k) s = after (k (currentState s)) s.
Proof. reflexivity. Qed.

Section EmitsOnly.
Context (P : Event -> bool).

Lemma emits_skip : emits_only P skip.
Proof. intros s e He. cbn in He. by apply elem_of_nil in He. Qed.

Lemma emits_modify f : emits_only P (modify f).
Proof. intros s e He. cbn in He. by apply elem_of_nil in He. Qed.

Lemma emits_emit e : P e = true -> emits_only P (emit e).
Proof.
  intros HP s e' He. rewrite events_emit in He.
  apply list_elem_of_singleton in He. by subst.
Qed.

Lemma emits_seq p q :
  emits_only P p -> emits_only P q -> emits_only P (p ;; q).
Proof.
  intros Hp Hq s e He. rewrite events_seq in He.
  apply elem_of_app in He as [He|He]; eauto.
Qed.

Lemma emits_ite c p q :
  emits_only P p -> emits_only P q -> emits_only P (ite c p q).
Proof.
  intros Hp Hq s e He. rewrite events_ite in He.
  destruct (c s); eauto.
Qed.

Lemma emits_when c p : emits_only P p -> emits_only P (when c p).
Proof. intros Hp. apply emits_ite; [exact Hp|apply emits_skip]. Qed.

Lemma emits_switch k :
  (forall st, emits_only P (k st)) -> emits_only P (switch_state k).
Proof. intros Hk s e He. exact (Hk _ s e He). Qed.
End EmitsOnly.

Section Preserves.
Context {A : Type} (f : State -> A).

Lemma preserves_skip : preserves f skip.
Proof. intros s. reflexivity. Qed.

Lemma preserves_emit e : preserves f (emit e).
Proof. intros s. reflexivity. Qed.

Lemma preserves_modify g :
  (forall s, f (g s) = f s) -> preserves f (modify g).
Proof. intros Hg s. apply Hg. Qed.

Lemma preserves_seq p q :
  preserves f p -> preserves f q -> preserves f (p ;; q).
Proof. intros Hp Hq s. rewrite after_seq, Hq, Hp. reflexivity. Qed.

Lemma preserves_ite c p q :
  preserves f p -> preserves f q -> preserves f (ite c p q).
Proof.
  intros Hp Hq s. rewrite after_ite. destruct (c s); [apply Hp|apply Hq].
Qed.

Lemma preserves_when c p : preserves f p -> preserves f (when c p).
Proof. intros Hp. apply preserves_ite; [exact Hp|apply preserves_skip]. Qed.

Lemma preserves_switch k :
  (forall st, preserves f (k st)) -> preserves f (switch_state k).
Proof. intros Hk s. apply Hk. Qed.
End Preserves.

Section Maintains.
Context (I : State -> Prop).

Lemma maintains_skip : maintains I skip.
Proof. intros s Hs. exact Hs. Qed.

Lemma maintains_emit e : maintains I (emit e).
Proof. intros s Hs. exact Hs. Qed.

Lemma maintains_modify g :
  (forall s, I s -> I (g s)) -> maintains I (modify g).
Proof. intros Hg s Hs. apply Hg, Hs. Qed.

Lemma maintains_seq p q :
  maintains I p -> maintains I q -> maintains I (p ;; q).
Proof. intros Hp Hq s Hs. rewrite after_seq. apply Hq, Hp, Hs. Qed.

Lemma maintains_ite c p q :
  maintains I p -> maintains I q -> maintains I (ite c p q).
Proof.
  intros Hp Hq s Hs. rewrite after_ite. destruct (c s); [apply Hp|apply Hq];
    exact Hs.
Qed.

Lemma maintains_when c p : maintains I p -> maintains I (when c p).
Proof. intros Hp. apply maintains_ite; [exact Hp|apply maintains_skip]. Qed.

Lemma maintains_switch k :
  (forall st, maintains I (k st)) -> maintains I (switch_state k).
Proof. intros Hk s Hs. apply Hk, Hs. Qed.
End Maintains.

(** The leaves that touch the hardware. *)

Lemma events_requestFirstScan s :
  events requestFirstScan s =
    [Serial_println "Enviando primeiro comando (kick-start)...";
     Spi_writeBytes (tx_buffer s)].
Proof. reflexivity. Qed.

Lemma after_requestFirstScan s : after requestFirstScan s = s.
Proof. reflexivity. Qed.

Lemma events_sendDataViaWiFi up s :
  events (sendDataViaWiFi up) s = wifi_events up (pixel_data s).
Proof. destruct up; reflexivity. Qed.

Lemma after_sendDataViaWiFi up s : after (sendDataViaWiFi up) s = s.
Proof. destruct up; reflexivity. Qed.

Lemma emits_requestFirstScan : emits_only is_navigation_event requestFirstScan.
Proof.
  intros s e He. rewrite events_requestFirstScan in He.
  repeat (apply elem_of_cons in He as [->|He]; [reflexivity|]).
  by apply elem_of_nil in He.
Qed.

Lemma preserves_requestFirstScan {A} (f : State -> A) :
  preserves f requestFirstScan.
Proof. intros s. reflexivity. Qed.

Lemma maintains_requestFirstScan I : maintains I requestFirstScan.
Proof. intros s Hs. exact Hs. Qed.

Ltac emits_with leaf :=
  repeat first
    [ leaf
    | apply emits_requestFirstScan
    | apply emits_skip | apply emits_modify
    | apply emits_emit; reflexivity
    | apply emits_seq | apply emits_ite | apply emits_when
    | apply emits_switch; intros []; cbv beta iota ].

Ltac emits_auto := emits_with fail.

Ltac preserves_with leaf :=
  repeat first
    [ leaf
    | apply preserves_requestFirstScan
    | apply preserves_skip | apply preserves_emit
    | apply preserves_modify; intros ?; reflexivity
    | apply preserves_seq | apply preserves_ite | apply preserves_when
    | apply preserves_switch; intros []; cbv beta iota ].

Ltac preserves_auto := preserves_with fail.

Ltac maintains_with leaf :=
  repeat first
    [ leaf
    | apply maintains_requestFirstScan
    | apply maintains_skip | apply maintains_emit
    | apply maintains_modify; intros ? ?; assumption
    | apply maintains_seq | apply maintains_ite | apply maintains_when
    | apply maintains_switch; intros []; cbv beta iota ].

Ltac maintains_auto := maintains_with fail.

(** ** Navigation *)

Lemma emits_changeState st : emits_only is_navigation_event (changeState st).
Proof. unfold changeState. emits_auto. Qed.

Lemma emits_saveDarkSpectrum : emits_only is_navigation_event saveDarkSpectrum.
Proof. unfold saveDarkSpectrum. emits_auto. Qed.

(** Navigation and mode entry emit console lines, the kick-start write and
    waiting messages only: no bus exchange with a response, nothing to the
    TCP client, no graph. *)
Lemma emits_loop_front inp : emits_only is_navigation_event (loop_front inp).
Proof.
  unfold loop_front, loop_navigation, handleMainMenuInput, handleSettingsInput,
    handleSettingsAcqInput, handleSettingsAxisInput, handleAcquisitionInput.
  emits_with ltac:(first [apply emits_changeState
                         | apply emits_saveDarkSpectrum]).
Qed.

Ltac unfold_handlers :=
  unfold loop_front, loop_navigation, handleMainMenuInput, handleSettingsInput,
    handleSettingsAcqInput, handleSettingsAxisInput, handleAcquisitionInput,
    changeState, saveDarkSpectrum.

Lemma data_path_edit_acq rot s : data_path (edit_acq rot s) = data_path s.
Proof. unfold edit_acq. repeat case_match; reflexivity. Qed.

Lemma data_path_edit_axis rot s : data_path (edit_axis rot s) = data_path s.
Proof. unfold edit_axis. repeat case_match; reflexivity. Qed.

(** Navigation and mode entry leave the spectra, the received frame and
    the data-ready flag alone. *)
Lemma preserves_data_path_front inp : preserves data_path (loop_front inp).
Proof.
  unfold_handlers.
  preserves_with ltac:(first [ apply preserves_modify, data_path_edit_acq
                             | apply preserves_modify, data_path_edit_axis ]).
Qed.

Lemma stored_dark_edit_acq rot s : stored_dark (edit_acq rot s) = stored_dark s.
Proof. unfold edit_acq. repeat case_match; reflexivity. Qed.

Lemma stored_dark_edit_axis rot s :
  stored_dark (edit_axis rot s) = stored_dark s.
Proof. unfold edit_axis. repeat case_match; reflexivity. Qed.

Lemma preserves_stored_dark_changeState st :
  preserves stored_dark (changeState st).
Proof. unfold changeState. preserves_auto. Qed.

Lemma currentState_front_pre inp s :
  currentState
    (after (when (fun _ => client_event inp) (modify (set_redrawScreen true))) s)
  = currentState s.
Proof. rewrite after_when. destruct (client_event inp); reflexivity. Qed.

(** The stored dark spectrum changes in one place only: a long press in
    the dark mode. *)
Lemma stored_dark_front inp s :
  ~ (currentState s = STATE_ACQUISITION_DARK /\ longPress inp = true) ->
  stored_dark (after (loop_front inp) s) = stored_dark s.
Proof.
  intros Hno. unfold loop_front. rewrite after_seq.
  set (s0 := after _ s).
  assert (Hd : stored_dark s0 = stored_dark s).
  { unfold s0. rewrite after_when. destruct (client_event inp); reflexivity. }
  assert (Hc : currentState s0 = currentState s).
  { unfold s0. apply currentState_front_pre. }
  rewrite <- Hd. clearbody s0. rewrite <- Hc in Hno. clear Hd Hc s.
  unfold loop_navigation. rewrite after_switch.
  destruct (currentState s0) eqn:Hst; revert s0 Hno Hst;
    match goal with
    | |- forall s0, _ -> _ -> stored_dark (after ?p s0) = _ =>
        intros s0 Hno Hst; cut (preserves stored_dark p);
          [intros Hp; apply Hp|]
    end.
  1-6: unfold_handlers;
    preserves_with ltac:(first [ apply preserves_modify, stored_dark_edit_acq
                               | apply preserves_modify, stored_dark_edit_axis ]).
  destruct (longPress inp) eqn:Hlp; [exfalso; apply Hno; split; reflexivity|].
  apply preserves_seq.
  - apply preserves_when, preserves_stored_dark_changeState.
  - intros s. rewrite after_when. reflexivity.
Qed.

(** ** Invariant of the spectra *)

Lemma spectra_ok_store_dark s : spectra_ok s -> spectra_ok (store_dark s).
Proof.
  intros (Hp & Hr & Hd & Hur & Hud). unfold spectra_ok, store_dark. cbn.
  rewrite (memcpy_full _ _ _ Hd Hr). auto.
Qed.

Lemma spectra_ok_edit_acq rot s : spectra_ok s -> spectra_ok (edit_acq rot s).
Proof. intros Hok. unfold edit_acq. repeat case_match; exact Hok. Qed.

Lemma spectra_ok_edit_axis rot s : spectra_ok s -> spectra_ok (edit_axis rot s).
Proof. intros Hok. unfold edit_axis. repeat case_match; exact Hok. Qed.

Lemma maintains_spectra_ok_front inp : maintains spectra_ok (loop_front inp).
Proof.
  unfold_handlers.
  maintains_with ltac:(first [ apply maintains_modify, spectra_ok_edit_acq
                             | apply maintains_modify, spectra_ok_edit_axis
                             | apply maintains_modify, spectra_ok_store_dark ]).
Qed.

Lemma saved_edit_acq rot s :
  darkSpectrumSaved (edit_acq rot s) = darkSpectrumSaved s.
Proof. unfold edit_acq. repeat case_match; reflexivity. Qed.

Lemma saved_edit_axis rot s :
  darkSpectrumSaved (edit_axis rot s) = darkSpectrumSaved s.
Proof. unfold edit_axis. repeat case_match; reflexivity. Qed.

(** Once a dark spectrum is stored, navigation never forgets it. *)
Lemma maintains_saved_front inp :
  maintains (fun s => darkSpectrumSaved s = true) (loop_front inp).
Proof.
  unfold_handlers.
  maintains_with ltac:(first
    [ apply maintains_modify; intros s Hs; rewrite saved_edit_acq; exact Hs
    | apply maintains_modify; intros s Hs; rewrite saved_edit_axis; exact Hs
    | apply maintains_modify; intros s Hs; reflexivity ]).
Qed.

(** ** The acquisition part *)

Lemma scan_corrected_spec inp mode s :
  let s1 :=
    applyDarkSpectrumCorrection
      (processData_Raw
         (set_rx_buffer
            (memcpy (rx_buffer s) (spi_frame inp) (Z.to_nat PACKET_SIZE)) s)) in
  scan_corrected inp mode s =
    (Spi_transferBytes (tx_buffer s) (spi_frame inp)
       :: wifi_events (client_up inp) (pixel_data s1)
       ++ [Tft_graph mode (pixel_data s1)],
     s1).
Proof.
  intros s1. unfold scan_corrected, seq_cmd, readDataAndRequestNext, modify,
    drawGraph_GFX. fold s1.
  pose proof (events_sendDataViaWiFi (client_up inp) s1) as He.
  pose proof (after_sendDataViaWiFi (client_up inp) s1) as Ha.
  unfold events, after in He, Ha.
  destruct (sendDataViaWiFi (client_up inp) s1) as [e2 s2]. cbn in He, Ha.
  subst. reflexivity.
Qed.

Lemma scan_raw_spec inp s :
  let s0 :=
    processData_Raw
      (set_rx_buffer
         (memcpy (rx_buffer s) (spi_frame inp) (Z.to_nat PACKET_SIZE)) s) in
  let s1 :=
    set_pixel_data
      (memcpy (pixel_data s0) (raw_pixel_data s0) (Z.to_nat PIXEL_COUNT)) s0 in
  scan_raw inp s =
    ([Spi_transferBytes (tx_buffer s) (spi_frame inp);
      Tft_graph STATE_ACQUISITION_DARK (pixel_data s1)],
     s1).
Proof. reflexivity. Qed.

(** The corrected spectrum of a scan, sample by sample. *)
Lemma applyDarkSpectrumCorrection_saved s i :
  spectra_ok s -> darkSpectrumSaved s = true ->
  (i < Z.to_nat PIXEL_COUNT)%nat ->
  rd (pixel_data (applyDarkSpectrumCorrection s)) i =
    clamped_difference (rd (raw_pixel_data s) i) (rd (dark_spectrum_data s) i).
Proof.
  intros (Hp & Hr & Hd & Hur & Hud) Hsaved Hi.
  unfold applyDarkSpectrumCorrection. rewrite Hsaved. cbn.
  rewrite subtract_dark_rd by assumption.
  unfold correct_pixel, clamped_difference.
  assert (H1 : is_u16 (rd (raw_pixel_data s) i)) by (apply rd_Forall; [assumption|lia]).
  assert (H2 : is_u16 (rd (dark_spectrum_data s) i)) by (apply rd_Forall; [assumption|lia]).
  unfold is_u16 in *.
  destruct (Z.gtb_spec (rd (raw_pixel_data s) i) (rd (dark_spectrum_data s) i));
    [|reflexivity].
  unfold to_u16. apply Z.mod_small. lia.
Qed.

Lemma spectra_ok_processData_Raw s : spectra_ok s -> spectra_ok (processData_Raw s).
Proof.
  intros (Hp & Hr & Hd & Hur & Hud). unfold spectra_ok, processData_Raw. cbn.
  rewrite decode_frame_length. repeat split; try assumption.
  apply decode_frame_u16, Hur.
Qed.

Lemma spectra_ok_set_rx_buffer rx s :
  spectra_ok s -> spectra_ok (set_rx_buffer rx s).
Proof. intros H. exact H. Qed.

Lemma spectra_ok_applyDark s :
  spectra_ok s -> spectra_ok (applyDarkSpectrumCorrection s).
Proof.
  intros (Hp & Hr & Hd & Hur & Hud).
  unfold spectra_ok, applyDarkSpectrumCorrection.
  destruct (darkSpectrumSaved s); cbn.
  - rewrite subtract_dark_length. auto.
  - rewrite (memcpy_full _ _ _ Hp Hr). auto.
Qed.

(** ** The redraw part *)

Lemma loop_redraw_acquisition s :
  is_acquisition (currentState s) = true -> loop_redraw s = ([], s).
Proof.
  intros Hacq. unfold loop_redraw, when, ite. rewrite Hacq.
  rewrite andb_false_r. reflexivity.
Qed.

Lemma loop_redraw_menu s :
  is_acquisition (currentState s) = false ->
  loop_redraw s =
    if redrawScreen s
    then ([Tft_menu (currentState s)], set_redrawScreen false s)
    else ([], s).
Proof.
  intros Hacq. unfold loop_redraw, when, ite. rewrite Hacq, andb_true_r.
  destruct (redrawScreen s); [|reflexivity].
  unfold drawCurrentScreen, seq_cmd, switch_state.
  destruct (currentState s); try discriminate Hacq; reflexivity.
Qed.

Lemma emits_loop_redraw_menu s e :
  is_acquisition (currentState s) = false ->
  e ∈ events loop_redraw s -> is_menu_event e = true.
Proof.
  intros Hacq He. unfold events in He. rewrite (loop_redraw_menu s Hacq) in He.
  destruct (redrawScreen s); cbn in He.
  - apply list_elem_of_singleton in He. subst. reflexivity.
  - by apply elem_of_nil in He.
Qed.

Lemma after_loop_redraw_view {A} (f : State -> A) s :
  (forall v s, f (set_redrawScreen v s) = f s) ->
  is_acquisition (currentState s) = false \/
  is_acquisition (currentState s) = true ->
  f (after loop_redraw s) = f s.
Proof.
  intros Hf [Hacq|Hacq]; unfold after.
  - rewrite (loop_redraw_menu s Hacq). destruct (redrawScreen s); cbn; auto.
  - rewrite (loop_redraw_acquisition s Hacq). reflexivity.
Qed.

(** ** One iteration, in three parts *)

Lemma loop_events inp s :
  let s1 := after (loop_front inp) s in
  let s2 := after (loop_acquisition inp) s1 in
  events (loop inp) s =
    events (loop_front inp) s ++ events (loop_acquisition inp) s1
      ++ events loop_redraw s2.
Proof.
  intros s1 s2. unfold loop, s2, s1, loop_front.
  rewrite !events_seq, !after_seq, <- !app_assoc. reflexivity.
Qed.

Lemma loop_after inp s :
  after (loop inp) s =
    after loop_redraw (after (loop_acquisition inp) (after (loop_front inp) s)).
Proof. unfold loop, loop_front. rewrite !after_seq. reflexivity. Qed.

(** ** C10: the transport sink, mode by mode *)

Lemma front_from_dark inp s :
  currentState s = STATE_ACQUISITION_DARK ->
  currentState (after (loop_front inp) s) = STATE_ACQUISITION_DARK \/
  currentState (after (loop_front inp) s) = STATE_MAIN_MENU.
Proof.
  intros Hst. destruct_state s. subst cs. destruct inp as [rot clk lp cev cup frame].
  unfold after, loop_front, loop_navigation, seq_cmd, when, ite, switch_state.
  cbn.
  destruct cev, clk, lp, (rot =? 0); cbn; auto.
Qed.

Lemma cmd_eta (p : Cmd) s : p s = (events p s, after p s).
Proof. unfold events, after. destruct (p s). reflexivity. Qed.

(** A scan touches the spectra and the received frame, not the mode or
    the flags. *)
Lemma flags_scan_corrected inp mode s :
  let s' := after (scan_corrected inp mode) s in
  currentState s' = currentState s /\
  dataReady s' = dataReady s /\
  waitingForSingleScan s' = waitingForSingleScan s /\
  redrawScreen s' = redrawScreen s /\
  stored_dark s' = stored_dark s.
Proof.
  unfold after. rewrite scan_corrected_spec. cbn [snd].
  unfold applyDarkSpectrumCorrection, stored_dark.
  destruct (darkSpectrumSaved (processData_Raw _)); repeat split; reflexivity.
Qed.

Lemma acquisition_menu inp s :
  is_acquisition (currentState s) = false -> loop_acquisition inp s = ([], s).
Proof.
  intros Hacq. unfold loop_acquisition, switch_state.
  destruct (currentState s); try discriminate Hacq; reflexivity.
Qed.

Lemma acquisition_cont_ready inp s :
  currentState s = STATE_ACQUISITION_CONT -> dataReady s = true ->
  loop_acquisition inp s =
    scan_corrected inp STATE_ACQUISITION_CONT (set_dataReady false s).
Proof.
  intros Hst Hrdy. rewrite (cmd_eta (loop_acquisition inp)), (cmd_eta (scan_corrected _ _)).
  unfold loop_acquisition. rewrite events_switch, after_switch, Hst.
  rewrite events_when, after_when, Hrdy.
  rewrite events_seq, after_seq, events_modify, after_modify. reflexivity.
Qed.

Lemma acquisition_cont_idle inp s :
  currentState s = STATE_ACQUISITION_CONT -> dataReady s = false ->
  loop_acquisition inp s = ([], s).
Proof.
  intros Hst Hrdy. rewrite (cmd_eta (loop_acquisition inp)).
  unfold loop_acquisition. rewrite events_switch, after_switch, Hst.
  rewrite events_when, after_when, Hrdy. reflexivity.
Qed.

Lemma acquisition_single_ready inp s :
  currentState s = STATE_ACQUISITION_SINGLE ->
  dataReady s = true -> waitingForSingleScan s = true ->
  loop_acquisition inp s =
    scan_corrected inp STATE_ACQUISITION_SINGLE
      (set_waitingForSingleScan false (set_dataReady false s)).
Proof.
  intros Hst Hrdy Hw.
  set (s0 := set_waitingForSingleScan false (set_dataReady false s)).
  destruct (flags_scan_corrected inp STATE_ACQUISITION_SINGLE s0)
    as (_ & Hr' & _).
  rewrite (cmd_eta (loop_acquisition inp)), (cmd_eta (scan_corrected _ _)).
  unfold loop_acquisition. rewrite events_switch, after_switch, Hst.
  rewrite events_seq, after_seq, events_ite, after_ite, Hrdy, Hw.
  cbn [andb].
  rewrite !events_seq, !after_seq, !events_modify, !after_modify.
  fold s0. rewrite events_when, after_when, Hr'. cbn [app andb dataReady s0].
  rewrite app_nil_r. reflexivity.
Qed.

Lemma acquisition_single_idle inp s :
  currentState s = STATE_ACQUISITION_SINGLE ->
  dataReady s && waitingForSingleScan s = false ->
  clicked inp && negb (waitingForSingleScan s) = false ->
  events (loop_acquisition inp) s = [] /\
  after (loop_acquisition inp) s =
    if dataReady s && negb (waitingForSingleScan s)
    then set_dataReady false s else s.
Proof.
  intros Hst Hrw Hck.
  unfold loop_acquisition. rewrite events_switch, after_switch, Hst.
  rewrite events_seq, after_seq, events_ite, after_ite, Hrw.
  rewrite !events_when, !after_when, Hck.
  destruct (dataReady s && negb (waitingForSingleScan s)); split; reflexivity.
Qed.

Lemma acquisition_dark_ready inp s :
  currentState s = STATE_ACQUISITION_DARK ->
  dataReady s = true -> waitingForSingleScan s = true ->
  loop_acquisition inp s =
    scan_raw inp (set_waitingForSingleScan false (set_dataReady false s)).
Proof.
  intros Hst Hrdy Hw.
  set (s0 := set_waitingForSingleScan false (set_dataReady false s)).
  rewrite (cmd_eta (loop_acquisition inp)), (cmd_eta (scan_raw _)).
  unfold loop_acquisition. rewrite events_switch, after_switch, Hst.
  rewrite events_seq, after_seq, !events_when, !after_when, Hrdy, Hw.
  cbn [andb].
  rewrite !events_seq, !after_seq, !events_modify, !after_modify.
  fold s0. unfold events, after. rewrite scan_raw_spec. cbn [fst snd app].
  reflexivity.
Qed.

Lemma acquisition_dark_idle inp s :
  currentState s = STATE_ACQUISITION_DARK ->
  dataReady s && waitingForSingleScan s = false ->
  events (loop_acquisition inp) s = [] /\
  after (loop_acquisition inp) s =
    if dataReady s then set_dataReady false s else s.
Proof.
  intros Hst Hrw.
  unfold loop_acquisition. rewrite events_switch, after_switch, Hst.
  rewrite events_seq, after_seq, !events_when, !after_when, Hrw.
  destruct (dataReady s), (waitingForSingleScan s); try discriminate Hrw;
    split; reflexivity.
Qed.

Lemma currentState_acquisition inp s :
  currentState (after (loop_acquisition inp) s) = currentState s.
Proof.
  revert s. change (preserves (fun s => currentState s) (loop_acquisition inp)).
  assert (Hscan : forall mode,
             preserves (fun s => currentState s) (scan_corrected inp mode)).
  { intros mode s. apply flags_scan_corrected. }
  assert (Hraw : preserves (fun s => currentState s) (scan_raw inp)).
  { intros s. unfold after. rewrite scan_raw_spec. reflexivity. }
  unfold loop_acquisition.
  preserves_with ltac:(first [apply Hscan | apply Hraw]).
Qed.

Lemma not_wifi_requestFirstScan :
  emits_only (fun e => negb (is_wifi_event e)) requestFirstScan.
Proof.
  intros s e He. rewrite events_requestFirstScan in He.
  repeat (apply elem_of_cons in He as [->|He]; [reflexivity|]).
  by apply elem_of_nil in He.
Qed.

(** Navigation and mode entry never call [sendDataViaWiFi]. *)
Lemma not_wifi_loop_front inp :
  emits_only (fun e => negb (is_wifi_event e)) (loop_front inp).
Proof.
  unfold_handlers.
  emits_with ltac:(apply not_wifi_requestFirstScan).
Qed.

(** The whole iteration when a scan completes, mode by mode. *)

Lemma loop_scan_corrected inp s mode s0 :
  let s1 := after (loop_front inp) s in
  let s' := after (loop inp) s in
  currentState s1 = mode ->
  is_acquisition mode = true ->
  loop_acquisition inp s1 = scan_corrected inp mode s0 ->
  tx_buffer s0 = tx_buffer s1 ->
  s' = applyDarkSpectrumCorrection
         (processData_Raw
            (set_rx_buffer
               (memcpy (rx_buffer s0) (spi_frame inp) (Z.to_nat PACKET_SIZE))
               s0)) /\
  events (loop inp) s =
    events (loop_front inp) s
      ++ Spi_transferBytes (tx_buffer s1) (spi_frame inp)
         :: wifi_events (client_up inp) (pixel_data s')
      ++ [Tft_graph mode (pixel_data s')].
Proof.
  intros s1 s' Hst Hacq Hscan Htx.
  pose proof (loop_events inp s) as Hev. cbv zeta in Hev. fold s1 in Hev.
  pose proof (loop_after inp s) as Haf. fold s1 s' in Haf.
  pose proof (currentState_acquisition inp s1) as Hcur.
  set (s2 := after (loop_acquisition inp) s1) in *.
  assert (Hred : loop_redraw s2 = ([], s2))
    by (apply loop_redraw_acquisition; rewrite Hcur, Hst; exact Hacq).
  assert (Hs' : s' = s2)
    by (rewrite Haf; unfold after; rewrite Hred; reflexivity).
  assert (Hs2 : s2 = applyDarkSpectrumCorrection
         (processData_Raw
            (set_rx_buffer
               (memcpy (rx_buffer s0) (spi_frame inp) (Z.to_nat PACKET_SIZE))
               s0))).
  { unfold s2, after. rewrite Hscan, scan_corrected_spec. reflexivity. }
  split; [rewrite Hs'; exact Hs2|].
  rewrite Hev. f_equal.
  unfold events at 2. rewrite Hred. cbn [fst]. rewrite app_nil_r.
  rewrite Hs', Hs2. unfold events.
  rewrite Hscan, scan_corrected_spec. cbn [fst]. rewrite Htx.
  reflexivity.
Qed.

Lemma loop_scan_raw inp s :
  let s1 := after (loop_front inp) s in
  let s' := after (loop inp) s in
  currentState s1 = STATE_ACQUISITION_DARK ->
  dataReady s1 = true -> waitingForSingleScan s1 = true ->
  raw_pixel_data s' =
    decode_frame (memcpy (rx_buffer s1) (spi_frame inp) (Z.to_nat PACKET_SIZE))
      (raw_pixel_data s1) /\
  pixel_data s' =
    memcpy (pixel_data s1) (raw_pixel_data s') (Z.to_nat PIXEL_COUNT) /\
  events (loop inp) s =
    events (loop_front inp) s
      ++ [Spi_transferBytes (tx_buffer s1) (spi_frame inp);
          Tft_graph STATE_ACQUISITION_DARK (pixel_data s')].
Proof.
  intros s1 s' Hst Hr Hw.
  pose proof (loop_events inp s) as Hev. cbv zeta in Hev. fold s1 in Hev.
  pose proof (loop_after inp s) as Haf. fold s1 s' in Haf.
  pose proof (currentState_acquisition inp s1) as Hcur.
  set (s2 := after (loop_acquisition inp) s1) in *.
  assert (Hred : loop_redraw s2 = ([], s2))
    by (apply loop_redraw_acquisition; rewrite Hcur, Hst; reflexivity).
  assert (Hs' : s' = s2)
    by (rewrite Haf; unfold after; rewrite Hred; reflexivity).
  assert (Hs2 : s2 = snd (scan_raw inp
            (set_waitingForSingleScan false (set_dataReady false s1)))).
  { unfold s2, after. rewrite (acquisition_dark_ready inp s1 Hst Hr Hw).
    reflexivity. }
  rewrite scan_raw_spec in Hs2. cbn [snd] in Hs2.
  assert (Hacq : events (loop_acquisition inp) s1 =
                 [Spi_transferBytes (tx_buffer s1) (spi_frame inp);
                  Tft_graph STATE_ACQUISITION_DARK (pixel_data s2)]).
  { rewrite Hs2. unfold events.
    rewrite (acquisition_dark_ready inp s1 Hst Hr Hw), scan_raw_spec.
    reflexivity. }
  assert (Hnil : events loop_redraw s2 = [])
    by (unfold events; rewrite Hred; reflexivity).
  rewrite Hev, Hacq, Hnil, app_nil_r, Hs'.
  repeat split; rewrite Hs2; reflexivity.
Qed.

Lemma loop_scan_raw_flags inp s :
  let s1 := after (loop_front inp) s in
  let s' := after (loop inp) s in
  currentState s1 = STATE_ACQUISITION_DARK ->
  dataReady s1 = true -> waitingForSingleScan s1 = true ->
  currentState s' = STATE_ACQUISITION_DARK /\
  dataReady s' = false /\
  waitingForSingleScan s' = false.
Proof.
  intros s1 s' Hst Hr Hw.
  pose proof (loop_after inp s) as Haf. fold s1 s' in Haf.
  pose proof (currentState_acquisition inp s1) as Hcur.
  set (s2 := after (loop_acquisition inp) s1) in *.
  assert (Hred : loop_redraw s2 = ([], s2))
    by (apply loop_redraw_acquisition; rewrite Hcur, Hst; reflexivity).
  assert (Hs' : s' = s2)
    by (rewrite Haf; unfold after; rewrite Hred; reflexivity).
  assert (Hs2 : s2 = snd (scan_raw inp
            (set_waitingForSingleScan false (set_dataReady false s1)))).
  { unfold s2, after. rewrite (acquisition_dark_ready inp s1 Hst Hr Hw).
    reflexivity. }
  rewrite scan_raw_spec in Hs2. cbn [snd] in Hs2.
  clear Haf Hred Hcur. clearbody s' s2 s1. subst s' s2.
  split; [exact Hst|]. split; reflexivity.
Qed.

(** An iteration whose acquisition part has nothing to do emits what its
    navigation emitted, then at most a menu screen. *)
Lemma loop_events_quiet inp s e :
  let s1 := after (loop_front inp) s in
  events (loop_acquisition inp) s1 = [] ->
  e ∈ events (loop inp) s ->
  e ∈ events (loop_front inp) s \/ is_menu_event e = true.
Proof.
  intros s1 Hacq He.
  pose proof (loop_events inp s) as Hev. cbv zeta in Hev. fold s1 in Hev.
  rewrite Hev, Hacq in He. cbn [app] in He.
  apply elem_of_app in He as [He|He]; [left; exact He|right].
  set (s2 := after (loop_acquisition inp) s1) in *.
  destruct (is_acquisition (currentState s2)) eqn:Hs2.
  - unfold events in He. rewrite (loop_redraw_acquisition _ Hs2) in He.
    by apply elem_of_nil in He.
  - exact (emits_loop_redraw_menu _ _ Hs2 He).
Qed.

Lemma loop_scan_cont inp s :
  let s1 := after (loop_front inp) s in
  let s' := after (loop inp) s in
  currentState s1 = STATE_ACQUISITION_CONT -> dataReady s1 = true ->
  s' = applyDarkSpectrumCorrection
         (processData_Raw
            (set_rx_buffer
               (memcpy (rx_buffer s1) (spi_frame inp) (Z.to_nat PACKET_SIZE))
               (set_dataReady false s1))) /\
  events (loop inp) s =
    events (loop_front inp) s
      ++ Spi_transferBytes (tx_buffer s1) (spi_frame inp)
         :: wifi_events (client_up inp) (pixel_data s')
      ++ [Tft_graph STATE_ACQUISITION_CONT (pixel_data s')].
Proof.
  intros s1 s' Hst Hr.
  apply (loop_scan_corrected inp s STATE_ACQUISITION_CONT
           (set_dataReady false s1) Hst eq_refl);
    [apply acquisition_cont_ready; assumption | reflexivity].
Qed.

Lemma loop_scan_single inp s :
  let s1 := after (loop_front inp) s in
  let s' := after (loop inp) s in
  currentState s1 = STATE_ACQUISITION_SINGLE ->
  dataReady s1 = true -> waitingForSingleScan s1 = true ->
  s' = applyDarkSpectrumCorrection
         (processData_Raw
            (set_rx_buffer
               (memcpy (rx_buffer s1) (spi_frame inp) (Z.to_nat PACKET_SIZE))
               (set_waitingForSingleScan false (set_dataReady false s1)))) /\
  events (loop inp) s =
    events (loop_front inp) s
      ++ Spi_transferBytes (tx_buffer s1) (spi_frame inp)
         :: wifi_events (client_up inp) (pixel_data s')
      ++ [Tft_graph STATE_ACQUISITION_SINGLE (pixel_data s')].
Proof.
  intros s1 s' Hst Hr Hw.
  apply (loop_scan_corrected inp s STATE_ACQUISITION_SINGLE
           (set_waitingForSingleScan false (set_dataReady false s1))
           Hst eq_refl);
    [apply acquisition_single_ready; assumption | reflexivity].
Qed.

Lemma published_none e :
  is_navigation_event e = true \/ is_menu_event e = true -> published e = None.
Proof. destruct e; intros [H|H]; try discriminate H; reflexivity. Qed.

(** ** The invariant along a run *)

Lemma maintains_pure (I : State -> Prop) (p : Cmd) :
  (forall s, after p s = s) -> maintains I p.
Proof. intros Hp s Hs. rewrite Hp. exact Hs. Qed.

Lemma after_drawGraph_GFX mode s : after (drawGraph_GFX mode) s = s.
Proof. reflexivity. Qed.

Lemma spectra_ok_scan_corrected inp mode :
  maintains spectra_ok (scan_corrected inp mode).
Proof.
  intros s Hs. unfold after. rewrite scan_corrected_spec. cbn [snd].
  apply spectra_ok_applyDark, spectra_ok_processData_Raw. exact Hs.
Qed.

Lemma spectra_ok_scan_raw inp : maintains spectra_ok (scan_raw inp).
Proof.
  intros s Hs. unfold after. rewrite scan_raw_spec. cbn [snd].
  set (s0 := processData_Raw _).
  assert (H0 : spectra_ok s0) by (apply spectra_ok_processData_Raw; exact Hs).
  destruct H0 as (Hp & Hr & Hd & Hur & Hud). clearbody s0.
  unfold spectra_ok. cbn. rewrite (memcpy_full _ _ _ Hp Hr). auto.
Qed.

Lemma maintains_spectra_ok_loop inp : maintains spectra_ok (loop inp).
Proof.
  intros s Hs. rewrite loop_after.
  assert (Hacq : maintains spectra_ok (loop_acquisition inp)).
  { unfold loop_acquisition.
    maintains_with ltac:(idtac; lazymatch goal with
                         | |- maintains _ (scan_corrected _ _) =>
                             apply spectra_ok_scan_corrected
                         | |- maintains _ (scan_raw _) =>
                             apply spectra_ok_scan_raw
                         end). }
  assert (Hred : maintains spectra_ok loop_redraw).
  { unfold loop_redraw, drawCurrentScreen.
    maintains_with ltac:(idtac; lazymatch goal with
                         | |- maintains _ (modify processData_Raw) =>
                             apply maintains_modify, spectra_ok_processData_Raw
                         | |- maintains _ (modify applyDarkSpectrumCorrection) =>
                             apply maintains_modify, spectra_ok_applyDark
                         | |- maintains _ (drawGraph_GFX _) =>
                             apply maintains_pure, after_drawGraph_GFX
                         end). }
  apply Hred, Hacq, maintains_spectra_ok_front, Hs.
Qed.

Lemma stored_dark_processData_Raw s :
  stored_dark (processData_Raw s) = stored_dark s.
Proof. reflexivity. Qed.

Lemma stored_dark_applyDark s :
  stored_dark (applyDarkSpectrumCorrection s) = stored_dark s.
Proof.
  unfold applyDarkSpectrumCorrection, stored_dark.
  destruct_state s. destruct saved; reflexivity.
Qed.

Lemma preserves_stored_dark_acquisition inp :
  preserves stored_dark (loop_acquisition inp).
Proof.
  assert (Hscan : forall mode, preserves stored_dark (scan_corrected inp mode)).
  { intros mode s. apply flags_scan_corrected. }
  assert (Hraw : preserves stored_dark (scan_raw inp)).
  { intros s. unfold after. rewrite scan_raw_spec. reflexivity. }
  unfold loop_acquisition.
  preserves_with ltac:(first [apply Hscan | apply Hraw]).
Qed.

Lemma preserves_stored_dark_redraw : preserves stored_dark loop_redraw.
Proof.
  unfold loop_redraw, drawCurrentScreen.
  preserves_with ltac:(idtac; lazymatch goal with
                       | |- preserves _ (modify applyDarkSpectrumCorrection) =>
                           apply preserves_modify, stored_dark_applyDark
                       | |- preserves _ (modify processData_Raw) =>
                           apply preserves_modify, stored_dark_processData_Raw
                       | |- preserves _ (drawGraph_GFX _) =>
                           intros s; reflexivity
                       end).
Qed.

(** The stored dark spectrum survives every iteration of [loop] except a
    long press in the dark mode. *)
Lemma stored_dark_loop inp s :
  ~ (currentState s = STATE_ACQUISITION_DARK /\ longPress inp = true) ->
  stored_dark (after (loop inp) s) = stored_dark s.
Proof.
  intros Hno. rewrite loop_after.
  rewrite preserves_stored_dark_redraw, preserves_stored_dark_acquisition.
  apply stored_dark_front, Hno.
Qed.

Lemma saved_loop inp s :
  darkSpectrumSaved s = true -> darkSpectrumSaved (after (loop inp) s) = true.
Proof.
  intros Hs. rewrite loop_after.
  pose proof (preserves_stored_dark_redraw
                (after (loop_acquisition inp) (after (loop_front inp) s))) as H1.
  pose proof (preserves_stored_dark_acquisition inp
                (after (loop_front inp) s)) as H2.
  pose proof (maintains_saved_front inp s Hs) as H3.
  unfold stored_dark in H1, H2. cbn beta in H3. congruence.
Qed.

(** A long press in the dark mode stores the raw spectrum and leaves for
    the menu. *)
Lemma capture_front inp s :
  currentState s = STATE_ACQUISITION_DARK -> longPress inp = true ->
  let s1 := after (loop_front inp) s in
  currentState s1 = STATE_MAIN_MENU /\
  stored_dark s1 =
    (memcpy (dark_spectrum_data s) (raw_pixel_data s) (Z.to_nat PIXEL_COUNT),
     true).
Proof.
  intros Hst Hlp. destruct_state s. subst cs.
  destruct inp as [rot clk lp cev cup frame]. cbn in Hlp. subst lp.
  unfold after, loop_front, loop_navigation, seq_cmd, when, ite, switch_state.
  cbn. destruct cev, clk, (rot =? 0); cbn; split; reflexivity.
Qed.

(** With no client connected nothing is written to the client. *)
Lemma no_client_no_write inp s e :
  client_up inp = false -> e ∈ events (loop inp) s ->
  is_client_write e = false.
Proof.
  intros Hup He.
  pose proof (loop_events inp s) as Hev. cbv zeta in Hev.
  set (s1 := after (loop_front inp) s) in *.
  set (s2 := after (loop_acquisition inp) s1) in *.
  rewrite Hev in He.
  apply elem_of_app in He as [He|He].
  { pose proof (emits_loop_front inp s e He) as Hn.
    destruct e; try discriminate Hn; reflexivity. }
  apply elem_of_app in He as [He|He].
  - assert (Hreq : emits_only (fun e => negb (is_client_write e))
                     requestFirstScan).
    { intros s0 e0 H0. rewrite events_requestFirstScan in H0.
      repeat (apply elem_of_cons in H0 as [->|H0]; [reflexivity|]).
      by apply elem_of_nil in H0. }
    assert (Hacq : emits_only (fun e => negb (is_client_write e))
                     (loop_acquisition inp)).
    { unfold loop_acquisition, scan_corrected, scan_raw. rewrite Hup.
      unfold sendDataViaWiFi. cbv iota.
      emits_with ltac:(idtac; lazymatch goal with
        | |- emits_only _ (readDataAndRequestNext _) =>
            intros s0 e0 H0; unfold events, readDataAndRequestNext in H0;
            cbn in H0; apply list_elem_of_singleton in H0; subst e0;
            reflexivity
        | |- emits_only _ (drawGraph_GFX _) =>
            intros s0 e0 H0; unfold events, drawGraph_GFX in H0;
            cbn in H0; apply list_elem_of_singleton in H0; subst e0;
            reflexivity
        | |- emits_only _ requestFirstScan => exact Hreq
        end). }
    apply negb_true_iff. exact (Hacq s1 e He).
  - destruct (is_acquisition (currentState s2)) eqn:Hs2.
    + unfold events in He. rewrite (loop_redraw_acquisition _ Hs2) in He.
      by apply elem_of_nil in He.
    + pose proof (emits_loop_redraw_menu _ _ Hs2 He) as Hm.
      destruct e; try discriminate Hm; reflexivity.
Qed.

(** C10, as amended. An iteration of [loop] that starts or runs its
    acquisition part in the dark mode calls [sendDataViaWiFi] nowhere,
    and a scan completed there goes from the bus to the display only. In
    the continuous and single modes a completed scan is handed to
    [sendDataViaWiFi] before the same spectrum is drawn:
    [sendDataViaWiFi] writes the start marker and then the spectrum when
    a client is connected, and one console line otherwise. With no
    client connected no iteration writes anything to the client, in any
    mode. *)
Theorem C10_transport_by_mode (s : State) (inp : Inputs) :
  let s1 := after (loop_front inp) s in
  let s' := after (loop inp) s in
  let scan_of mode :=
    events (loop_front inp) s
      ++ Spi_transferBytes (tx_buffer s1) (spi_frame inp)
         :: wifi_events (client_up inp) (pixel_data s')
      ++ [Tft_graph mode (pixel_data s')] in
  (currentState s = STATE_ACQUISITION_DARK \/
   currentState s1 = STATE_ACQUISITION_DARK ->
     forall e, e ∈ events (loop inp) s -> is_wifi_event e = false) /\
  (currentState s1 = STATE_ACQUISITION_DARK ->
   dataReady s1 = true -> waitingForSingleScan s1 = true ->
     events (loop inp) s =
       events (loop_front inp) s
         ++ [Spi_transferBytes (tx_buffer s1) (spi_frame inp);
             Tft_graph STATE_ACQUISITION_DARK (pixel_data s')]) /\
  (currentState s1 = STATE_ACQUISITION_CONT -> dataReady s1 = true ->
     events (loop inp) s = scan_of STATE_ACQUISITION_CONT) /\
  (currentState s1 = STATE_ACQUISITION_SINGLE ->
   dataReady s1 = true -> waitingForSingleScan s1 = true ->
     events (loop inp) s = scan_of STATE_ACQUISITION_SINGLE) /\
  (forall spectrum,
     wifi_events true spectrum =
       [Serial_println "Enviando dados via Wi-Fi (AP)...";
        Client_write_marker PACKET_START_MARKER;
        Client_write_samples spectrum;
        Serial_println "Envio Wi-Fi (AP) completo."] /\
     wifi_events false spectrum =
       [Serial_println "Nenhum cliente conectado, envio ignorado."]) /\
  (client_up inp = false ->
     forall e, e ∈ events (loop inp) s -> is_client_write e = false).
Proof.
  intros s1 s' scan_of.
  split; [|split; [|split; [|split; [|split]]]].
  - intros Hdark e He.
    assert (Hfront : e ∈ events (loop_front inp) s -> is_wifi_event e = false).
    { intros Hin. apply negb_true_iff.
      apply (not_wifi_loop_front inp s e Hin). }
    assert (Hs1 : currentState s1 = STATE_ACQUISITION_DARK \/
                  currentState s1 = STATE_MAIN_MENU).
    { destruct Hdark as [Hd|Hd]; [apply front_from_dark, Hd|left; exact Hd]. }
    destruct Hs1 as [Hs1|Hs1].
    + destruct (dataReady s1 && waitingForSingleScan s1) eqn:Hrw.
      * apply andb_true_iff in Hrw as [Hr Hw].
        destruct (loop_scan_raw inp s Hs1 Hr Hw) as (_ & _ & Hev).
        rewrite Hev in He. apply elem_of_app in He as [He|He]; [auto|].
        repeat (apply elem_of_cons in He as [->|He]; [reflexivity|]).
        by apply elem_of_nil in He.
      * destruct (acquisition_dark_idle inp s1 Hs1 Hrw) as [Hnil _].
        destruct (loop_events_quiet inp s e Hnil He) as [Hin|Hm]; [auto|].
        destruct e; try discriminate Hm; reflexivity.
    + assert (Hnil : events (loop_acquisition inp) s1 = []).
      { unfold events. rewrite acquisition_menu by (rewrite Hs1; reflexivity).
        reflexivity. }
      destruct (loop_events_quiet inp s e Hnil He) as [Hin|Hm]; [auto|].
      destruct e; try discriminate Hm; reflexivity.
  - intros Hst Hr Hw. apply (loop_scan_raw inp s Hst Hr Hw).
  - intros Hst Hr. apply (loop_scan_cont inp s Hst Hr).
  - intros Hst Hr Hw. apply (loop_scan_single inp s Hst Hr Hw).
  - intros spectrum. split; reflexivity.
  - intros Hup e He. exact (no_client_no_write inp s e Hup He).
Qed.

(** ** C5: the dark-capture scenario *)

Lemma published_front inp s e sp :
  e ∈ events (loop_front inp) s -> published e = Some sp -> False.
Proof.
  intros He Hp. rewrite published_none in Hp; [discriminate Hp|].
  left. exact (emits_loop_front inp s e He).
Qed.

Lemma published_quiet inp s e sp :
  events (loop_acquisition inp) (after (loop_front inp) s) = [] ->
  e ∈ events (loop inp) s -> published e = Some sp -> False.
Proof.
  intros Hnil He Hp.
  destruct (loop_events_quiet inp s e Hnil He) as [Hin|Hm].
  - exact (published_front inp s e sp Hin Hp).
  - rewrite published_none in Hp; [discriminate Hp|right; exact Hm].
Qed.

(** The frame of an exchange, as it lands in [rx_buffer]. *)
Lemma received_frame (rx frame : list Z) :
  length rx = Z.to_nat PACKET_SIZE -> length frame = Z.to_nat PACKET_SIZE ->
  memcpy rx frame (Z.to_nat PACKET_SIZE) = frame.
Proof. intros Hrx Hframe. apply memcpy_full; assumption. Qed.

Lemma dark_iteration inp s : spectra_ok s -> raw_in_dark s inp.
Proof.
  intros Hok. unfold raw_in_dark.
  set (s1 := after (loop_front inp) s). set (s' := after (loop inp) s).
  intros Hst.
  assert (Hok1 : spectra_ok s1) by (apply maintains_spectra_ok_front, Hok).
  assert (Hdp : data_path s1 = data_path s)
    by apply preserves_data_path_front.
  unfold data_path in Hdp. injection Hdp as Hpx1 Hraw1 Hrx1 Hrdy1.
  assert (Hscan : dataReady s = true -> waitingForSingleScan s1 = true ->
            events (loop inp) s =
              events (loop_front inp) s
                ++ [Spi_transferBytes (tx_buffer s1) (spi_frame inp);
                    Tft_graph STATE_ACQUISITION_DARK (pixel_data s')] /\
            rx_buffer s' =
              memcpy (rx_buffer s) (spi_frame inp) (Z.to_nat PACKET_SIZE) /\
            pixel_data s' = raw_pixel_data s' /\
            raw_pixel_data s' = decode_frame (rx_buffer s') (raw_pixel_data s)).
  { intros Hr Hw. rewrite <- Hrdy1 in Hr.
    destruct (loop_scan_raw inp s Hst Hr Hw) as (Hraw & Hpx & Hev).
    fold s1 s' in Hraw, Hpx, Hev.
    assert (Hrx : rx_buffer s' =
              memcpy (rx_buffer s1) (spi_frame inp) (Z.to_nat PACKET_SIZE)).
    { unfold s'. rewrite loop_after. fold s1.
      rewrite after_loop_redraw_view;
        [|reflexivity
         |right; rewrite currentState_acquisition, Hst; reflexivity].
      unfold after. rewrite (acquisition_dark_ready inp s1 Hst Hr Hw).
      rewrite scan_raw_spec. reflexivity. }
    split; [exact Hev|]. split; [rewrite Hrx, Hrx1; reflexivity|].
    split.
    - rewrite Hpx. destruct Hok1 as (Hlp & Hlr & _).
      apply memcpy_full; [exact Hlp|].
      rewrite Hraw, decode_frame_length. exact Hlr.
    - rewrite Hraw, Hrx, Hraw1. reflexivity. }
  split.
  - intros Hr Hw. destruct (Hscan Hr Hw) as (Hev & Hrx & Hpx & Hraw).
    split; [exact Hev|]. split; [exact Hrx|]. split.
    { intros Hl1 Hl2. rewrite Hrx. apply received_frame; assumption. }
    split; [exact Hpx|].
    intros i Hi. rewrite Hpx, Hraw.
    apply decode_frame_rd; [exact Hi|]. apply Hok.
  - intros e sp He Hp.
    destruct (dataReady s1 && waitingForSingleScan s1) eqn:Hrw.
    + apply andb_true_iff in Hrw as [Hr Hw]. rewrite Hrdy1 in Hr.
      destruct (Hscan Hr Hw) as (Hev & _).
      rewrite Hev in He. apply elem_of_app in He as [He|He].
      { destruct (published_front inp s e sp He Hp). }
      apply elem_of_cons in He as [->|He]; [discriminate Hp|].
      apply list_elem_of_singleton in He. subst e. cbn in Hp.
      injection Hp as <-. auto.
    + destruct (acquisition_dark_idle inp s1 Hst Hrw) as [Hnil _].
      destruct (published_quiet inp s e sp Hnil He Hp).
Qed.

Lemma cont_iteration inp s :
  spectra_ok s -> darkSpectrumSaved s = true -> corrected_in_cont s inp.
Proof.
  intros Hok Hsaved. unfold corrected_in_cont.
  set (s1 := after (loop_front inp) s). set (s' := after (loop inp) s).
  intros Hst.
  assert (Hok1 : spectra_ok s1) by (apply maintains_spectra_ok_front, Hok).
  assert (Hsaved1 : darkSpectrumSaved s1 = true)
    by (apply (maintains_saved_front inp s), Hsaved).
  assert (Hdp : data_path s1 = data_path s)
    by apply preserves_data_path_front.
  unfold data_path in Hdp. injection Hdp as Hpx1 Hraw1 Hrx1 Hrdy1.
  assert (Hnocap : ~ (currentState s = STATE_ACQUISITION_DARK /\
                      longPress inp = true)).
  { intros [Hd _]. destruct (front_from_dark inp s Hd) as [H|H];
      fold s1 in H; congruence. }
  assert (Hsd : stored_dark s' = stored_dark s)
    by (apply stored_dark_loop, Hnocap).
  assert (Hsd1 : stored_dark s1 = stored_dark s)
    by (apply stored_dark_front, Hnocap).
  pose proof (loop_scan_cont inp s Hst) as Hscan. fold s1 s' in Hscan.
  pose proof (acquisition_cont_idle inp s1 Hst) as Hidle.
  pose proof (fun e sp => published_quiet inp s e sp) as Hquiet. fold s1 in Hquiet.
  pose proof (published_front inp s) as Hfront.
  clearbody s1 s'.
  unfold stored_dark in Hsd, Hsd1.
  injection Hsd as Hd' _. injection Hsd1 as Hd1 _.
  split; [exact Hd'|]. split.
  - intros Hr. rewrite <- Hrdy1 in Hr.
    destruct (Hscan Hr) as (Hs' & Hev). clear Hscan Hidle Hquiet.
    set (s0 := processData_Raw _) in Hs'.
    assert (Hok0 : spectra_ok s0).
    { apply spectra_ok_processData_Raw. exact Hok1. }
    assert (Hsaved0 : darkSpectrumSaved s0 = true) by exact Hsaved1.
    assert (Hdark0 : dark_spectrum_data s0 = dark_spectrum_data s)
      by exact Hd1.
    assert (Hrx0 : rx_buffer s0 =
              memcpy (rx_buffer s) (spi_frame inp) (Z.to_nat PACKET_SIZE))
      by (unfold s0; cbn; rewrite Hrx1; reflexivity).
    assert (Hraw0 : raw_pixel_data s0 =
              decode_frame (rx_buffer s0) (raw_pixel_data s))
      by (unfold s0; cbn; rewrite Hraw1; reflexivity).
    clearbody s0.
    assert (Hraw : raw_pixel_data s' = raw_pixel_data s0).
    { rewrite Hs'. unfold applyDarkSpectrumCorrection.
      rewrite Hsaved0. reflexivity. }
    assert (Hrx : rx_buffer s' = rx_buffer s0).
    { rewrite Hs'. unfold applyDarkSpectrumCorrection.
      rewrite Hsaved0. reflexivity. }
    split; [exact Hev|]. split; [rewrite Hrx; exact Hrx0|]. split.
    { intros Hl1 Hl2. rewrite Hrx, Hrx0. apply received_frame; assumption. }
    intros i Hi.
    assert (Hdec : rd (raw_pixel_data s') i = decode_pixel (rx_buffer s') i).
    { rewrite Hraw, Hrx, Hraw0.
      apply decode_frame_rd; [exact Hi|]. apply Hok. }
    split; [exact Hdec|].
    rewrite <- Hdec, Hraw, <- Hdark0, Hs'.
    apply applyDarkSpectrumCorrection_saved; assumption.
  - intros e sp He Hp.
    destruct (dataReady s1) eqn:Hr.
    + split; [rewrite <- Hrdy1; reflexivity|].
      destruct (Hscan eq_refl) as (_ & Hev).
      rewrite Hev in He. apply elem_of_app in He as [He|He].
      { destruct (Hfront e sp He Hp). }
      apply elem_of_cons in He as [->|He]; [discriminate Hp|].
      apply elem_of_app in He as [He|He].
      * unfold wifi_events in He. destruct (client_up inp).
        -- repeat (apply elem_of_cons in He as [->|He];
                   [first [discriminate Hp | injection Hp as <-; reflexivity]|]).
           apply elem_of_nil in He. contradiction.
        -- apply list_elem_of_singleton in He. subst e. discriminate Hp.
      * apply list_elem_of_singleton in He. subst e.
        injection Hp as <-. reflexivity.
    + assert (Hnil : events (loop_acquisition inp) s1 = []).
      { unfold events. rewrite (Hidle eq_refl). reflexivity. }
      destruct (Hquiet e sp Hnil He Hp).
Qed.

Lemma all_polls_corrected ts : forall s,
  spectra_ok s -> darkSpectrumSaved s = true ->
  all_polls corrected_in_cont ts s.
Proof.
  induction ts as [|t ts IH]; intros s Hok Hsaved; [exact I|].
  cbn [all_polls]. split.
  - destruct t as [|inp]; [exact I|]. apply cont_iteration; assumption.
  - apply IH; destruct t as [|inp]; cbn [tick].
    + exact Hok.
    + apply maintains_spectra_ok_loop, Hok.
    + exact Hsaved.
    + apply saved_loop, Hsaved.
Qed.

(** C5. (1) An iteration in the dark mode that finds the data ready and
    the latch armed completes a scan: it exchanges the bus and draws the
    spectrum decoded from the frame received, sample by sample as
    decoded, whether or not a dark spectrum is stored; an iteration in
    the dark mode publishes nothing else. (2) A long press in the dark
    mode stores the raw spectrum as the dark spectrum and returns to the
    menu. (3) From then on, along any run, every iteration in the
    continuous mode that finds the data ready completes a scan: it
    exchanges the bus and publishes, to the client when one is connected
    and to the display, the spectrum decoded from the frame received
    minus the stored dark spectrum, clamped at zero, sample by sample;
    an iteration in the continuous mode publishes nothing else. (4) No
    iteration changes the stored dark spectrum except another long press
    in the dark mode. *)
Theorem C5_dark_capture_scenario :
  (forall s inp, spectra_ok s -> raw_in_dark s inp) /\
  (forall s inp,
     let s' := after (loop inp) s in
     spectra_ok s ->
     currentState s = STATE_ACQUISITION_DARK -> longPress inp = true ->
     darkSpectrumSaved s' = true /\
     dark_spectrum_data s' = raw_pixel_data s /\
     currentState s' = STATE_MAIN_MENU /\
     spectra_ok s') /\
  (forall ts s,
     spectra_ok s -> darkSpectrumSaved s = true ->
     all_polls corrected_in_cont ts s /\
     darkSpectrumSaved (after (run ts) s) = true) /\
  (forall s inp,
     ~ (currentState s = STATE_ACQUISITION_DARK /\ longPress inp = true) ->
     dark_spectrum_data (after (loop inp) s) = dark_spectrum_data s /\
     darkSpectrumSaved (after (loop inp) s) = darkSpectrumSaved s).
Proof.
  split; [|split; [|split]].
  - intros s inp Hok. exact (dark_iteration inp s Hok).
  - intros s inp s' Hok Hst Hlp.
    destruct (capture_front inp s Hst Hlp) as [Hmenu Hsd].
    set (s1 := after (loop_front inp) s) in *.
    assert (Hacq : loop_acquisition inp s1 = ([], s1))
      by (apply acquisition_menu; rewrite Hmenu; reflexivity).
    assert (Hs' : forall {A} (f : State -> A),
               (forall v s, f (set_redrawScreen v s) = f s) -> f s' = f s1).
    { intros A f Hf. unfold s'. rewrite loop_after. fold s1.
      unfold after at 2. rewrite Hacq. cbn [snd].
      apply after_loop_redraw_view; [exact Hf|].
      left. rewrite Hmenu. reflexivity. }
    pose proof (Hs' _ stored_dark ltac:(reflexivity)) as Hd.
    pose proof (Hs' _ (fun s => currentState s) ltac:(reflexivity)) as Hc.
    cbn beta in Hc. rewrite Hsd in Hd. unfold stored_dark in Hd.
    injection Hd as Hd1 Hd2.
    destruct Hok as (Hlp' & Hlr & Hld & Hur & Hud).
    rewrite (memcpy_full _ _ _ Hld Hlr) in Hd1.
    assert (Hok' : spectra_ok s').
    { apply maintains_spectra_ok_loop. unfold spectra_ok. auto. }
    clearbody s' s1.
    split; [exact Hd2|]. split; [exact Hd1|]. split; [|exact Hok'].
    rewrite Hc. exact Hmenu.
  - intros ts s Hok Hsaved. split; [apply all_polls_corrected; assumption|].
    revert s Hok Hsaved. induction ts as [|t ts IH]; intros s Hok Hsaved.
    + exact Hsaved.
    + cbn [run]. rewrite after_seq. apply IH; destruct t as [|inp]; cbn [tick].
      * exact Hok.
      * apply maintains_spectra_ok_loop, Hok.
      * exact Hsaved.
      * apply saved_loop, Hsaved.
  - intros s inp Hno. pose proof (stored_dark_loop inp s Hno) as H.
    unfold stored_dark in H. injection H as H1 H2. auto.
Qed.

(** ** C6: leaving the single-scan mode *)

Lemma changeState_menu s :
  changeState STATE_MAIN_MENU s =
    ([], set_redrawScreen true (set_currentState STATE_MAIN_MENU s)).
Proof. reflexivity. Qed.

Lemma front_pre_spec inp s :
  when (fun _ => client_event inp) (modify (set_redrawScreen true)) s =
    ([], if client_event inp then set_redrawScreen true s else s).
Proof. unfold when, ite. destruct (client_event inp); reflexivity. Qed.

Lemma events_front_pre inp s :
  events (when (fun _ => client_event inp) (modify (set_redrawScreen true))) s
  = [].
Proof. unfold events. rewrite front_pre_spec. reflexivity. Qed.

Lemma after_front_pre inp s :
  after (when (fun _ => client_event inp) (modify (set_redrawScreen true))) s
  = if client_event inp then set_redrawScreen true s else s.
Proof. unfold after. rewrite front_pre_spec. reflexivity. Qed.

Lemma front_single_stay inp s :
  currentState s = STATE_ACQUISITION_SINGLE -> rotation inp = 0 ->
  loop_front inp s =
    ([], if client_event inp then set_redrawScreen true s else s).
Proof.
  intros Hst Hrot. rewrite (cmd_eta (loop_front inp)).
  unfold loop_front, loop_navigation.
  rewrite events_seq, after_seq, events_switch, after_switch.
  rewrite currentState_front_pre, Hst, events_front_pre, after_front_pre.
  rewrite events_when, after_when, Hrot. reflexivity.
Qed.

Lemma front_single_exit inp s :
  currentState s = STATE_ACQUISITION_SINGLE -> rotation inp <> 0 ->
  loop_front inp s =
    ([Serial_println "Saindo do modo unico (rotacao)..."],
     set_redrawScreen true
       (set_currentState STATE_MAIN_MENU
          (if client_event inp then set_redrawScreen true s else s))).
Proof.
  intros Hst Hrot. rewrite (cmd_eta (loop_front inp)).
  unfold loop_front, loop_navigation.
  rewrite events_seq, after_seq, events_switch, after_switch.
  rewrite currentState_front_pre, Hst, events_front_pre, after_front_pre.
  rewrite events_when, after_when.
  apply Z.eqb_neq in Hrot. rewrite Hrot. cbn [negb app].
  rewrite events_seq, after_seq, events_emit, after_emit.
  unfold events, after. rewrite changeState_menu. reflexivity.
Qed.

(** C6, as amended. In the single-scan mode a rotation leaves for the main
    menu at the top of the iteration whether or not the latch is armed:
    that iteration exchanges nothing on the bus and publishes nothing, and
    leaves the latch and the data-ready flag as they were. Without a
    rotation, an armed latch with data ready completes the scan (exchange,
    send, draw), clears latch and flag and stays in the mode; with the
    latch clear, a click asks for a new scan and arms the latch; otherwise
    the iteration waits. *)
Theorem C6_single_scan_exit (s : State) (inp : Inputs) :
  currentState s = STATE_ACQUISITION_SINGLE ->
  let s' := after (loop inp) s in
  (rotation inp <> 0 ->
     currentState s' = STATE_MAIN_MENU /\
     events (loop inp) s =
       [Serial_println "Saindo do modo unico (rotacao)...";
        Tft_menu STATE_MAIN_MENU] /\
     waitingForSingleScan s' = waitingForSingleScan s /\
     data_path s' = data_path s) /\
  (rotation inp = 0 ->
   dataReady s = true -> waitingForSingleScan s = true ->
     currentState s' = STATE_ACQUISITION_SINGLE /\
     waitingForSingleScan s' = false /\ dataReady s' = false /\
     events (loop inp) s =
       Spi_transferBytes (tx_buffer s) (spi_frame inp)
         :: wifi_events (client_up inp) (pixel_data s')
         ++ [Tft_graph STATE_ACQUISITION_SINGLE (pixel_data s')]) /\
  (rotation inp = 0 ->
   waitingForSingleScan s = false -> clicked inp = true ->
     currentState s' = STATE_ACQUISITION_SINGLE /\
     waitingForSingleScan s' = true /\
     events (loop inp) s =
       [Serial_println "Modo Unico: Pedindo novo scan...";
        Serial_println "Enviando primeiro comando (kick-start)...";
        Spi_writeBytes (tx_buffer s);
        Tft_message "Aguardando nova aquisicao..."]) /\
  (rotation inp = 0 ->
   dataReady s && waitingForSingleScan s = false ->
   clicked inp && negb (waitingForSingleScan s) = false ->
     currentState s' = STATE_ACQUISITION_SINGLE /\
     waitingForSingleScan s' = waitingForSingleScan s /\
     events (loop inp) s = []).
Proof.
  intros Hst s'.
  pose proof (loop_events inp s) as Hev. cbv zeta in Hev.
  pose proof (loop_after inp s) as Haf. fold s' in Haf.
  split; [|split; [|split]].
  - intros Hrot.
    pose proof (front_single_exit inp s Hst Hrot) as Hfront.
    unfold events at 2 3 4, after in Hev. unfold after at 2 3 in Haf.
    rewrite Hfront in Hev, Haf. cbn [fst snd] in Hev, Haf.
    set (s1 := set_redrawScreen true _) in *.
    rewrite (acquisition_menu inp s1 eq_refl) in Hev, Haf.
    cbn [fst snd] in Hev, Haf.
    unfold after in Haf. rewrite (loop_redraw_menu s1 eq_refl) in Hev, Haf.
    cbn in Hev, Haf. subst s1. clearbody s'. subst s'.
    rewrite Hev. destruct (client_event inp); repeat split; reflexivity.
  - intros Hrot Hr Hw.
    pose proof (front_single_stay inp s Hst Hrot) as Hfront.
    set (s1 := if client_event inp then _ else _) in Hfront.
    assert (Haf1 : after (loop_front inp) s = s1)
      by (unfold after; rewrite Hfront; reflexivity).
    assert (Hev1 : events (loop_front inp) s = [])
      by (unfold events; rewrite Hfront; reflexivity).
    pose proof (loop_scan_single inp s) as Hscan. cbv zeta in Hscan.
    fold s' in Hscan. rewrite Haf1, Hev1 in Hscan. cbn [app] in Hscan.
    assert (H1 : currentState s1 = STATE_ACQUISITION_SINGLE /\
                 dataReady s1 = true /\ waitingForSingleScan s1 = true /\
                 tx_buffer s1 = tx_buffer s).
    { unfold s1. destruct (client_event inp); auto. }
    destruct H1 as (Hst1 & Hr1 & Hw1 & Htx).
    destruct (Hscan Hst1 Hr1 Hw1) as (Hs' & Hev').
    clear Hscan Hev Haf Hfront Haf1 Hev1. clearbody s' s1.
    rewrite Hev', Htx. split; [|split; [|split]]; try reflexivity;
      rewrite Hs'; unfold applyDarkSpectrumCorrection, processData_Raw;
      cbn; destruct (darkSpectrumSaved s1); cbn; assumption || reflexivity.
  - intros Hrot Hw Hclk.
    pose proof (front_single_stay inp s Hst Hrot) as Hfront.
    unfold events at 2 3 4, after in Hev. unfold after at 2 3 in Haf.
    rewrite Hfront in Hev, Haf. cbn [fst snd app] in Hev, Haf.
    set (s1 := if client_event inp then _ else _) in *.
    assert (H1 : currentState s1 = STATE_ACQUISITION_SINGLE /\
                 waitingForSingleScan s1 = false /\
                 tx_buffer s1 = tx_buffer s).
    { unfold s1. destruct (client_event inp); auto. }
    destruct H1 as (Hst1 & Hw1 & Htx).
    assert (Hacq : loop_acquisition inp s1 =
              ([Serial_println "Modo Unico: Pedindo novo scan...";
                Serial_println "Enviando primeiro comando (kick-start)...";
                Spi_writeBytes (tx_buffer s1);
                Tft_message "Aguardando nova aquisicao..."],
               set_waitingForSingleScan true s1)).
    { rewrite (cmd_eta (loop_acquisition inp)). unfold loop_acquisition.
      rewrite events_switch, after_switch, Hst1.
      rewrite events_seq, after_seq, events_ite, after_ite, Hw1.
      rewrite andb_false_r, !events_when, !after_when, Hw1, Hclk.
      cbn [andb negb]. rewrite !events_seq, !after_seq.
      rewrite events_requestFirstScan, after_requestFirstScan.
      rewrite !events_emit, !after_emit, !events_modify, !after_modify.
      cbn. rewrite andb_false_r. reflexivity. }
    rewrite Hacq in Hev, Haf. cbn [fst snd] in Hev, Haf.
    unfold after in Haf.
    rewrite loop_redraw_acquisition in Hev, Haf by (cbn; rewrite Hst1; reflexivity).
    cbn [fst snd] in Hev, Haf. rewrite app_nil_r in Hev.
    clearbody s' s1. subst s'. rewrite Hev, Htx.
    split; [exact Hst1|]. split; reflexivity.
  - intros Hrot Hrw Hclk.
    pose proof (front_single_stay inp s Hst Hrot) as Hfront.
    unfold events at 2 3 4, after in Hev. unfold after at 2 3 in Haf.
    rewrite Hfront in Hev, Haf. cbn [fst snd app] in Hev, Haf.
    set (s1 := if client_event inp then _ else _) in *.
    assert (H1 : currentState s1 = STATE_ACQUISITION_SINGLE /\
                 waitingForSingleScan s1 = waitingForSingleScan s /\
                 dataReady s1 = dataReady s).
    { unfold s1. destruct (client_event inp); auto. }
    destruct H1 as (Hst1 & Hw1 & Hr1).
    rewrite <- Hw1 in Hrw, Hclk. rewrite <- Hr1 in Hrw.
    destruct (acquisition_single_idle inp s1 Hst1 Hrw Hclk) as (Hnil & Hafter).
    fold (events (loop_acquisition inp) s1) in Hev.
    fold (after (loop_acquisition inp) s1) in Hev, Haf.
    rewrite Hnil in Hev. rewrite Hafter in Hev, Haf.
    set (s2 := if dataReady s1 && _ then _ else _) in *.
    assert (H2 : currentState s2 = STATE_ACQUISITION_SINGLE /\
                 waitingForSingleScan s2 = waitingForSingleScan s1).
    { unfold s2. destruct (dataReady s1 && _); auto. }
    destruct H2 as (Hst2 & Hw2).
    unfold after in Haf.
    rewrite loop_redraw_acquisition in Hev, Haf by (rewrite Hst2; reflexivity).
    cbn [fst snd app] in Hev, Haf. clearbody s' s2 s1. subst s'.
    rewrite Hev, Hw2, Hw1, Hst2. auto.
Qed.

(** At a state reached from power-up, in the single-scan mode with a
    request in flight, a turn of the encoder leaves for the main menu. *)
Lemma C6_single_scan_exit_witness :
  currentState (after (loop turn_left) in_single_armed) = STATE_MAIN_MENU /\
  events (loop turn_left) in_single_armed =
    [Serial_println "Saindo do modo unico (rotacao)...";
     Tft_menu STATE_MAIN_MENU].
Proof.
  assert (Hst : currentState in_single_armed = STATE_ACQUISITION_SINGLE)
    by (vm_compute; reflexivity).
  destruct (C6_single_scan_exit in_single_armed turn_left Hst) as (H & _).
  destruct H as (Ha & Hb & _); [vm_compute; discriminate|].
  split; assumption.
Defined.

(** C6 as stated fails: with the latch armed and the data ready, the exit
    gesture is obeyed at once. The iteration ends in the main menu without
    a bus exchange and without a graph: the scan in flight is neither
    completed nor displayed. *)
Lemma C6_counterexample :
  let s := in_single_armed in
  currentState s = STATE_ACQUISITION_SINGLE /\
  waitingForSingleScan s = true /\
  dataReady s = true /\
  currentState (after (loop turn_right) s) = STATE_MAIN_MENU /\
  kind_of <$> events (loop turn_right) s = [K_serial; K_menu STATE_MAIN_MENU].
Proof. vm_compute. repeat split; reflexivity. Qed.

(** ** C9: a stale data-ready flag *)

Lemma dataReady_loop_in_menus inp s :
  stays_in_menus s inp -> dataReady (after (loop inp) s) = dataReady s.
Proof.
  unfold stays_in_menus. intros Hm. rewrite loop_after.
  set (s1 := after (loop_front inp) s) in *.
  assert (H1 : dataReady s1 = dataReady s).
  { pose proof (preserves_data_path_front inp s) as H. fold s1 in H.
    unfold data_path in H. injection H as _ _ _ H. exact H. }
  unfold after at 2. rewrite (acquisition_menu inp s1 Hm). cbn [snd].
  rewrite after_loop_redraw_view; [exact H1|reflexivity|left; exact Hm].
Qed.

Lemma front_menu_click inp s st :
  currentState s = STATE_MAIN_MENU ->
  rotation inp = 0 -> clicked inp = true ->
  menu_choice (mainMenuSelection s) = Some st ->
  loop_front inp s =
    changeState st (if client_event inp then set_redrawScreen true s else s).
Proof.
  intros Hst Hrot Hclk Hsel.
  rewrite (cmd_eta (loop_front inp)), (cmd_eta (changeState st)).
  unfold loop_front, loop_navigation.
  rewrite events_seq, after_seq, events_switch, after_switch.
  rewrite currentState_front_pre, Hst, events_front_pre, after_front_pre.
  set (s0 := if client_event inp then _ else _).
  assert (Hsel0 : menu_choice (mainMenuSelection s0) = Some st).
  { unfold s0. destruct (client_event inp); exact Hsel. }
  clearbody s0. unfold handleMainMenuInput.
  rewrite events_seq, after_seq, !events_when, !after_when, Hrot, Hclk.
  cbn [Z.eqb negb app].
  unfold menu_choice in Hsel0.
  rewrite !events_ite, !after_ite, events_when, after_when.
  destruct (mainMenuSelection s0 =? 0); [injection Hsel0 as <-; reflexivity|].
  destruct (mainMenuSelection s0 =? 1); [injection Hsel0 as <-; reflexivity|].
  destruct (mainMenuSelection s0 =? 2); [injection Hsel0 as <-; reflexivity|].
  destruct (mainMenuSelection s0 =? 3); [injection Hsel0 as <-; reflexivity|].
  discriminate Hsel0.
Qed.

Lemma changeState_acquisition st s :
  is_acquisition st = true ->
  let s1 := after (changeState st) s in
  currentState s1 = st /\
  dataReady s1 = dataReady s /\
  (st <> STATE_ACQUISITION_CONT -> waitingForSingleScan s1 = true).
Proof.
  intros Hacq. destruct st; try discriminate Hacq; cbn;
    repeat split; try reflexivity; intros H; congruence.
Qed.

(** C9. (1) The interrupt handler sets [dataReady]. (2) An iteration of
    [loop] whose acquisition part runs in a menu or settings state leaves
    the flag as it found it, so (3) a flag set there stays set along any
    run that stays in those states. (4) When a mode is then entered from
    the main menu, the same iteration takes the stale flag for a finished
    frame: it exchanges the bus straight after the kick-start, clears the
    flag and publishes what it decoded (to the client and the display in
    the continuous and single modes, to the display in the dark mode). *)
Theorem C9_stale_ready_flag :
  (forall s, dataReady (onDataReady s) = true) /\
  (forall s inp,
     stays_in_menus s inp -> dataReady (after (loop inp) s) = dataReady s) /\
  (forall ts s,
     dataReady s = true -> all_polls stays_in_menus ts s ->
     dataReady (after (run ts) s) = true) /\
  (forall s inp mode,
     currentState s = STATE_MAIN_MENU ->
     rotation inp = 0 -> clicked inp = true ->
     menu_choice (mainMenuSelection s) = Some mode ->
     is_acquisition mode = true ->
     dataReady s = true ->
     let s0 := if client_event inp then set_redrawScreen true s else s in
     let s1 := after (changeState mode) s0 in
     let s' := after (loop inp) s in
     currentState s' = mode /\
     dataReady s' = false /\
     events (loop inp) s =
       events (changeState mode) s0
         ++ scan_events mode (tx_buffer s1) (spi_frame inp) (client_up inp)
              (pixel_data s')).
Proof.
  split; [|split; [|split]].
  - intros s. reflexivity.
  - exact (fun s inp => dataReady_loop_in_menus inp s).
  - induction ts as [|t ts IH]; intros s Hset Hall; [exact Hset|].
    cbn [run]. rewrite after_seq. destruct Hall as [Ht Hall].
    apply IH; [|exact Hall]. destruct t as [|inp]; cbn [tick].
    + reflexivity.
    + rewrite dataReady_loop_in_menus; assumption.
  - intros s inp mode Hst Hrot Hclk Hsel Hacq Hrdy s0 s1 s'.
    pose proof (front_menu_click inp s mode Hst Hrot Hclk Hsel) as Hfront.
    fold s0 in Hfront.
    assert (Haf1 : after (loop_front inp) s = s1)
      by (unfold after; rewrite Hfront; reflexivity).
    assert (Hev1 : events (loop_front inp) s = events (changeState mode) s0)
      by (unfold events; rewrite Hfront; reflexivity).
    assert (Hrdy0 : dataReady s0 = true)
      by (unfold s0; destruct (client_event inp); exact Hrdy).
    destruct (changeState_acquisition mode s0 Hacq) as (Hst1 & Hr1 & Hw1).
    fold s1 in Hst1, Hr1, Hw1. rewrite Hrdy0 in Hr1.
    pose proof (loop_scan_cont inp s) as Hcont.
    pose proof (loop_scan_single inp s) as Hsingle.
    pose proof (loop_scan_raw inp s) as Hraw.
    pose proof (loop_scan_raw_flags inp s) as Hflags.
    cbv zeta in Hcont, Hsingle, Hraw, Hflags.
    fold s' in Hcont, Hsingle, Hraw, Hflags.
    rewrite Haf1, Hev1 in Hcont, Hsingle, Hraw. rewrite Haf1 in Hflags.
    clear Hfront Haf1 Hev1. clearbody s' s1.
    destruct mode; try discriminate Hacq; unfold scan_events.
    + destruct (Hcont Hst1 Hr1) as (Hs' & Hev).
      rewrite Hev. split; [|split]; try reflexivity; rewrite Hs';
        unfold applyDarkSpectrumCorrection, processData_Raw; cbn;
        destruct (darkSpectrumSaved s1); cbn; assumption || reflexivity.
    + destruct (Hsingle Hst1 Hr1 (Hw1 ltac:(discriminate))) as (Hs' & Hev).
      rewrite Hev. split; [|split]; try reflexivity; rewrite Hs';
        unfold applyDarkSpectrumCorrection, processData_Raw; cbn;
        destruct (darkSpectrumSaved s1); cbn; assumption || reflexivity.
    + assert (Hw : waitingForSingleScan s1 = true) by (apply Hw1; discriminate).
      destruct (Hraw Hst1 Hr1 Hw) as (_ & _ & Hev).
      destruct (Hflags Hst1 Hr1 Hw) as (Hc' & Hr' & _).
      split; [exact Hc'|]. split; [exact Hr'|exact Hev].
Qed.

(** ** Runs from power-up *)

Lemma spectra_ok_initial : spectra_ok initial_state.
Proof.
  unfold spectra_ok, initial_state. cbn.
  rewrite !zeros_length. repeat split; try reflexivity; apply zeros_u16.
Qed.

Lemma spectra_ok_run ts : forall s,
  spectra_ok s -> spectra_ok (after (run ts) s).
Proof.
  induction ts as [|t ts IH]; intros s Hs; [exact Hs|].
  cbn [run]. rewrite after_seq. apply IH.
  destruct t as [|inp]; cbn [tick];
    [exact Hs | apply maintains_spectra_ok_loop, Hs].
Qed.

(** From power-up. The dark mode is entered and a frame whose pixel 0
    holds the count 0x0234 is clocked in: the graph shows the decoded
    spectrum, 4095 - 0x0234 = 3531 at pixel 0. A long press stores it and
    returns to the menu. The continuous mode is then entered and a frame
    whose pixel 0 holds the count 0 is clocked in: the spectrum written
    to the client and drawn is 4095 - 3531 = 564 at pixel 0. *)
Lemma C5_dark_capture_scenario_witness :
  let shown := after (loop no_gesture) in_dark_armed in
  let stored := after (loop long_press) shown in
  let ready :=
    after (modify onDataReady)
      (after (loop click)
         (after (loop turn_left) (after (loop turn_left) stored))) in
  let sent := after (loop (scan_frame 0 0)) ready in
  (Tft_graph STATE_ACQUISITION_DARK (pixel_data shown)
     ∈ events (loop no_gesture) in_dark_armed /\
   rd (pixel_data shown) 0 = 3531) /\
  (darkSpectrumSaved stored = true /\
   rd (dark_spectrum_data stored) 0 = 3531 /\
   currentState stored = STATE_MAIN_MENU) /\
  (Client_write_samples (pixel_data sent)
     ∈ events (loop (scan_frame 0 0)) ready /\
   Tft_graph STATE_ACQUISITION_CONT (pixel_data sent)
     ∈ events (loop (scan_frame 0 0)) ready /\
   rd (pixel_data sent) 0 = 564).
Proof.
  intros shown stored ready sent.
  destruct C5_dark_capture_scenario as (Hdark & Hcapture & Hcont & _).
  assert (Hok0 : spectra_ok in_dark_armed).
  { apply (spectra_ok_run
             [Poll turn_right; Poll turn_right; Poll click; Irq]).
    apply spectra_ok_initial. }
  assert (Hpix : (0 < Z.to_nat PIXEL_COUNT)%nat)
    by (unfold PIXEL_COUNT; lia).
  (* the scan in the dark mode *)
  assert (Hshown :
    (Tft_graph STATE_ACQUISITION_DARK (pixel_data shown)
       ∈ events (loop no_gesture) in_dark_armed /\
     rd (pixel_data shown) 0 = 3531) /\
    pixel_data shown = raw_pixel_data shown).
  { destruct (Hdark in_dark_armed no_gesture Hok0) as [Hscan _];
      [vm_compute; reflexivity|].
    destruct Hscan as (Hev & _ & Hrx & Hraw & Hpx);
      [vm_compute; reflexivity | vm_compute; reflexivity |].
    fold shown in Hev, Hrx, Hraw, Hpx.
    split; [split|exact Hraw].
    - rewrite Hev. apply elem_of_app. right.
      apply elem_of_cons. right. apply list_elem_of_singleton. reflexivity.
    - rewrite (Hpx 0%nat Hpix), Hrx;
        [vm_compute; reflexivity
        |vm_compute; reflexivity
        |apply frame_with_pixel0_length]. }
  destruct Hshown as [Hshown Hraw].
  (* the capture *)
  assert (Hok1 : spectra_ok shown)
    by (apply maintains_spectra_ok_loop, Hok0).
  assert (Hst1 : currentState shown = STATE_ACQUISITION_DARK)
    by (vm_compute; reflexivity).
  destruct (Hcapture shown long_press Hok1 Hst1 eq_refl)
    as (Hsaved & Hstored & Hmenu & Hok2).
  fold stored in Hsaved, Hstored, Hmenu, Hok2.
  (* the scan in the continuous mode *)
  destruct (Hcont [Poll turn_left; Poll turn_left; Poll click; Irq;
                   Poll (scan_frame 0 0)] stored Hok2 Hsaved) as [Hpolls _].
  cbn [all_polls tick] in Hpolls.
  destruct Hpolls as (_ & _ & _ & _ & Hscan & _).
  fold ready in Hscan.
  destruct Hscan as (_ & Hscan & _); [vm_compute; reflexivity|].
  destruct Hscan as (Hev & _ & Hrx & Hpx); [vm_compute; reflexivity|].
  fold sent in Hev, Hrx, Hpx.
  split; [exact Hshown|]. split.
  { split; [exact Hsaved|]. split; [|exact Hmenu].
    rewrite Hstored, <- Hraw. exact (proj2 Hshown). }
  split; [|split].
  - rewrite Hev. apply elem_of_app. right. apply elem_of_cons. right.
    apply elem_of_app. left. change (client_up (scan_frame 0 0)) with true.
    apply (list_elem_of_lookup_2 _ 2%nat). reflexivity.
  - rewrite Hev. apply elem_of_app. right. apply elem_of_cons. right.
    apply elem_of_app. right. apply list_elem_of_singleton. reflexivity.
  - destruct (Hpx 0%nat Hpix) as [_ Hclamp]. rewrite Hclamp, Hrx;
      [|vm_compute; reflexivity | apply frame_with_pixel0_length].
    assert (Hd : rd (dark_spectrum_data ready) 0 = 3531).
    { vm_compute. reflexivity. }
    rewrite Hd. vm_compute. reflexivity.
Defined.

(** From power-up: the flag raised while the main menu is shown is still
    set two iterations later, and the click that enters the continuous
    mode exchanges the bus and publishes in the same iteration. *)
Lemma C9_stale_ready_flag_witness :
  let s := after (run [Irq; Poll turn_right; Poll turn_left]) initial_state in
  dataReady s = true /\
  dataReady (after (loop click) s) = false /\
  kind_of <$> events (loop click) s =
    [K_serial; K_serial; K_kick_start;
     K_exchange; K_serial; K_marker; K_samples; K_serial;
     K_graph STATE_ACQUISITION_CONT].
Proof.
  intros s.
  destruct C9_stale_ready_flag as (_ & _ & _ & Hentry).
  assert (Hrdy : dataReady s = true) by (vm_compute; reflexivity).
  assert (Hst : currentState s = STATE_MAIN_MENU) by (vm_compute; reflexivity).
  assert (Hsel : menu_choice (mainMenuSelection s)
                 = Some STATE_ACQUISITION_CONT) by (vm_compute; reflexivity).
  destruct (Hentry s click STATE_ACQUISITION_CONT Hst eq_refl eq_refl Hsel
              eq_refl Hrdy) as (_ & Hclr & Hev).
  split; [exact Hrdy|]. split; [exact Hclr|].
  rewrite Hev. vm_compute. reflexivity.
Defined.

(** From power-up, in the continuous mode with a frame ready and a client
    connected: exchange, marker, spectrum, then the graph. *)
Lemma C10_transport_by_mode_witness :
  kind_of <$> events (loop no_gesture) in_cont_ready =
    [K_exchange; K_serial; K_marker; K_samples; K_serial;
     K_graph STATE_ACQUISITION_CONT].
Proof.
  pose proof (C10_transport_by_mode in_cont_ready no_gesture) as H.
  cbv zeta in H. destruct H as (_ & _ & Hcont & _).
  rewrite Hcont; vm_compute; reflexivity.
Defined.

(** C10 as stated fails: in the continuous mode with a frame ready and no
    client connected, the scan is completed (the bus is exchanged and the
    graph drawn) and neither the start marker nor the spectrum is written
    to the client; [sendDataViaWiFi] prints one console line. *)
Lemma C10_counterexample :
  let s := in_cont_ready in
  currentState s = STATE_ACQUISITION_CONT /\
  dataReady s = true /\
  client_up no_client = false /\
  kind_of <$> events (loop no_client) s =
    [K_exchange; K_serial; K_graph STATE_ACQUISITION_CONT] /\
  events (loop no_client) s !! 1%nat =
    Some (Serial_println "Nenhum cliente conectado, envio ignorado.").
Proof. vm_compute. repeat split; reflexivity. Qed.

(** ** C7: the period editor *)

Lemma periods_acquisition inp : preserves periods (loop_acquisition inp).
Proof.
  assert (Hscan : forall mode, preserves periods (scan_corrected inp mode)).
  { intros mode s. unfold after. rewrite scan_corrected_spec. cbn [snd].
    unfold applyDarkSpectrumCorrection.
    destruct (darkSpectrumSaved _); reflexivity. }
  assert (Hraw : preserves periods (scan_raw inp)).
  { intros s. unfold after. rewrite scan_raw_spec. reflexivity. }
  unfold loop_acquisition.
  preserves_with ltac:(first [apply Hscan | apply Hraw]).
Qed.

Lemma periods_redraw : preserves periods loop_redraw.
Proof.
  unfold loop_redraw, drawCurrentScreen.
  preserves_with ltac:(idtac; lazymatch goal with
    | |- preserves _ (modify applyDarkSpectrumCorrection) =>
        apply preserves_modify; intros s;
        unfold applyDarkSpectrumCorrection;
        destruct (darkSpectrumSaved s); reflexivity
    | |- preserves _ (drawGraph_GFX _) => intros s; reflexivity
    end).
Qed.

(** An iteration in the editor of the acquisition settings applies
    [edit_acq] to the periods when the encoder has turned. *)
Lemma periods_loop_editing inp s :
  currentState s = STATE_SETTINGS_ACQ -> settingsEditMode s = true ->
  rotation inp <> 0 ->
  periods (after (loop inp) s) = periods (edit_acq (rotation inp) s).
Proof.
  intros Hst Hedit Hrot. rewrite loop_after.
  rewrite periods_redraw, periods_acquisition.
  unfold loop_front, loop_navigation.
  rewrite after_seq, after_switch, currentState_front_pre, Hst, after_front_pre.
  set (s0 := if client_event inp then _ else _).
  assert (H0 : settingsEditMode s0 = true /\
               periods (edit_acq (rotation inp) s0)
               = periods (edit_acq (rotation inp) s)).
  { unfold s0. destruct (client_event inp); split; auto.
    unfold edit_acq. cbn. repeat case_match; reflexivity. }
  destruct H0 as [Hedit0 Hp0]. rewrite <- Hp0. clearbody s0.
  unfold handleSettingsAcqInput. rewrite after_ite, Hedit0.
  rewrite after_seq, !after_when. apply Z.eqb_neq in Hrot. rewrite Hrot.
  cbn [negb]. rewrite after_seq, !after_modify.
  destruct (clicked inp); [rewrite after_seq, !after_modify|]; reflexivity.
Qed.

(** C7, on the code. The ICG period is clamped as stated: after an edit it
    is at least 32000, and a decrement at 32000 leaves 32000. The SH
    period is at least 40 after an edit, but a decrement at the minimum
    does not leave 40: [40 - 100] wraps in 32 bits to 4294967236, which the
    test [SH_PERIOD < 40] lets through. *)
Theorem C7_sh_period_wraps_at_minimum (s : State) (inp : Inputs) :
  currentState s = STATE_SETTINGS_ACQ -> settingsEditMode s = true ->
  rotation inp = -1 ->
  let s' := after (loop inp) s in
  (settingsAcqSelection s = 0 -> 40 <= SH_PERIOD s') /\
  (settingsAcqSelection s = 1 -> 32000 <= ICG_PERIOD s') /\
  (settingsAcqSelection s = 1 -> ICG_PERIOD s = 32000 ->
     ICG_PERIOD s' = 32000) /\
  (settingsAcqSelection s = 0 -> SH_PERIOD s = 40 ->
     SH_PERIOD s' = 4294967236).
Proof.
  intros Hst Hedit Hrot s'.
  assert (Hp : periods s' = periods (edit_acq (-1) s)).
  { unfold s'. rewrite <- Hrot. apply periods_loop_editing; try assumption.
    rewrite Hrot. discriminate. }
  unfold periods in Hp. injection Hp as Hsh Hicg. rewrite Hsh, Hicg.
  clearbody s'. clear Hsh Hicg s'. unfold edit_acq. cbn [Z.gtb Z.compare].
  split; [|split; [|split]].
  - intros Hsel. rewrite Hsel. cbn [Z.eqb]. cbn [SH_PERIOD set_SH_PERIOD].
    destruct (Z.ltb_spec (to_u32 (SH_PERIOD s + -100)) 40); cbn; lia.
  - intros Hsel. rewrite Hsel. cbn [Z.eqb]. cbn [ICG_PERIOD set_ICG_PERIOD].
    destruct (Z.ltb_spec (to_u32 (ICG_PERIOD s + -100 * 10)) 32000); cbn; lia.
  - intros Hsel Hicg. rewrite Hsel, Hicg. reflexivity.
  - intros Hsel Hsh. rewrite Hsel, Hsh. reflexivity.
Qed.

(** From power-up: 50000 turns to the left bring the SH period from
    5000000 to its minimum, 40; the next turn makes it 4294967236. *)
Lemma C7_sh_period_wraps_at_minimum_witness :
  SH_PERIOD sh_at_minimum = 40 /\
  SH_PERIOD (after (loop turn_left) sh_at_minimum) = 4294967236.
Proof.
  assert (H : currentState sh_at_minimum = STATE_SETTINGS_ACQ /\
              settingsEditMode sh_at_minimum = true /\
              settingsAcqSelection sh_at_minimum = 0 /\
              SH_PERIOD sh_at_minimum = 40)
    by (vm_compute; repeat split; reflexivity).
  destruct H as (Hst & Hedit & Hsel & Hsh).
  destruct (C7_sh_period_wraps_at_minimum sh_at_minimum turn_left Hst Hedit
              eq_refl) as (_ & _ & _ & Hwrap).
  split; [exact Hsh|exact (Hwrap Hsel Hsh)].
Defined.

(** ** Floating-point rounding

    [binary_round] and [binary_round_aux] of the Standard Library shift
    the significand bit by bit and round on the bits shifted out. Here
    they are related to one rounded division, which is monotone, so that
    the order of the results of an operation can be read off the order of
    its exact values. *)

(** *** Rounding to nearest, ties to even, on integers *)

Lemma pow2_pos k : 0 <= k -> 0 < 2 ^ k.
Proof. intros. apply Z.pow_pos_nonneg; lia. Qed.

Lemma pow2_succ k : 0 < k -> 2 ^ k = 2 * 2 ^ (k - 1).
Proof.
  intros Hk. replace k with (Z.succ (k - 1)) at 1 by lia.
  apply Z.pow_succ_r. lia.
Qed.

Lemma pow2_le a b : 0 <= a <= b -> 2 ^ a <= 2 ^ b.
Proof. intros. apply Z.pow_le_mono_r; lia. Qed.

Lemma pow2_lt a b : 0 <= a < b -> 2 ^ a < 2 ^ b.
Proof. intros. apply Z.pow_lt_mono_r; lia. Qed.

Lemma rnd_bounds N D : N / D <= rnd N D <= N / D + 1.
Proof.
  unfold rnd.
  repeat match goal with |- context [if ?b then _ else _] => destruct b end; lia.
Qed.

Lemma rnd_exact q D : 0 < D -> rnd (q * D) D = q.
Proof.
  intros HD. unfold rnd. rewrite Z.div_mul, Z.mod_mul by lia.
  destruct (Z.ltb_spec (2 * 0) D); [reflexivity|lia].
Qed.

(** Rounding is monotone on fractions: [N1 / D1 <= N2 / D2]. *)
Lemma rnd_mono N1 D1 N2 D2 :
  0 < D1 -> 0 < D2 -> N1 * D2 <= N2 * D1 -> rnd N1 D1 <= rnd N2 D2.
Proof.
  intros H1 H2 Hle.
  pose proof (Z.div_mod N1 D1 ltac:(lia)) as E1.
  pose proof (Z.div_mod N2 D2 ltac:(lia)) as E2.
  pose proof (Z.mod_pos_bound N1 D1 H1) as B1.
  pose proof (Z.mod_pos_bound N2 D2 H2) as B2.
  assert (Hq : N1 / D1 <= N2 / D2).
  { apply Z.div_le_lower_bound; [lia|].
    assert (N1 / D1 * D1 <= N1) by lia.
    apply (Z.mul_le_mono_pos_r _ _ D1); [lia|]. nia. }
  destruct (Z.eq_dec (N1 / D1) (N2 / D2)) as [Heq|Hne].
  - assert (Hr : N1 mod D1 * D2 <= N2 mod D2 * D1).
    { rewrite Heq in E1. nia. }
    unfold rnd. rewrite Heq.
    repeat match goal with
           | |- context [?a <? ?b] => destruct (Z.ltb_spec a b)
           end; destruct (Z.even (N2 / D2)); try lia; nia.
  - pose proof (rnd_bounds N1 D1). pose proof (rnd_bounds N2 D2). lia.
Qed.

Lemma rne_mono N1 N2 k : 0 <= k -> N1 <= N2 -> rne N1 k <= rne N2 k.
Proof.
  intros Hk Hle. pose proof (pow2_pos k Hk).
  apply rnd_mono; try lia. nia.
Qed.

Lemma rne_exact q k : 0 <= k -> rne (q * 2 ^ k) k = q.
Proof. intros Hk. apply rnd_exact, pow2_pos, Hk. Qed.

Lemma rne_exact_0 k : 0 <= k -> rne 0 k = 0.
Proof. intros Hk. apply (rne_exact 0 k Hk). Qed.

Lemma rne_0 N : rne N 0 = N.
Proof. rewrite <- (Z.mul_1_r N) at 1. apply (rne_exact N 0). lia. Qed.

Lemma rne_scale N k j : 0 <= k -> 0 <= j -> rne (N * 2 ^ j) (k + j) = rne N k.
Proof.
  intros Hk Hj. unfold rne, rnd.
  pose proof (pow2_pos k Hk). pose proof (pow2_pos j Hj).
  rewrite Z.pow_add_r by lia.
  rewrite Z.div_mul_cancel_r by lia.
  rewrite Z.mul_mod_distr_r by lia.
  repeat match goal with
         | |- context [?a <? ?b] => destruct (Z.ltb_spec a b)
         end; try reflexivity; nia.
Qed.

Lemma rne_nonneg N k : 0 <= k -> 0 <= N -> 0 <= rne N k.
Proof.
  intros Hk HN. pose proof (pow2_pos k Hk).
  pose proof (rnd_bounds N (2 ^ k)). pose proof (Z.div_pos N (2 ^ k)).
  unfold rne. lia.
Qed.

(** A value below a grid point rounds to at most that point. *)
Lemma rne_le_grid N k j : 0 <= k -> N <= j * 2 ^ k -> rne N k <= j.
Proof.
  intros Hk HN. rewrite <- (rne_exact j k Hk). apply rne_mono; assumption.
Qed.

Lemma rne_ge_grid N k j : 0 <= k -> j * 2 ^ k <= N -> j <= rne N k.
Proof.
  intros Hk HN. rewrite <- (rne_exact j k Hk). apply rne_mono; assumption.
Qed.

(** *** Digits *)

Lemma dg_spec V : 0 < V -> 2 ^ (dg V - 1) <= V < 2 ^ dg V.
Proof.
  intros HV. unfold dg. replace (Z.log2 V + 1 - 1) with (Z.log2 V) by lia.
  apply Z.log2_spec. exact HV.
Qed.

Lemma dg_pos V : 0 < dg V.
Proof. unfold dg. pose proof (Z.log2_nonneg V). lia. Qed.

Lemma dg_mono V1 V2 : V1 <= V2 -> dg V1 <= dg V2.
Proof. intros H. unfold dg. pose proof (Z.log2_le_mono V1 V2 H). lia. Qed.

Lemma dg_scale V k : 0 < V -> 0 <= k -> dg (V * 2 ^ k) = dg V + k.
Proof. intros HV Hk. unfold dg. rewrite Z.log2_mul_pow2 by lia. lia. Qed.

Lemma dg_pow2 k : 0 <= k -> dg (2 ^ k) = k + 1.
Proof. intros Hk. unfold dg. rewrite Z.log2_pow2 by lia. reflexivity. Qed.

Lemma dg_unique V d : 0 < d -> 2 ^ (d - 1) <= V < 2 ^ d -> dg V = d.
Proof.
  intros Hd HV. unfold dg.
  rewrite (Z.log2_unique V (d - 1)); [lia|lia|].
  replace (Z.succ (d - 1)) with d by lia. exact HV.
Qed.

Lemma dg_le V d : 0 < d -> V < 2 ^ d -> dg V <= d.
Proof.
  intros Hd HV. destruct (Z.le_gt_cases V 0) as [H0|H0].
  - unfold dg. rewrite Z.log2_nonpos by lia. lia.
  - pose proof (dg_spec V H0) as [Hlo _].
    destruct (Z.le_gt_cases (dg V) d) as [|Hgt]; [assumption|].
    pose proof (pow2_le d (dg V - 1) ltac:(lia)). lia.
Qed.

Lemma Zdigits2_dg (m : positive) : Zdigits2 (Zpos m) = dg (Zpos m).
Proof.
  assert (H : forall p, digits2_pos p = Pos.size p)
    by (induction p; cbn; congruence).
  cbn [Zdigits2]. rewrite H. unfold dg.
  destruct m; cbn [Pos.size Z.log2]; rewrite ?Pos2Z.inj_succ; lia.
Qed.

Lemma digits2_pos_dg (m : positive) : Zpos (digits2_pos m) = dg (Zpos m).
Proof. exact (Zdigits2_dg m). Qed.

(** *** The rounding of SpecFloat in closed form *)

Lemma odd_mod2 a : Z.odd a = (a mod 2 =? 1).
Proof.
  rewrite <- Z.bit0_odd, <- Z.bit0_mod.
  destruct (Z.testbit a 0); reflexivity.
Qed.

Lemma mod_pow2_split N k :
  0 < k ->
  N mod 2 ^ k = N mod 2 ^ (k - 1) + 2 ^ (k - 1) * ((N / 2 ^ (k - 1)) mod 2).
Proof.
  intros Hk. replace (2 ^ k) with (2 ^ (k - 1) * 2).
  - apply Z.rem_mul_r; [|lia]. pose proof (pow2_pos (k - 1)). lia.
  - rewrite (pow2_succ k Hk). lia.
Qed.

Lemma shr_1_spec m r s :
  0 <= m ->
  shr_1 {| shr_m := m; shr_r := r; shr_s := s |} =
    {| shr_m := m / 2; shr_r := Z.odd m; shr_s := r || s |}.
Proof.
  intros Hm. destruct m as [|p|p]; [reflexivity| |lia].
  destruct p as [p|p|]; cbn [shr_1].
  - f_equal. rewrite Pos2Z.inj_xI.
    apply (Z.div_unique _ _ _ 1); lia.
  - f_equal. rewrite Pos2Z.inj_xO.
    apply (Z.div_unique _ _ _ 0); lia.
  - reflexivity.
Qed.

Lemma shr_1_rep N k :
  0 <= N -> 0 <= k -> shr_1 (shr_rep N k) = shr_rep N (k + 1).
Proof.
  intros HN Hk. unfold shr_rep.
  pose proof (pow2_pos k Hk) as Hp.
  rewrite shr_1_spec by (apply Z.div_pos; lia).
  replace (k + 1 - 1) with k by lia.
  assert (H1 : (0 <? k + 1) = true) by (apply Z.ltb_lt; lia).
  rewrite H1. cbn [andb]. f_equal.
  - rewrite Z.div_div by lia. f_equal. rewrite Z.pow_add_r by lia. reflexivity.
  - destruct (Z.ltb_spec 0 k) as [Hpos|Hz]; cbn [andb].
    + rewrite (mod_pow2_split N k Hpos).
      pose proof (pow2_pos (k - 1) ltac:(lia)) as Hp1.
      pose proof (Z.mod_pos_bound N (2 ^ (k - 1)) Hp1) as Hb.
      rewrite odd_mod2.
      destruct (Z.eq_dec ((N / 2 ^ (k - 1)) mod 2) 1) as [E|E].
      * rewrite E. cbn [Z.eqb orb].
        symmetry. apply negb_true_iff, Z.eqb_neq. lia.
      * pose proof (Z.mod_pos_bound (N / 2 ^ (k - 1)) 2 ltac:(lia)).
        assert (E0 : (N / 2 ^ (k - 1)) mod 2 = 0) by lia.
        rewrite E0. cbn [Z.eqb orb].
        rewrite Z.mul_0_r, Z.add_0_r. reflexivity.
    + assert (k = 0) as -> by lia. cbn. rewrite Z.mod_1_r. reflexivity.
Qed.

Lemma iter_shr_1_rep (p : positive) : forall N k,
  0 <= N -> 0 <= k ->
  SpecFloat.iter_pos shr_1 p (shr_rep N k) = shr_rep N (k + Zpos p).
Proof.
  induction p as [p IH|p IH|]; intros N k HN Hk; cbn [SpecFloat.iter_pos].
  - rewrite shr_1_rep, !IH by lia. f_equal. lia.
  - rewrite !IH by lia. f_equal. lia.
  - apply shr_1_rep; assumption.
Qed.

Lemma shr_rep_0 N :
  shr_rep N 0 = {| shr_m := N; shr_r := false; shr_s := false |}.
Proof. unfold shr_rep. cbn. rewrite Z.div_1_r. reflexivity. Qed.

Lemma shr_shr_rep N e n :
  0 <= N -> 0 <= n -> shr (shr_rep N 0) e n = (shr_rep N n, e + n).
Proof.
  intros HN Hn. destruct n as [|p|p]; [| |lia].
  - cbn [shr]. rewrite Z.add_0_r. reflexivity.
  - cbn [shr]. rewrite iter_shr_1_rep by lia. reflexivity.
Qed.

Lemma shr_nonpos mrs e n : n <= 0 -> shr mrs e n = (mrs, e).
Proof. intros Hn. destruct n; [reflexivity|lia|reflexivity]. Qed.

Lemma round_shr_rep N k :
  0 <= N -> 0 <= k ->
  round_nearest_even (shr_m (shr_rep N k)) (loc_of_shr_record (shr_rep N k))
  = rne N k.
Proof.
  intros HN Hk. unfold shr_rep, rne, rnd. cbn [shr_m loc_of_shr_record].
  destruct (Z.ltb_spec 0 k) as [Hpos|Hz]; cbn [andb].
  - pose proof (pow2_pos (k - 1) ltac:(lia)) as Hp1.
    pose proof (pow2_succ k Hpos) as Hpk.
    rewrite (mod_pow2_split N k Hpos).
    pose proof (Z.mod_pos_bound N (2 ^ (k - 1)) Hp1) as Hb.
    pose proof (Z.mod_pos_bound (N / 2 ^ (k - 1)) 2 ltac:(lia)) as Hb2.
    rewrite odd_mod2.
    destruct (Z.eq_dec ((N / 2 ^ (k - 1)) mod 2) 1) as [E|E].
    + rewrite E. cbn [Z.eqb].
      destruct (Z.eqb_spec (N mod 2 ^ (k - 1)) 0) as [E0|E0]; cbn [negb].
      * rewrite E0. cbn [round_nearest_even].
        destruct (Z.ltb_spec (2 * (0 + 2 ^ (k - 1) * 1)) (2 ^ k)); [lia|].
        destruct (Z.ltb_spec (2 ^ k) (2 * (0 + 2 ^ (k - 1) * 1))); [lia|].
        reflexivity.
      * cbn [round_nearest_even].
        destruct (Z.ltb_spec (2 * (N mod 2 ^ (k - 1) + 2 ^ (k - 1) * 1)) (2 ^ k));
          [lia|].
        destruct (Z.ltb_spec (2 ^ k) (2 * (N mod 2 ^ (k - 1) + 2 ^ (k - 1) * 1)));
          [reflexivity|lia].
    + assert (E0 : (N / 2 ^ (k - 1)) mod 2 = 0) by lia.
      rewrite E0. cbn [Z.eqb].
      destruct (Z.ltb_spec (2 * (N mod 2 ^ (k - 1) + 2 ^ (k - 1) * 0)) (2 ^ k));
        [|lia].
      destruct (negb (N mod 2 ^ (k - 1) =? 0)); reflexivity.
  - assert (k = 0) as -> by lia. fold (rnd N (2 ^ 0)). fold (rne N 0).
    rewrite rne_0. cbn. rewrite Z.div_1_r. reflexivity.
Qed.

Lemma iter_xO m (d : positive) : Zpos (Pos.iter xO m d) = Zpos m * 2 ^ Zpos d.
Proof.
  induction d as [|d IH] using Pos.peano_ind.
  - cbn [Pos.iter]. lia.
  - rewrite Pos.iter_succ, Pos2Z.inj_xO, IH, Pos2Z.inj_succ, Z.pow_succ_r by lia.
    lia.
Qed.

Section Rounding.
Variables prec emax : Z.
Hypothesis Hprec : 0 < prec.

Lemma fexp_ge_emin e : emin prec emax <= fexp prec emax e.
Proof. unfold fexp, emin. lia. Qed.

Lemma binary_round_aux_eq s mx ex lx :
  binary_round_aux prec emax s mx ex lx =
  let r1 := shr_fexp prec emax mx ex lx in
  let r2 := shr_fexp prec emax
              (round_nearest_even (shr_m (fst r1)) (loc_of_shr_record (fst r1)))
              (snd r1) loc_Exact in
  pack prec emax s (shr_m (fst r2), snd r2).
Proof.
  unfold binary_round_aux. cbv zeta.
  destruct (shr_fexp prec emax mx ex lx) as [mrs1 e1]. cbn [fst snd].
  destruct (shr_fexp prec emax _ e1 loc_Exact) as [mrs2 e2]. reflexivity.
Qed.

(** The second normalisation of [binary_round_aux]: the rounded
    significand [M], at most [2 ^ prec], at exponent [E]. *)
Lemma shr_fexp_renorm M E :
  0 <= M <= 2 ^ prec -> emin prec emax <= E ->
  let r := shr_fexp prec emax M E loc_Exact in
  (shr_m (fst r), snd r) = renorm prec M E.
Proof.
  intros HM HE. cbv zeta. unfold shr_fexp, renorm.
  cbn [shr_record_of_loc].
  destruct (Z.eqb_spec M (2 ^ prec)) as [->|Hne].
  - pose proof (pow2_pos prec ltac:(lia)) as Hp.
    destruct (2 ^ prec) as [|p|p] eqn:Ep; try lia.
    rewrite Zdigits2_dg, <- Ep, dg_pow2 by lia.
    unfold fexp, emin.
    replace (Z.max (prec + 1 + E - prec) (3 - emax - prec) - E) with 1
      by (unfold emin in HE; lia).
    rewrite <- shr_rep_0, shr_shr_rep by lia.
    cbn [fst snd shr_rep shr_m]. f_equal.
    change (2 ^ 1) with 2. rewrite (pow2_succ prec Hprec).
    rewrite Z.mul_comm, Z.div_mul by lia. reflexivity.
  - rewrite shr_nonpos; [reflexivity|].
    destruct M as [|p|p]; [| |lia].
    + cbn [Zdigits2]. unfold fexp, emin in *. lia.
    + rewrite Zdigits2_dg.
      pose proof (dg_le (Zpos p) prec Hprec ltac:(lia)).
      unfold fexp, emin in *. lia.
Qed.

(** [binary_round_aux] on an exact significand that has to lose
    [fexp prec emax (dg m + e) - e >= 0] bits. *)
Lemma binary_round_aux_exact (m : positive) (e : Z) :
  e <= fexp prec emax (dg (Zpos m) + e) ->
  binary_round_aux prec emax false (Zpos m) e loc_Exact =
  let E := fexp prec emax (dg (Zpos m) + e) in
  pack prec emax false (renorm prec (rne (Zpos m) (E - e)) E).
Proof.
  intros Hshift. cbv zeta. rewrite binary_round_aux_eq. cbv zeta.
  set (E := fexp prec emax (dg (Zpos m) + e)) in *.
  assert (H1 : shr_fexp prec emax (Zpos m) e loc_Exact
               = (shr_rep (Zpos m) (E - e), E)).
  { unfold shr_fexp. cbn [shr_record_of_loc].
    rewrite Zdigits2_dg. fold E.
    rewrite <- shr_rep_0, shr_shr_rep by lia. f_equal. lia. }
  rewrite H1. cbn [fst snd].
  rewrite round_shr_rep by lia.
  f_equal. apply shr_fexp_renorm; [|apply fexp_ge_emin].
  split; [apply rne_nonneg; lia|].
  apply rne_le_grid; [lia|].
  pose proof (dg_spec (Zpos m) ltac:(lia)) as [_ Hhi].
  rewrite <- Z.pow_add_r by lia.
  assert (dg (Zpos m) <= prec + (E - e)) by (unfold E, fexp; lia).
  pose proof (dg_pos (Zpos m)).
  pose proof (pow2_le (dg (Zpos m)) (prec + (E - e)) ltac:(lia)). lia.
Qed.

(** The closed form, in units of [2 ^ B]. *)
Lemma binary_round_aux_round_at B (m : positive) (e : Z) :
  B <= e ->
  e <= fexp prec emax (dg (Zpos m) + e) ->
  binary_round_aux prec emax false (Zpos m) e loc_Exact =
  round_at prec emax B (Zpos m * 2 ^ (e - B)).
Proof.
  intros HB Hshift. rewrite binary_round_aux_exact by assumption.
  cbv zeta. unfold round_at.
  rewrite dg_scale by lia.
  replace (dg (Zpos m) + (e - B) + B) with (dg (Zpos m) + e) by lia.
  set (E := fexp prec emax (dg (Zpos m) + e)) in *.
  replace (E - B) with ((E - e) + (e - B)) by lia.
  rewrite rne_scale by lia. reflexivity.
Qed.

Lemma shl_align_spec m e e' :
  let r := shl_align m e e' in
  snd r = Z.min e e' /\ Zpos (fst r) = Zpos m * 2 ^ (e - Z.min e e').
Proof.
  cbv zeta. unfold shl_align.
  destruct (e' - e) as [|d|d] eqn:Ed; cbn [fst snd].
  - replace (Z.min e e') with e by lia.
    rewrite Z.sub_diag. change (2 ^ 0) with 1. lia.
  - replace (Z.min e e') with e by lia.
    rewrite Z.sub_diag. change (2 ^ 0) with 1. lia.
  - replace (Z.min e e') with e' by lia. split; [reflexivity|].
    rewrite iter_xO. f_equal. f_equal. lia.
Qed.

Lemma binary_round_round_at B (m : positive) (e : Z) :
  B <= e -> B <= emin prec emax ->
  binary_round prec emax false m e =
  round_at prec emax B (Zpos m * 2 ^ (e - B)).
Proof.
  intros HB HBmin. unfold binary_round.
  rewrite digits2_pos_dg.
  set (E := fexp prec emax (dg (Zpos m) + e)).
  pose proof (shl_align_spec m e E) as Hal. cbv zeta in Hal.
  destruct (shl_align m e E) as [mz ez]. cbn [fst snd] in Hal.
  destruct Hal as [-> Hmz].
  pose proof (fexp_ge_emin (dg (Zpos m) + e)) as Hemin. fold E in Hemin.
  assert (Hdg : dg (Zpos mz) + Z.min e E = dg (Zpos m) + e).
  { rewrite Hmz, dg_scale by lia. lia. }
  rewrite (binary_round_aux_round_at B) by (rewrite ?Hdg; fold E; lia).
  f_equal. rewrite Hmz, <- Z.mul_assoc, <- Z.pow_add_r by lia.
  f_equal. f_equal. lia.
Qed.

End Rounding.

(** *** Order and value of the rounded numbers *)

Lemma dg_upper V : 0 <= V -> V < 2 ^ dg V.
Proof.
  intros HV. destruct (Z.eq_dec V 0) as [->|Hne]; [reflexivity|].
  apply dg_spec. lia.
Qed.

Lemma SFleb_finite m1 e1 m2 e2 :
  SFleb (S754_finite false m1 e1) (S754_finite false m2 e2) = true <->
  e1 < e2 \/ (e1 = e2 /\ Zpos m1 <= Zpos m2).
Proof.
  unfold SFleb, SFcompare.
  destruct (Z.compare_spec e1 e2) as [He|He|He].
  - change (Pos.compare_cont Eq m1 m2) with (Pos.compare m1 m2).
    destruct (Pos.compare_spec m1 m2) as [Hm|Hm|Hm]; split; intros H;
      try discriminate; try reflexivity; try (right; split; lia); lia.
  - split; [intros _; left; exact He|reflexivity].
  - split; [discriminate|lia].
Qed.

Section Order.
Variables prec emax : Z.
Hypothesis Hprec : 0 < prec.

Lemma bounded_spec m e :
  bounded prec emax m e = true ->
  Zpos m < 2 ^ prec /\ emin prec emax <= e /\ e <= emax - prec /\
  (e = emin prec emax \/ 2 ^ (prec - 1) <= Zpos m).
Proof.
  unfold bounded, canonical_mantissa. intros H.
  apply andb_true_iff in H as [Hc He].
  apply Z.eqb_eq in Hc. apply Z.leb_le in He.
  rewrite digits2_pos_dg in Hc. unfold fexp in Hc.
  pose proof (dg_spec (Zpos m) ltac:(lia)) as [Hlo Hhi].
  pose proof (dg_pos (Zpos m)) as Hd.
  assert (Hdp : dg (Zpos m) <= prec) by lia.
  split; [|split; [lia|split; [exact He|]]].
  - pose proof (pow2_le (dg (Zpos m)) prec ltac:(lia)). lia.
  - destruct (Z.eq_dec e (emin prec emax)) as [|Hne]; [left; assumption|right].
    assert (dg (Zpos m) = prec) as <- by lia. exact Hlo.
Qed.

Lemma bounded_intro m e :
  Zpos m < 2 ^ prec -> emin prec emax <= e -> e <= emax - prec ->
  (e = emin prec emax \/ 2 ^ (prec - 1) <= Zpos m) ->
  bounded prec emax m e = true.
Proof.
  intros Hhi Hmin Hmax Hn. unfold bounded, canonical_mantissa.
  apply andb_true_iff. split; [|apply Z.leb_le; exact Hmax].
  apply Z.eqb_eq. rewrite digits2_pos_dg. unfold fexp.
  pose proof (dg_le (Zpos m) prec Hprec Hhi) as Hd.
  destruct Hn as [->|Hlo]; [lia|].
  rewrite (dg_unique (Zpos m) prec Hprec) by lia. lia.
Qed.

(** Numbers of the format in different binades are ordered by their
    exponents. *)
Lemma bounded_lt B m1 e1 m2 e2 :
  B <= emin prec emax ->
  bounded prec emax m1 e1 = true -> bounded prec emax m2 e2 = true ->
  e1 < e2 ->
  Zpos m1 * 2 ^ (e1 - B) < Zpos m2 * 2 ^ (e2 - B).
Proof.
  intros HB H1 H2 He.
  apply bounded_spec in H1 as (Hhi1 & Hmin1 & _ & _).
  apply bounded_spec in H2 as (_ & Hmin2 & _ & [->|Hlo2]); [lia|].
  replace (e2 - B) with ((e2 - e1 - 1) + 1 + (e1 - B)) by lia.
  rewrite !Z.pow_add_r by lia. change (2 ^ 1) with 2.
  pose proof (pow2_pos (e2 - e1 - 1) ltac:(lia)) as Hc.
  pose proof (pow2_pos (e1 - B) ltac:(lia)) as Ha.
  rewrite (pow2_succ prec Hprec) in Hhi1.
  assert (Hm : Zpos m1 < Zpos m2 * (2 ^ (e2 - e1 - 1) * 2)) by nia.
  rewrite Z.mul_assoc. apply Z.mul_lt_mono_pos_r; assumption.
Qed.

Lemma bounded_order B m1 e1 m2 e2 :
  B <= emin prec emax ->
  bounded prec emax m1 e1 = true -> bounded prec emax m2 e2 = true ->
  Zpos m1 * 2 ^ (e1 - B) <= Zpos m2 * 2 ^ (e2 - B) <->
  e1 < e2 \/ (e1 = e2 /\ Zpos m1 <= Zpos m2).
Proof.
  intros HB H1 H2.
  pose proof (bounded_spec _ _ H1) as (_ & Hmin1 & _ & _).
  destruct (Z.lt_trichotomy e1 e2) as [Hlt|[->|Hgt]].
  - pose proof (bounded_lt B _ _ _ _ HB H1 H2 Hlt). split; [auto|lia].
  - pose proof (pow2_pos (e2 - B) ltac:(lia)) as Hp. split.
    + intros Hle. right. split; [reflexivity|nia].
    + intros [?|[_ Hle]]; [lia|nia].
  - pose proof (bounded_lt B _ _ _ _ HB H2 H1 Hgt). split; lia.
Qed.

(** On the non-negative numbers of the format, the comparison is the
    order of the values. *)
Lemma SFleb_val B x y :
  B <= emin prec emax ->
  is_nonneg prec emax x = true -> is_nonneg prec emax y = true ->
  SFleb x y = true <-> val B x <= val B y.
Proof.
  intros HB Hx Hy.
  destruct x as [[|]| | |[|] m1 e1]; try discriminate;
    destruct y as [[|]| | |[|] m2 e2]; try discriminate;
    cbn [is_nonneg val] in *.
  - split; [lia|reflexivity].
  - pose proof (bounded_spec _ _ Hy) as (_ & Hmin & _).
    pose proof (pow2_pos (e2 - B) ltac:(lia)).
    split; [nia|reflexivity].
  - pose proof (bounded_spec _ _ Hx) as (_ & Hmin & _).
    pose proof (pow2_pos (e1 - B) ltac:(lia)).
    split; [discriminate|nia].
  - rewrite SFleb_finite. symmetry. apply bounded_order; assumption.
Qed.

Lemma rv_nonneg B V :
  B <= emin prec emax -> 0 <= V -> 0 <= rv prec emax B V.
Proof.
  intros HB HV. unfold rv. cbv zeta.
  pose proof (fexp_ge_emin prec emax (dg V + B)) as Hk.
  apply Z.mul_nonneg_nonneg; [apply rne_nonneg; lia|].
  apply Z.pow_nonneg. lia.
Qed.

Lemma rv_mono B V1 V2 :
  B <= emin prec emax -> 0 <= V1 <= V2 ->
  rv prec emax B V1 <= rv prec emax B V2.
Proof.
  intros HB [H1 H12]. unfold rv. cbv zeta.
  set (k1 := fexp prec emax (dg V1 + B) - B).
  set (k2 := fexp prec emax (dg V2 + B) - B).
  pose proof (dg_mono V1 V2 H12) as Hd.
  assert (Hk1 : 0 <= k1) by (unfold k1, fexp; lia).
  assert (Hk12 : k1 <= k2) by (unfold k1, k2, fexp; lia).
  pose proof (pow2_pos k1 Hk1) as Hp1.
  destruct (Z.eq_dec k1 k2) as [Heq|Hne].
  - rewrite <- Heq.
    pose proof (rne_mono V1 V2 k1 Hk1 H12). nia.
  - assert (Hk2 : k2 = dg V2 - prec) by (unfold k1, k2, fexp in *; lia).
    assert (Hd1 : dg V1 - prec <= k1) by (unfold k1, fexp; lia).
    assert (HV2 : 0 < V2).
    { destruct (Z.eq_dec V2 0) as [E0|]; [|lia].
      assert (V1 = 0) by lia. subst V1 V2. lia. }
    pose proof (dg_spec V2 HV2) as [Hlo2 _].
    pose proof (dg_upper V1 H1) as Hhi1. pose proof (dg_pos V1) as Hdp1.
    assert (Ha : rne V1 k1 <= 2 ^ prec).
    { apply rne_le_grid; [lia|]. rewrite <- Z.pow_add_r by lia.
      pose proof (pow2_le (dg V1) (prec + k1) ltac:(lia)). lia. }
    assert (Hb : 2 ^ (prec - 1) <= rne V2 k2).
    { apply rne_ge_grid; [lia|]. rewrite <- Z.pow_add_r by lia.
      replace (prec - 1 + k2) with (dg V2 - 1) by lia. exact Hlo2. }
    transitivity (2 ^ prec * 2 ^ k1); [nia|].
    transitivity (2 ^ (prec - 1) * 2 ^ k2);
      [|pose proof (pow2_pos k2 ltac:(lia)); nia].
    rewrite <- !Z.pow_add_r by lia. apply pow2_le. lia.
Qed.

Hypothesis Hemax : 2 <= emax.

(** [round_at] below the overflow threshold gives a number of the
    format, whose value is [rv]. *)
Lemma round_at_spec B V :
  B <= emin prec emax -> 0 <= V -> dg V + B < emax ->
  is_nonneg prec emax (round_at prec emax B V) = true /\
  val B (round_at prec emax B V) = rv prec emax B V.
Proof.
  intros HB HV Hov. unfold round_at, rv. cbv zeta.
  set (E := fexp prec emax (dg V + B)).
  assert (HE : emin prec emax <= E) by (unfold E, fexp; lia).
  assert (HEd : dg V + B - prec <= E) by (unfold E, fexp; lia).
  assert (HEmax : E + 1 <= emax - prec) by (unfold E, fexp, emin; lia).
  pose proof (pow2_pos (E - B) ltac:(lia)) as Hk.
  pose proof (pow2_pos prec ltac:(lia)) as Hp.
  pose proof (pow2_pos (prec - 1) ltac:(lia)) as Hp1.
  assert (HM0 : 0 <= rne V (E - B)) by (apply rne_nonneg; lia).
  assert (HM1 : rne V (E - B) <= 2 ^ prec).
  { apply rne_le_grid; [lia|].
    rewrite <- Z.pow_add_r by lia.
    pose proof (dg_upper V HV). pose proof (dg_pos V).
    pose proof (pow2_le (dg V) (prec + (E - B)) ltac:(lia)). lia. }
  unfold renorm.
  destruct (Z.eqb_spec (rne V (E - B)) (2 ^ prec)) as [Heq|Hne].
  - rewrite Heq. unfold pack. cbn [fst snd].
    destruct (2 ^ (prec - 1)) as [|p|p] eqn:Ep; try lia.
    destruct (Z.leb_spec (E + 1) (emax - prec)); [|lia].
    cbn [is_nonneg val]. split.
    + apply bounded_intro; try lia.
      rewrite <- Ep, (pow2_succ prec Hprec). lia.
    + rewrite <- Ep. replace (E + 1 - B) with (1 + (E - B)) by lia.
      rewrite Z.pow_add_r by lia. rewrite (pow2_succ prec Hprec).
      change (2 ^ 1) with 2. lia.
  - unfold pack. cbn [fst snd].
    destruct (rne V (E - B)) as [|p|p] eqn:EM; [split; reflexivity| |lia].
    destruct (Z.leb_spec E (emax - prec)); [|lia].
    cbn [is_nonneg val]. split; [|reflexivity].
    apply bounded_intro; try lia.
    destruct (Z.eq_dec E (emin prec emax)) as [|HEn]; [left; assumption|right].
    assert (HEeq : E = dg V + B - prec) by (unfold E, fexp in *; lia).
    rewrite <- EM. apply rne_ge_grid; [lia|].
    rewrite <- Z.pow_add_r by lia.
    assert (HV0 : 0 < V).
    { destruct (Z.eq_dec V 0) as [->|]; [|lia].
      rewrite rne_exact_0 in EM by lia. discriminate. }
    pose proof (dg_spec V HV0) as [Hlo _].
    replace (prec - 1 + (E - B)) with (dg V - 1) by lia. exact Hlo.
Qed.

End Order.

(** *** Division: the location of a remainder *)

Lemma round_new_location N D :
  0 < D ->
  round_nearest_even (N / D) (new_location D (N mod D)) = rnd N D.
Proof.
  intros HD. pose proof (Z.mod_pos_bound N D HD) as Hr.
  unfold new_location, rnd.
  destruct (Z.even D) eqn:Hev.
  - unfold new_location_even.
    destruct (Z.eqb_spec (N mod D) 0) as [E0|E0].
    + rewrite E0. cbn [round_nearest_even].
      destruct (Z.ltb_spec (2 * 0) D); [reflexivity|lia].
    + destruct (Z.compare_spec (2 * (N mod D)) D); cbn [round_nearest_even];
        destruct (Z.ltb_spec (2 * (N mod D)) D); try lia;
        destruct (Z.ltb_spec D (2 * (N mod D))); try lia; reflexivity.
  - assert (Hodd : Z.odd D = true) by (rewrite <- Z.negb_even, Hev; reflexivity).
    apply Z.odd_spec in Hodd as [d Hd].
    unfold new_location_odd.
    destruct (Z.eqb_spec (N mod D) 0) as [E0|E0].
    + rewrite E0. cbn [round_nearest_even].
      destruct (Z.ltb_spec (2 * 0) D); [reflexivity|lia].
    + destruct (Z.compare_spec (2 * (N mod D) + 1) D); cbn [round_nearest_even];
        destruct (Z.ltb_spec (2 * (N mod D)) D); try lia;
        destruct (Z.ltb_spec D (2 * (N mod D))); try lia; reflexivity.
Qed.

Lemma loc_of_shr_record_of_loc q l :
  loc_of_shr_record (shr_record_of_loc q l) = l /\
  shr_m (shr_record_of_loc q l) = q.
Proof. destruct l as [|[| |]]; split; reflexivity. Qed.

Section Normal.
Variables prec emax : Z.
Hypothesis Hprec : 0 < prec.

(** [binary_round_aux] on a significand that already has the width of
    the format. *)
Lemma binary_round_aux_noshift (q : positive) e l :
  fexp prec emax (dg (Zpos q) + e) = e ->
  0 <= round_nearest_even (Zpos q) l <= 2 ^ prec ->
  binary_round_aux prec emax false (Zpos q) e l =
  pack prec emax false (renorm prec (round_nearest_even (Zpos q) l) e).
Proof.
  intros Hfe HM. rewrite binary_round_aux_eq. cbv zeta.
  assert (H1 : shr_fexp prec emax (Zpos q) e l
               = (shr_record_of_loc (Zpos q) l, e)).
  { unfold shr_fexp. rewrite Zdigits2_dg, Hfe. apply shr_nonpos. lia. }
  rewrite H1. cbn [fst snd].
  destruct (loc_of_shr_record_of_loc (Zpos q) l) as [-> ->].
  f_equal. apply shr_fexp_renorm; [assumption|assumption|].
  rewrite <- Hfe. apply fexp_ge_emin.
Qed.

(** A full-width significand, possibly rounded up to [2 ^ prec]. *)
Lemma pack_renorm_spec B M E :
  B <= emin prec emax ->
  2 ^ (prec - 1) <= M <= 2 ^ prec ->
  emin prec emax <= E -> E + 1 <= emax - prec ->
  exists m e,
    pack prec emax false (renorm prec M E) = S754_finite false m e /\
    bounded prec emax m e = true /\
    2 ^ (prec - 1) <= Zpos m /\
    Zpos m * 2 ^ (e - B) = M * 2 ^ (E - B).
Proof.
  intros HB HM HE HEmax.
  pose proof (pow2_pos (prec - 1) ltac:(lia)) as Hp1.
  pose proof (pow2_succ prec Hprec) as Hp.
  unfold renorm.
  destruct (Z.eqb_spec M (2 ^ prec)) as [Heq|Hne]; unfold pack; cbn [fst snd].
  - destruct (2 ^ (prec - 1)) as [|p|p] eqn:Ep; try lia.
    destruct (Z.leb_spec (E + 1) (emax - prec)); [|lia].
    exists p, (E + 1). split; [reflexivity|]. split; [|split; [lia|]].
    + apply bounded_intro; try lia.
    + rewrite Heq, Hp. replace (E + 1 - B) with (1 + (E - B)) by lia.
      rewrite Z.pow_add_r by lia. change (2 ^ 1) with 2. lia.
  - destruct M as [|p|p]; try lia.
    destruct (Z.leb_spec E (emax - prec)); [|lia].
    exists p, E. split; [reflexivity|]. split; [|split; [lia|reflexivity]].
    apply bounded_intro; try lia.
Qed.

(** [round_at] in the normal range. *)
Lemma round_at_normal B V :
  B <= emin prec emax -> 0 < V ->
  emin prec emax <= dg V + B - prec -> dg V + B < emax ->
  exists m e,
    round_at prec emax B V = S754_finite false m e /\
    bounded prec emax m e = true /\
    2 ^ (prec - 1) <= Zpos m /\
    dg V + B - prec <= e <= dg V + B - prec + 1 /\
    Zpos m * 2 ^ (e - B) = rv prec emax B V.
Proof.
  intros HB HV Hn Hov. unfold round_at, rv. cbv zeta.
  assert (HE : fexp prec emax (dg V + B) = dg V + B - prec)
    by (unfold fexp; lia).
  rewrite HE. set (E := dg V + B - prec) in *.
  assert (HM : 2 ^ (prec - 1) <= rne V (E - B) <= 2 ^ prec).
  { pose proof (dg_spec V HV) as [Hlo Hhi]. split.
    - apply rne_ge_grid; [lia|]. rewrite <- Z.pow_add_r by lia.
      replace (prec - 1 + (E - B)) with (dg V - 1) by lia. exact Hlo.
    - apply rne_le_grid; [lia|]. rewrite <- Z.pow_add_r by lia.
      replace (prec + (E - B)) with (dg V) by lia. lia. }
  destruct (pack_renorm_spec B (rne V (E - B)) E HB HM Hn ltac:(lia))
    as (m & e & Hpk & Hb & Hm & Hv).
  exists m, e. split; [exact Hpk|]. split; [exact Hb|]. split; [exact Hm|].
  split; [|exact Hv].
  unfold renorm, pack in Hpk.
  destruct (rne V (E - B) =? 2 ^ prec); cbn [fst snd] in Hpk.
  - destruct (2 ^ (prec - 1)) as [|p|p]; try discriminate.
    destruct (E + 1 <=? emax - prec); [|discriminate].
    injection Hpk as _ He. lia.
  - destruct (rne V (E - B)) as [|p|p]; try discriminate.
    destruct (E <=? emax - prec); [|discriminate].
    injection Hpk as _ He. lia.
Qed.

End Normal.

(** ** C4: Raman shift *)

(** [SFcompare] orders the numbers it is given: its strict part is
    transitive, and it is antisymmetric. *)

Lemma float_lt_trans (x y z : float) :
  float_lt x y = true -> float_lt y z = true -> float_lt x z = true.
Proof.
  unfold float_lt, SFltb.
  destruct x as [sx|sx| |sx mx ex], y as [sy|sy| |sy my ey],
           z as [sz|sz| |sz mz ez]; cbn;
    try discriminate; try reflexivity;
    repeat match goal with s : bool |- _ => destruct s end;
    try discriminate; try reflexivity.
  - destruct (Z.compare_spec ex ey) as [E1|E1|E1],
             (Z.compare_spec ey ez) as [E2|E2|E2],
             (Z.compare_spec ex ez) as [E3|E3|E3];
      try discriminate; try reflexivity; try lia.
    change (Pos.compare_cont Eq mx my) with (mx ?= my)%positive.
    change (Pos.compare_cont Eq my mz) with (my ?= mz)%positive.
    change (Pos.compare_cont Eq mx mz) with (mx ?= mz)%positive.
    destruct (Pos.compare_spec mx my), (Pos.compare_spec my mz),
             (Pos.compare_spec mx mz);
      try discriminate; try reflexivity; lia.
  - destruct (Z.compare_spec ex ey) as [E1|E1|E1],
             (Z.compare_spec ey ez) as [E2|E2|E2],
             (Z.compare_spec ex ez) as [E3|E3|E3];
      try discriminate; try reflexivity; try lia.
    change (Pos.compare_cont Eq mx my) with (mx ?= my)%positive.
    change (Pos.compare_cont Eq my mz) with (my ?= mz)%positive.
    change (Pos.compare_cont Eq mx mz) with (mx ?= mz)%positive.
    destruct (Pos.compare_spec mx my), (Pos.compare_spec my mz),
             (Pos.compare_spec mx mz);
      try discriminate; try reflexivity; lia.
Qed.

Lemma float_lt_not_le (x y : float) :
  float_lt x y = true -> float_le y x = false.
Proof.
  unfold float_lt, float_le, SFltb, SFleb.
  destruct x as [sx|sx| |sx mx ex], y as [sy|sy| |sy my ey]; cbn;
    try discriminate; try reflexivity;
    repeat match goal with s : bool |- _ => destruct s end;
    try discriminate; try reflexivity.
  - rewrite (Z.compare_antisym ey ex).
    destruct (ey ?= ex); cbn; try discriminate; try reflexivity.
    change (Pos.compare_cont Eq mx my) with (mx ?= my)%positive.
    change (Pos.compare_cont Eq my mx) with (my ?= mx)%positive.
    rewrite (Pos.compare_antisym my mx).
    destruct (my ?= mx)%positive; cbn; try discriminate; reflexivity.
  - rewrite (Z.compare_antisym ey ex).
    destruct (ey ?= ex); cbn; try discriminate; try reflexivity.
    change (Pos.compare_cont Eq mx my) with (mx ?= my)%positive.
    change (Pos.compare_cont Eq my mx) with (my ?= mx)%positive.
    rewrite (Pos.compare_antisym my mx).
    destruct (my ?= mx)%positive; cbn; try discriminate; reflexivity.
Qed.

Lemma shifts_increase_step n : forall p k,
  shifts_increase n p = true -> 0 <= k < Z.of_nat n ->
  float_lt (wavelengthToWavenumber (pixelToWavelength (p + k)))
           (wavelengthToWavenumber (pixelToWavelength (p + k + 1))) = true /\
  float_lt (pixelToWavelength (p + k)) (pixelToWavelength (p + k + 1)) = true.
Proof.
  induction n as [|n IH]; intros p k Hall Hk; [lia|].
  cbn [shifts_increase] in Hall.
  apply andb_true_iff in Hall as [Hall Hrest].
  apply andb_true_iff in Hall as [H1 H2].
  destruct (Z.eq_dec k 0) as [->|Hk0].
  - rewrite Z.add_0_r. split; assumption.
  - specialize (IH (p + 1) (k - 1) Hrest ltac:(lia)).
    replace (p + 1 + (k - 1)) with (p + k) in IH by lia. exact IH.
Qed.

Lemma below_excitation_spec n : forall p k,
  below_excitation n p = true -> 0 <= k < Z.of_nat n ->
  float_le (pixelToWavelength (p + k)) EXC_LAMBDA = true.
Proof.
  induction n as [|n IH]; intros p k Hall Hk; [lia|].
  cbn [below_excitation] in Hall.
  apply andb_true_iff in Hall as [H1 Hrest].
  destruct (Z.eq_dec k 0) as [->|Hk0].
  - rewrite Z.add_0_r. exact H1.
  - specialize (IH (p + 1) (k - 1) Hrest ltac:(lia)).
    replace (p + 1 + (k - 1)) with (p + k) in IH by lia. exact IH.
Qed.

(** The detector, pixel by pixel: the first 388 pixels lie at or below
    the excitation line, and from pixel 387 on both the wavelength and
    the Raman shift increase from each pixel to the next. *)
Lemma detector_below : below_excitation 388 0 = true.
Proof. vm_compute. reflexivity. Qed.

Lemma detector_increasing : shifts_increase 3306 387 = true.
Proof. vm_compute. reflexivity. Qed.

Lemma pixel_above_excitation (i : Z) :
  0 <= i -> float_lt EXC_LAMBDA (pixelToWavelength i) = true -> 388 <= i.
Proof.
  intros Hi Hlt. destruct (Z_lt_ge_dec i 388) as [Hsmall|]; [|lia].
  pose proof (below_excitation_spec 388 0 i detector_below ltac:(lia)) as Hle.
  rewrite Z.add_0_l in Hle.
  rewrite (float_lt_not_le _ _ Hlt) in Hle. discriminate Hle.
Qed.

Lemma pixels_increase (i : Z) (d : nat) :
  387 <= i -> i + Z.of_nat (S d) < PIXEL_COUNT ->
  float_lt (wavelengthToWavenumber (pixelToWavelength i))
           (wavelengthToWavenumber (pixelToWavelength (i + Z.of_nat (S d))))
    = true /\
  float_lt (pixelToWavelength i) (pixelToWavelength (i + Z.of_nat (S d)))
    = true.
Proof.
  unfold PIXEL_COUNT. intros Hi. induction d as [|d IH]; intros Hj.
  - pose proof (shifts_increase_step 3306 387 (i - 387) detector_increasing
                  ltac:(lia)) as H.
    replace (387 + (i - 387)) with i in H by lia. exact H.
  - destruct (IH ltac:(lia)) as [IH1 IH2].
    pose proof (shifts_increase_step 3306 387 (i + Z.of_nat (S d) - 387)
                  detector_increasing ltac:(lia)) as [H1 H2].
    replace (387 + (i + Z.of_nat (S d) - 387)) with (i + Z.of_nat (S d))
      in H1, H2 by lia.
    replace (i + Z.of_nat (S (S d))) with (i + Z.of_nat (S d) + 1) by lia.
    split; eapply float_lt_trans; eassumption.
Qed.

(** *** The Raman shift does not decrease

    [wavelengthToWavenumber] is followed operation by operation: the
    widening of the wavelength, the reciprocal, the subtraction from the
    reciprocal of the excitation wavelength, the scaling by [10^7] and the
    narrowing to [float]. Values are counted in units of [2 ^ -1971] up to
    the subtraction and of [2 ^ -2000] after the scaling, the exponent of
    [10^7] in [double] being [-29]. *)

(** The literals and the reciprocal of the excitation wavelength, as
    [double]s. *)
Lemma double_one : double_literal 10 10 = S754_finite false 4503599627370496 (-52).
Proof. vm_compute. reflexivity. Qed.

Lemma double_1e7 :
  double_literal 100000000 10 = S754_finite false 5368709120000000 (-29).
Proof. vm_compute. reflexivity. Qed.

Lemma reciprocal_EXC :
  reciprocal EXC_LAMBDA = S754_finite false 8668582741404864 (-62).
Proof. vm_compute. reflexivity. Qed.

Lemma EXC_LAMBDA_eq : EXC_LAMBDA = S754_finite false 8716288 (-14).
Proof. vm_compute. reflexivity. Qed.

(** *** Widening *)

(** A [float] widened is a normal [double]. *)
Lemma double_of_float_spec m e :
  bounded 24 128 m e = true ->
  exists mw ew,
    double_of_float (S754_finite false m e) = S754_finite false mw ew /\
    bounded 53 1024 mw ew = true /\
    2 ^ 52 <= Zpos mw /\ -201 <= ew <= 76 /\
    Zpos mw * 2 ^ (ew - -1971) = rv 53 1024 (-1971) (Zpos m * 2 ^ (e - -1971)).
Proof.
  intros Hb. apply (bounded_spec 24 128 ltac:(lia)) in Hb as (Hhi & Hmin & Hmax & _).
  unfold emin in Hmin.
  cbn [double_of_float].
  rewrite (binary_round_round_at 53 1024 ltac:(lia) (-1971))
    by (unfold emin; lia).
  set (V := Zpos m * 2 ^ (e - -1971)).
  pose proof (dg_pos (Zpos m)) as Hd.
  pose proof (dg_le (Zpos m) 24 ltac:(lia) Hhi) as Hd24.
  assert (HdV : dg V = dg (Zpos m) + (e - -1971))
    by (unfold V; apply dg_scale; lia).
  assert (HV : 0 < V).
  { unfold V. pose proof (pow2_pos (e - -1971) ltac:(lia)). nia. }
  destruct (round_at_normal 53 1024 ltac:(lia) (-1971) V)
    as (mw & ew & Hr & Hbw & Hmw & Hew & Hv);
    try (unfold emin; lia).
  exists mw, ew. repeat split; try assumption; lia.
Qed.

(** *** The reciprocal *)

Lemma renorm_pow2 prec E : renorm prec (2 ^ prec) E = (2 ^ (prec - 1), E + 1).
Proof. unfold renorm. rewrite Z.eqb_refl. reflexivity. Qed.

(** The quotient that [SFdiv] forms for [1.0 / w], [w] normal: [2 ^ 105]
    divided by the significand of [w]. *)
Lemma SFdiv_core_one (mw : positive) ew :
  2 ^ 52 <= Zpos mw < 2 ^ 53 -> -900 <= ew <= 900 ->
  SFdiv_core_binary 53 1024 4503599627370496 (-52) (Zpos mw) ew =
  (2 ^ 105 / Zpos mw, -105 - ew,
   new_location (Zpos mw) (2 ^ 105 mod Zpos mw)).
Proof.
  intros Hm He. unfold SFdiv_core_binary. cbv zeta.
  rewrite (Zdigits2_dg mw), (dg_unique (Zpos mw) 53) by lia.
  change (Zdigits2 4503599627370496) with 53.
  replace (Z.min (fexp 53 1024 (53 + -52 - (53 + ew))) (-52 - ew))
    with (-105 - ew) by (unfold fexp, emin; lia).
  replace (-52 - ew - (-105 - ew)) with 53 by lia.
  cbv iota.
  change (Z.shiftl 4503599627370496 53) with (2 ^ 105).
  unfold Z.div, Z.modulo.
  destruct (Z.div_eucl (2 ^ 105) (Zpos mw)) as [q r]. reflexivity.
Qed.

(** [1.0 / w] is that quotient rounded once. *)
Lemma reciprocal_closed (mw : positive) ew :
  2 ^ 52 <= Zpos mw < 2 ^ 53 -> -900 <= ew <= 900 ->
  ddiv (double_literal 10 10) (S754_finite false mw ew) =
  pack 53 1024 false (renorm 53 (rnd (2 ^ 105) (Zpos mw)) (-105 - ew)).
Proof.
  intros Hm He. rewrite double_one. unfold ddiv, SFdiv.
  rewrite SFdiv_core_one by assumption. cbv beta iota. cbn [xorb].
  destruct (Z.eq_dec (Zpos mw) (2 ^ 52)) as [E|E].
  - assert (mw = 4503599627370496%positive) as -> by lia.
    change (2 ^ 105 / 4503599627370496) with 9007199254740992.
    change (new_location 4503599627370496 (2 ^ 105 mod 4503599627370496))
      with loc_Exact.
    change (rnd (2 ^ 105) 4503599627370496) with (2 ^ 53).
    rewrite renorm_pow2.
    rewrite (binary_round_aux_exact 53 1024 ltac:(lia));
      change (dg 9007199254740992) with 54;
      [|unfold fexp, emin; lia].
    cbv zeta.
    replace (fexp 53 1024 (54 + (-105 - ew))) with (-105 - ew + 1)
      by (unfold fexp, emin; lia).
    replace (-105 - ew + 1 - (-105 - ew)) with 1 by lia.
    change (rne 9007199254740992 1) with 4503599627370496.
    reflexivity.
  - pose proof (rnd_bounds (2 ^ 105) (Zpos mw)) as Hr.
    pose proof (round_new_location (2 ^ 105) (Zpos mw) ltac:(lia)) as Hloc.
    assert (Hq : 2 ^ 52 <= 2 ^ 105 / Zpos mw < 2 ^ 53).
    { split.
      - apply Z.div_le_lower_bound; lia.
      - apply Z.div_lt_upper_bound; lia. }
    destruct (2 ^ 105 / Zpos mw) as [|q|q] eqn:Eq; try lia.
    rewrite (binary_round_aux_noshift 53 1024 ltac:(lia)).
    + rewrite Hloc. reflexivity.
    + rewrite (dg_unique (Zpos q) 53) by lia. unfold fexp, emin. lia.
    + rewrite Hloc. lia.
Qed.

(** The reciprocal of a positive [float]: a [double] whose value is read
    off the widened significand [mw] and exponent [ew]. *)
Lemma reciprocal_finite m e :
  bounded 24 128 m e = true ->
  exists mw ew,
    bounded 53 1024 mw ew = true /\
    2 ^ 52 <= Zpos mw < 2 ^ 53 /\ -201 <= ew <= 76 /\
    Zpos mw * 2 ^ (ew - -1971) = rv 53 1024 (-1971) (Zpos m * 2 ^ (e - -1971)) /\
    is_nonneg 53 1024 (reciprocal (S754_finite false m e)) = true /\
    val (-1971) (reciprocal (S754_finite false m e)) =
      rnd (2 ^ 105) (Zpos mw) * 2 ^ (-105 - ew - -1971).
Proof.
  intros Hb.
  destruct (double_of_float_spec m e Hb) as (mw & ew & HW & Hbw & Hlo & Hew & Hv).
  pose proof (bounded_spec 53 1024 ltac:(lia) _ _ Hbw) as (Hhi & _).
  exists mw, ew. split; [exact Hbw|]. split; [lia|]. split; [exact Hew|].
  split; [exact Hv|].
  unfold reciprocal. rewrite HW, reciprocal_closed by lia.
  assert (HM : 2 ^ (53 - 1) <= rnd (2 ^ 105) (Zpos mw) <= 2 ^ 53).
  { split.
    - pose proof (rnd_bounds (2 ^ 105) (Zpos mw)).
      assert (2 ^ 52 <= 2 ^ 105 / Zpos mw)
        by (apply Z.div_le_lower_bound; lia).
      change (2 ^ (53 - 1)) with (2 ^ 52). lia.
    - change (2 ^ 53) with (rnd (2 ^ 105) (2 ^ 52)).
      apply rnd_mono; lia. }
  destruct (pack_renorm_spec 53 1024 ltac:(lia) (-1971)
              (rnd (2 ^ 105) (Zpos mw)) (-105 - ew))
    as (md & ed & Hpk & Hbd & _ & Hvd); try (unfold emin; lia).
  rewrite Hpk. cbn [is_nonneg val]. split; assumption.
Qed.

(** A longer wavelength has a smaller reciprocal. *)
Lemma reciprocal_anti m1 e1 m2 e2 :
  bounded 24 128 m1 e1 = true -> bounded 24 128 m2 e2 = true ->
  Zpos m1 * 2 ^ (e1 - -1971) <= Zpos m2 * 2 ^ (e2 - -1971) ->
  val (-1971) (reciprocal (S754_finite false m2 e2)) <=
  val (-1971) (reciprocal (S754_finite false m1 e1)).
Proof.
  intros Hb1 Hb2 Hle.
  destruct (reciprocal_finite m1 e1 Hb1)
    as (mw1 & ew1 & Hbw1 & Hm1 & He1 & Hv1 & _ & ->).
  destruct (reciprocal_finite m2 e2 Hb2)
    as (mw2 & ew2 & Hbw2 & Hm2 & He2 & Hv2 & _ & ->).
  assert (HW : Zpos mw1 * 2 ^ (ew1 - -1971) <= Zpos mw2 * 2 ^ (ew2 - -1971)).
  { rewrite Hv1, Hv2.
    pose proof (bounded_spec 24 128 ltac:(lia) _ _ Hb1) as (_ & Hmin & _).
    unfold emin in Hmin.
    pose proof (pow2_pos (e1 - -1971) ltac:(lia)).
    apply rv_mono; try (unfold emin; lia). }
  apply (bounded_order 53 1024 ltac:(lia) (-1971)) in HW;
    [|unfold emin; lia|assumption|assumption].
  assert (HM1 : 2 ^ 52 <= rnd (2 ^ 105) (Zpos mw1)).
  { pose proof (rnd_bounds (2 ^ 105) (Zpos mw1)).
    assert (2 ^ 52 <= 2 ^ 105 / Zpos mw1)
      by (apply Z.div_le_lower_bound; lia). lia. }
  assert (HM2 : rnd (2 ^ 105) (Zpos mw2) <= 2 ^ 53).
  { change (2 ^ 53) with (rnd (2 ^ 105) (2 ^ 52)). apply rnd_mono; lia. }
  destruct HW as [Hlt|[-> Hmw]].
  - replace (-105 - ew1 - -1971) with ((ew2 - ew1 - 1) + 1 + (-105 - ew2 - -1971))
      by lia.
    rewrite !Z.pow_add_r by lia. change (2 ^ 1) with 2.
    pose proof (pow2_pos (ew2 - ew1 - 1) ltac:(lia)).
    pose proof (pow2_pos (-105 - ew2 - -1971) ltac:(lia)).
    rewrite Z.mul_assoc. apply Z.mul_le_mono_nonneg_r; [lia|]. nia.
  - apply Z.mul_le_mono_nonneg_r.
    + pose proof (pow2_pos (-105 - ew2 - -1971) ltac:(lia)). lia.
    + apply rnd_mono; lia.
Qed.

(** *** Subtraction, scaling and narrowing *)

Lemma val_nonneg B x : 0 <= val B x.
Proof.
  destruct x as [ | | |[|] m e]; cbn [val]; lia.
Qed.

(** [1.0 / EXC_LAMBDA - d] is the exact difference, rounded. *)
Lemma dsub_spec d :
  is_nonneg 53 1024 d = true ->
  val (-1971) d <= val (-1971) (reciprocal EXC_LAMBDA) ->
  is_nonneg 53 1024 (dsub (reciprocal EXC_LAMBDA) d) = true /\
  val (-1971) (dsub (reciprocal EXC_LAMBDA) d) =
    rv 53 1024 (-1971) (val (-1971) (reciprocal EXC_LAMBDA) - val (-1971) d).
Proof.
  rewrite reciprocal_EXC. intros Hd Hle.
  destruct d as [[|]| | |[|] md ed]; try discriminate.
  - change (dsub (S754_finite false 8668582741404864 (-62)) (S754_zero false))
      with (S754_finite false 8668582741404864 (-62)).
    split; vm_compute; reflexivity.
  - cbn [is_nonneg] in Hd. cbn [val] in Hle |- *.
    pose proof (bounded_spec 53 1024 ltac:(lia) _ _ Hd) as (_ & Hmin & _).
    unfold emin in Hmin.
    unfold dsub, SFsub. cbv zeta. cbn [cond_Zopp].
    set (ez := Z.min (-62) ed).
    destruct (shl_align_spec 8668582741404864 (-62) ez) as [_ ->].
    destruct (shl_align_spec md ed ez) as [_ ->].
    replace (Z.min (-62) ez) with ez by lia.
    replace (Z.min ed ez) with ez by lia.
    set (A := 8668582741404864 * 2 ^ (-62 - ez)).
    set (D := Zpos md * 2 ^ (ed - ez)).
    pose proof (pow2_pos (ez - -1971) ltac:(lia)) as Hu.
    assert (HA : A * 2 ^ (ez - -1971) = 8668582741404864 * 2 ^ (-62 - -1971)).
    { unfold A. rewrite <- Z.mul_assoc, <- Z.pow_add_r by lia.
      f_equal. f_equal. lia. }
    assert (HD : D * 2 ^ (ez - -1971) = Zpos md * 2 ^ (ed - -1971)).
    { unfold D. rewrite <- Z.mul_assoc, <- Z.pow_add_r by lia.
      f_equal. f_equal. lia. }
    rewrite <- HA, <- HD in Hle |- *.
    rewrite <- Z.mul_sub_distr_r.
    assert (H0 : 0 <= A - D) by nia.
    destruct (A - D) as [|z|z] eqn:Ez; [| |lia].
    + cbn [binary_normalize]. split; vm_compute; reflexivity.
    + cbn [binary_normalize].
      rewrite (binary_round_round_at 53 1024 ltac:(lia) (-1971))
        by (unfold emin; lia).
      apply (round_at_spec 53 1024); try (unfold emin; lia).
      assert (Hb : Zpos z * 2 ^ (ez - -1971)
                   <= 8668582741404864 * 2 ^ (-62 - -1971)).
      { rewrite <- HA. apply Z.mul_le_mono_nonneg_r; lia. }
      apply dg_mono in Hb.
      change (dg (8668582741404864 * 2 ^ (-62 - -1971))) with 1962 in Hb.
      lia.
Qed.

(** [s * 10000000.0] is the exact product, rounded. *)
Lemma dmul_spec s :
  is_nonneg 53 1024 s = true ->
  val (-1971) s <= val (-1971) (reciprocal EXC_LAMBDA) ->
  is_nonneg 53 1024 (dmul s (double_literal 100000000 10)) = true /\
  val (-2000) (dmul s (double_literal 100000000 10)) =
    rv 53 1024 (-2000) (5368709120000000 * val (-1971) s).
Proof.
  rewrite reciprocal_EXC, double_1e7. intros Hs Hle.
  destruct s as [[|]| | |[|] ms es]; try discriminate.
  - split; vm_compute; reflexivity.
  - cbn [is_nonneg] in Hs. cbn [val] in Hle |- *.
    pose proof (bounded_spec 53 1024 ltac:(lia) _ _ Hs) as (_ & Hmin & _).
    unfold emin in Hmin.
    unfold dmul, SFmul. cbn [xorb].
    assert (Hdg : 53 <= dg (Zpos (ms * 5368709120000000))).
    { change 53 with (dg (2 ^ 52)). apply dg_mono. lia. }
    rewrite (binary_round_aux_round_at 53 1024 ltac:(lia) (-2000))
      by (unfold fexp, emin; lia).
    replace (Zpos (ms * 5368709120000000) * 2 ^ (es + -29 - -2000))
      with (5368709120000000 * (Zpos ms * 2 ^ (es - -1971))).
    2:{ rewrite Pos2Z.inj_mul. replace (es + -29 - -2000) with (es - -1971) by lia.
        lia. }
    pose proof (pow2_pos (es - -1971) ltac:(lia)) as Hu.
    apply (round_at_spec 53 1024); try (unfold emin; lia).
    assert (Hb : 5368709120000000 * (Zpos ms * 2 ^ (es - -1971))
                 <= 5368709120000000 * (8668582741404864 * 2 ^ (-62 - -1971)))
      by lia.
    apply dg_mono in Hb.
    change (dg (5368709120000000 * (8668582741404864 * 2 ^ (-62 - -1971))))
      with 2015 in Hb.
    lia.
Qed.

(** The [double] returned as [float] is rounded to 24 bits. *)
Lemma float_of_double_spec p :
  is_nonneg 53 1024 p = true ->
  dg (val (-2000) p) <= 2100 ->
  is_nonneg 24 128 (float_of_double p) = true /\
  val (-2000) (float_of_double p) = rv 24 128 (-2000) (val (-2000) p).
Proof.
  intros Hp Hdg.
  destruct p as [[|]| | |[|] m e]; try discriminate.
  - split; vm_compute; reflexivity.
  - cbn [is_nonneg] in Hp. cbn [val] in Hdg |- *.
    pose proof (bounded_spec 53 1024 ltac:(lia) _ _ Hp) as (_ & Hmin & _).
    unfold emin in Hmin.
    cbn [float_of_double].
    rewrite (binary_round_round_at 24 128 ltac:(lia) (-2000))
      by (unfold emin; lia).
    pose proof (pow2_pos (e - -2000) ltac:(lia)) as Hu.
    apply (round_at_spec 24 128); try (unfold emin; lia).
Qed.

(** *** The shift as a function of the reciprocal *)

(** The three steps together. *)
Lemma shift_of_reciprocal_spec d :
  is_nonneg 53 1024 d = true ->
  val (-1971) d <= val (-1971) (reciprocal EXC_LAMBDA) ->
  is_nonneg 24 128 (shift_of_reciprocal d) = true /\
  val (-2000) (shift_of_reciprocal d) =
    rv 24 128 (-2000)
      (rv 53 1024 (-2000)
         (5368709120000000 *
          rv 53 1024 (-1971)
            (val (-1971) (reciprocal EXC_LAMBDA) - val (-1971) d))).
Proof.
  intros Hd Hle. unfold shift_of_reciprocal.
  pose proof (val_nonneg (-1971) d) as Hd0.
  destruct (dsub_spec d Hd Hle) as [Hs Hsv].
  assert (Hsle : val (-1971) (dsub (reciprocal EXC_LAMBDA) d)
                 <= val (-1971) (reciprocal EXC_LAMBDA)).
  { rewrite Hsv.
    transitivity (rv 53 1024 (-1971) (val (-1971) (reciprocal EXC_LAMBDA))).
    - apply rv_mono; try (unfold emin; lia).
    - rewrite reciprocal_EXC. vm_compute. discriminate. }
  destruct (dmul_spec _ Hs Hsle) as [Hp Hpv].
  rewrite <- Hsv, <- Hpv.
  apply float_of_double_spec; [exact Hp|].
  rewrite Hpv.
  pose proof (val_nonneg (-1971) (dsub (reciprocal EXC_LAMBDA) d)) as Hs0.
  assert (Hb : rv 53 1024 (-2000)
                 (5368709120000000 * val (-1971) (dsub (reciprocal EXC_LAMBDA) d))
               <= rv 53 1024 (-2000)
                    (5368709120000000 * val (-1971) (reciprocal EXC_LAMBDA))).
  { apply rv_mono; try (unfold emin; lia). }
  apply dg_mono in Hb. rewrite reciprocal_EXC in Hb at 2.
  change (dg (rv 53 1024 (-2000)
                (5368709120000000 *
                 val (-1971) (S754_finite false 8668582741404864 (-62)))))
    with 2015 in Hb.
  lia.
Qed.

(** A smaller reciprocal gives a shift at least as large. *)
Lemma shift_of_reciprocal_anti d1 d2 :
  is_nonneg 53 1024 d1 = true -> is_nonneg 53 1024 d2 = true ->
  val (-1971) d2 <= val (-1971) d1 ->
  val (-1971) d1 <= val (-1971) (reciprocal EXC_LAMBDA) ->
  float_le (shift_of_reciprocal d1) (shift_of_reciprocal d2) = true.
Proof.
  intros H1 H2 H21 H1c.
  destruct (shift_of_reciprocal_spec d1 H1 H1c) as [Hn1 Hv1].
  destruct (shift_of_reciprocal_spec d2 H2 ltac:(lia)) as [Hn2 Hv2].
  pose proof (val_nonneg (-1971) d2) as Hd0.
  unfold float_le.
  apply (SFleb_val 24 128 ltac:(lia) (-2000));
    [unfold emin; lia|assumption|assumption|].
  rewrite Hv1, Hv2.
  assert (Ha : 0 <= val (-1971) (reciprocal EXC_LAMBDA) - val (-1971) d1
               <= val (-1971) (reciprocal EXC_LAMBDA) - val (-1971) d2) by lia.
  pose proof (rv_mono 53 1024 ltac:(lia) (-1971) _ _
                ltac:(unfold emin; lia) Ha) as Hb.
  assert (Hb0 : 0 <= rv 53 1024 (-1971)
                  (val (-1971) (reciprocal EXC_LAMBDA) - val (-1971) d1))
    by (apply rv_nonneg; unfold emin; lia).
  assert (Hc : 0 <= 5368709120000000 *
                    rv 53 1024 (-1971)
                      (val (-1971) (reciprocal EXC_LAMBDA) - val (-1971) d1)
               <= 5368709120000000 *
                    rv 53 1024 (-1971)
                      (val (-1971) (reciprocal EXC_LAMBDA) - val (-1971) d2))
    by lia.
  pose proof (rv_mono 53 1024 ltac:(lia) (-2000) _ _
                ltac:(unfold emin; lia) Hc) as He.
  apply rv_mono; try (unfold emin; lia).
  split; [|exact He].
  apply rv_nonneg; unfold emin; lia.
Qed.

(** *** Wavelengths *)

(** Above the excitation line the reciprocal is at most that of the
    excitation wavelength, so the difference is not negative. *)
Lemma reciprocal_wavelength x :
  is_wavelength x = true -> float_le EXC_LAMBDA x = true ->
  is_nonneg 53 1024 (reciprocal x) = true /\
  val (-1971) (reciprocal x) <= val (-1971) (reciprocal EXC_LAMBDA).
Proof.
  intros Hx Hle.
  destruct x as [ |[|]| |[|] m e]; try discriminate Hx.
  - split; vm_compute; [reflexivity|discriminate].
  - cbn [is_wavelength] in Hx.
    destruct (reciprocal_finite m e Hx) as (mw & ew & _ & _ & _ & _ & Hn & _).
    split; [exact Hn|].
    rewrite EXC_LAMBDA_eq in Hle |- *.
    apply reciprocal_anti; [reflexivity|exact Hx|].
    apply (SFleb_val 24 128 ltac:(lia) (-1971)
             (S754_finite false 8716288 (-14)) (S754_finite false m e));
      [unfold emin; lia|reflexivity|exact Hx|exact Hle].
Qed.

Lemma reciprocal_wavelength_anti x1 x2 :
  is_wavelength x1 = true -> is_wavelength x2 = true ->
  float_le x1 x2 = true ->
  val (-1971) (reciprocal x2) <= val (-1971) (reciprocal x1).
Proof.
  intros H1 H2 Hle.
  destruct x2 as [ |[|]| |[|] m2 e2]; try discriminate H2.
  - change (reciprocal (S754_infinity false)) with (S754_zero false).
    apply val_nonneg.
  - destruct x1 as [ |[|]| |[|] m1 e1]; try discriminate H1;
      try discriminate Hle.
    cbn [is_wavelength] in H1, H2.
    apply reciprocal_anti; [exact H1|exact H2|].
    apply (SFleb_val 24 128 ltac:(lia) (-1971)
             (S754_finite false m1 e1) (S754_finite false m2 e2));
      [unfold emin; lia|exact H1|exact H2|exact Hle].
Qed.

Lemma is_wavelength_above x :
  valid_binary 24 128 x = true -> float_lt EXC_LAMBDA x = true ->
  is_wavelength x = true.
Proof.
  rewrite EXC_LAMBDA_eq. intros Hv Hlt.
  destruct x as [[|]|[|]| |[|] m e]; try discriminate; try reflexivity.
  exact Hv.
Qed.

Lemma float_lt_le_trans x y z :
  is_wavelength y = true -> is_wavelength z = true ->
  float_lt x y = true -> float_le y z = true -> float_lt x z = true.
Proof.
  unfold float_lt, float_le, SFltb, SFleb. intros Hy Hz.
  destruct y as [ |[|]| |[|] my ey]; try discriminate;
    destruct z as [ |[|]| |[|] mz ez]; try discriminate;
    destruct x as [sx|sx| |sx mx ex]; cbn;
    try discriminate; try reflexivity;
    repeat match goal with s : bool |- _ => destruct s end;
    try discriminate; try reflexivity.
  destruct (Z.compare_spec ex ey) as [E1|E1|E1],
           (Z.compare_spec ey ez) as [E2|E2|E2],
           (Z.compare_spec ex ez) as [E3|E3|E3];
    try discriminate; try reflexivity; try lia.
  change (Pos.compare_cont Eq mx my) with (mx ?= my)%positive.
  change (Pos.compare_cont Eq my mz) with (my ?= mz)%positive.
  change (Pos.compare_cont Eq mx mz) with (mx ?= mz)%positive.
  destruct (Pos.compare_spec mx my), (Pos.compare_spec my mz),
           (Pos.compare_spec mx mz);
    try discriminate; try reflexivity; lia.
Qed.

Lemma float_lt_le x y : float_lt x y = true -> float_le x y = true.
Proof.
  unfold float_lt, float_le, SFltb, SFleb.
  destruct (SFcompare x y) as [[| |]|]; try discriminate; reflexivity.
Qed.

(** Above the excitation line [wavelengthToWavenumber] is
    [shift_of_reciprocal] of the reciprocal. *)
Lemma wavelengthToWavenumber_above x :
  float_lt EXC_LAMBDA x = true ->
  wavelengthToWavenumber x = shift_of_reciprocal (reciprocal x).
Proof.
  intros Hlt. unfold wavelengthToWavenumber.
  rewrite (float_lt_not_le _ _ Hlt). reflexivity.
Qed.

(** Above the excitation line, the shift the sketch computes does not
    decrease when the wavelength grows. *)
Lemma wavenumber_monotone (x1 x2 : float) :
  valid_binary 24 128 x1 = true -> valid_binary 24 128 x2 = true ->
  float_lt EXC_LAMBDA x1 = true -> float_le x1 x2 = true ->
  float_le (wavelengthToWavenumber x1) (wavelengthToWavenumber x2) = true.
Proof.
  intros Hv1 Hv2 Hlt Hle.
  pose proof (is_wavelength_above x1 Hv1 Hlt) as Hw1.
  assert (Hw2 : is_wavelength x2 = true).
  { clear Hlt. unfold float_le, SFleb in Hle.
    destruct x1 as [ |[|]| |[|] m1 e1]; try discriminate;
      destruct x2 as [[|]|[|]| |[|] m2 e2]; try discriminate;
      try reflexivity; exact Hv2. }
  pose proof (float_lt_le_trans _ _ _ Hw1 Hw2 Hlt Hle) as Hlt2.
  rewrite !wavelengthToWavenumber_above by assumption.
  destruct (reciprocal_wavelength x1 Hw1 (float_lt_le _ _ Hlt)) as [Hn1 Hc1].
  destruct (reciprocal_wavelength x2 Hw2 (float_lt_le _ _ Hlt2)) as [Hn2 _].
  apply shift_of_reciprocal_anti; try assumption.
  apply reciprocal_wavelength_anti; assumption.
Qed.

(** C4, as amended. [wavelengthToWavenumber] returns zero for every
    wavelength at or below the excitation line, and above it the
    single-precision rounding of [(1/532 - 1/lambda) * 10^7] evaluated in
    double precision. Above the excitation line it never decreases when
    the wavelength grows, over all the numbers of the [float] format and
    plus infinity; over the wavelengths that the calibration gives the
    pixels of the detector it is strictly increasing. *)
Theorem C4_wavenumber :
  (forall lambda_nm : float,
     float_le lambda_nm EXC_LAMBDA = true ->
     wavelengthToWavenumber lambda_nm = S754_zero false) /\
  (forall lambda_nm : float,
     float_lt EXC_LAMBDA lambda_nm = true ->
     wavelengthToWavenumber lambda_nm = raman_shift lambda_nm) /\
  (forall lambda_1 lambda_2 : float,
     valid_binary 24 128 lambda_1 = true ->
     valid_binary 24 128 lambda_2 = true ->
     float_lt EXC_LAMBDA lambda_1 = true ->
     float_le lambda_1 lambda_2 = true ->
     float_le (wavelengthToWavenumber lambda_1)
              (wavelengthToWavenumber lambda_2) = true) /\
  (forall i j : Z,
     0 <= i < j -> j < PIXEL_COUNT ->
     float_lt EXC_LAMBDA (pixelToWavelength i) = true ->
     float_lt (pixelToWavelength i) (pixelToWavelength j) = true /\
     float_lt (wavelengthToWavenumber (pixelToWavelength i))
              (wavelengthToWavenumber (pixelToWavelength j)) = true).
Proof.
  split; [|split; [|split]].
  - intros l Hle. unfold wavelengthToWavenumber. rewrite Hle. reflexivity.
  - intros l Hlt. unfold wavelengthToWavenumber.
    rewrite (float_lt_not_le _ _ Hlt). reflexivity.
  - exact wavenumber_monotone.
  - intros i j Hij Hj Habove.
    pose proof (pixel_above_excitation i ltac:(lia) Habove) as Hi.
    destruct (pixels_increase i (Z.to_nat (j - i - 1)) ltac:(lia)) as [H1 H2].
    { rewrite Nat2Z.inj_succ, Z2Nat.id by lia. lia. }
    rewrite Nat2Z.inj_succ, Z2Nat.id in H1, H2 by lia.
    replace (i + Z.succ (j - i - 1)) with j in H1, H2 by lia.
    split; assumption.
Qed.

(** At pixel 1000 the shift is 16674792 * 2^-14, about 1017.75, and it is
    larger at pixel 1001; from 1000000 nm to 1000001 nm the shift does not
    decrease. *)
Lemma C4_wavenumber_witness :
  wavelengthToWavenumber (pixelToWavelength 1000)
    = S754_finite false 16674792 (-14) /\
  float_lt (wavelengthToWavenumber (pixelToWavelength 1000))
           (wavelengthToWavenumber (pixelToWavelength 1001)) = true /\
  float_le (wavelengthToWavenumber (float_of_int 1000000))
           (wavelengthToWavenumber (float_of_int 1000001)) = true.
Proof.
  destruct C4_wavenumber as (_ & Hformula & Hmono & Hinc).
  assert (Habove : float_lt EXC_LAMBDA (pixelToWavelength 1000) = true)
    by (vm_compute; reflexivity).
  split; [|split].
  - rewrite (Hformula _ Habove). vm_compute. reflexivity.
  - apply (Hinc 1000 1001); [lia | unfold PIXEL_COUNT; lia | exact Habove].
  - apply Hmono; vm_compute; reflexivity.
Defined.

(** C4 as stated fails in the arithmetic of the sketch: the wavelengths
    1000000 and 1000001, both above the excitation line and both exact in
    single precision, are given the same shift, 18786.992. *)
Lemma C4_counterexample :
  let l1 := float_of_int 1000000 in
  let l2 := float_of_int 1000001 in
  float_lt EXC_LAMBDA l1 = true /\
  float_lt l1 l2 = true /\
  wavelengthToWavenumber l1 = wavelengthToWavenumber l2 /\
  float_lt (wavelengthToWavenumber l1) (wavelengthToWavenumber l2) = false.
Proof. vm_compute. repeat split; reflexivity. Qed.

(** ** Well-formed globals

    The transmit and receive buffers keep the size of a packet and hold
    bytes, and the periods stay 32-bit, from power-up on. *)

Lemma wf_state_buildCommand s : wf_state s -> wf_state (buildCommand s).
Proof.
  intros (Htx & Hrx & Hutx & Hurx & Hsh & Hicg).
  destruct (build_frame_wf (SH_PERIOD s) (ICG_PERIOD s) _ Htx) as [Hl Hu].
  unfold wf_state, buildCommand. cbn. auto 10.
Qed.

Lemma to_u32_is_u32 z : is_u32 (to_u32 z).
Proof. unfold is_u32, to_u32. apply Z.mod_pos_bound. lia. Qed.

Lemma wf_state_edit_acq rot s : wf_state s -> wf_state (edit_acq rot s).
Proof.
  intros (Htx & Hrx & Hutx & Hurx & Hsh & Hicg).
  unfold wf_state, edit_acq.
  repeat case_match; cbn; split_and!;
    first [assumption | apply to_u32_is_u32 | unfold is_u32; lia].
Qed.

Lemma wf_state_edit_axis rot s : wf_state s -> wf_state (edit_axis rot s).
Proof. intros Hok. unfold edit_axis. repeat case_match; exact Hok. Qed.

Lemma wf_state_receive frame s :
  length frame = Z.to_nat PACKET_SIZE -> Forall is_u8 frame ->
  wf_state s ->
  wf_state (snd (readDataAndRequestNext frame s)).
Proof.
  intros Hlen Hu8 (Htx & Hrx & Hutx & Hurx & Hsh & Hicg).
  unfold wf_state, readDataAndRequestNext. cbn.
  rewrite (memcpy_full _ _ _ Hrx Hlen). auto 10.
Qed.

Lemma wf_state_applyDark s :
  wf_state s -> wf_state (applyDarkSpectrumCorrection s).
Proof.
  intros Hok. unfold applyDarkSpectrumCorrection.
  destruct (darkSpectrumSaved s); exact Hok.
Qed.

Lemma wf_state_loop inp :
  wf_inputs inp -> maintains wf_state (loop inp).
Proof.
  intros (_ & Hlen & Hu8).
  unfold loop, loop_navigation, loop_acquisition, loop_redraw,
    drawCurrentScreen, scan_corrected, scan_raw, handleMainMenuInput,
    handleSettingsInput, handleSettingsAcqInput, handleSettingsAxisInput,
    handleAcquisitionInput, changeState, saveDarkSpectrum.
  maintains_with ltac:(idtac; lazymatch goal with
    | |- maintains _ (modify buildCommand) =>
        apply maintains_modify, wf_state_buildCommand
    | |- maintains _ (modify (edit_acq _)) =>
        apply maintains_modify, wf_state_edit_acq
    | |- maintains _ (modify (edit_axis _)) =>
        apply maintains_modify, wf_state_edit_axis
    | |- maintains _ (modify applyDarkSpectrumCorrection) =>
        apply maintains_modify, wf_state_applyDark
    | |- maintains _ (readDataAndRequestNext _) =>
        intros s Hs; apply wf_state_receive; assumption
    | |- maintains _ (sendDataViaWiFi _) =>
        apply maintains_pure, after_sendDataViaWiFi
    | |- maintains _ (drawGraph_GFX _) =>
        apply maintains_pure, after_drawGraph_GFX
    end).
Qed.

Lemma wf_state_initial : wf_state initial_state.
Proof.
  apply wf_state_buildCommand. unfold wf_state. cbn.
  rewrite !zeros_length.
  split_and!; first [apply zeros_u8 | unfold is_u32; lia | reflexivity].
Qed.

(** Every state reached from power-up with well-formed inputs is
    well-formed, with spectra of the size of the detector. *)
Lemma reachable_wf ts : forall s,
  Forall (fun t => match t with Irq => True | Poll inp => wf_inputs inp end) ts ->
  wf_state s -> spectra_ok s ->
  wf_state (after (run ts) s) /\ spectra_ok (after (run ts) s).
Proof.
  induction ts as [|t ts IH]; intros s Hin Hwf Hok; [split; assumption|].
  apply Forall_cons in Hin as [Ht Hts].
  cbn [run]. rewrite after_seq. apply IH; [exact Hts| |].
  - destruct t as [|inp]; cbn [tick]; [exact Hwf|].
    apply wf_state_loop; assumption.
  - destruct t as [|inp]; cbn [tick]; [exact Hok|].
    apply maintains_spectra_ok_loop, Hok.
Qed.

(* ================================================================== *)
(** * Further properties of the sketch

    What the user interface keeps true along every run from power-up,
    what reaches the bus and the display, the geometry of the graph, the
    gestures of the button, and the shape of the arrays. *)
(* ================================================================== *)

(** ** Invariants of the user interface *)

Lemma build_frame_canon sh icg tx :
  length tx = Z.to_nat PACKET_SIZE -> build_frame sh icg tx = command_frame sh icg.
Proof.
  intros Hlen. unfold command_frame.
  rewrite (build_frame_eq _ _ _ Hlen), (build_frame_eq _ _ (zeros PACKET_SIZE));
    [reflexivity|apply zeros_length].
Qed.

Lemma build_frame_length sh icg tx :
  length tx = Z.to_nat PACKET_SIZE ->
  length (build_frame sh icg tx) = Z.to_nat PACKET_SIZE.
Proof. intros Hlen. apply (build_frame_wf sh icg tx Hlen). Qed.

(** A cursor moved by any amount lands on an item of its menu. *)
Lemma move_selection_range sel rot max :
  0 <= max -> 0 <= move_selection sel rot max <= max.
Proof.
  intros Hmax. unfold move_selection.
  destruct (Z.gtb_spec (sel + rot) max); [cbn; lia|].
  destruct (Z.ltb_spec (sel + rot) 0); lia.
Qed.

(** An edit step of the acquisition settings changes the periods only,
    and keeps them above their minimums. *)
Lemma edit_acq_spec rot s :
  periods_ok s ->
  exists sh icg,
    (40 <= sh < 2 ^ 32 /\ 32000 <= icg < 2 ^ 32) /\
    edit_acq rot s = set_ICG_PERIOD icg (set_SH_PERIOD sh s).
Proof.
  intros [Hsh Hicg]. unfold edit_acq.
  pose proof (to_u32_is_u32 (SH_PERIOD s + (if rot >? 0 then 100 else -100)))
    as H1.
  pose proof (to_u32_is_u32
                (ICG_PERIOD s + (if rot >? 0 then 100 else -100) * 10)) as H2.
  unfold is_u32 in H1, H2.
  destruct (settingsAcqSelection s =? 0).
  - cbn [SH_PERIOD set_SH_PERIOD].
    destruct (Z.ltb_spec
                (to_u32 (SH_PERIOD s + (if rot >? 0 then 100 else -100))) 40).
    + exists 40, (ICG_PERIOD s). split; [lia|reflexivity].
    + exists (to_u32 (SH_PERIOD s + (if rot >? 0 then 100 else -100))),
        (ICG_PERIOD s).
      split; [lia|reflexivity].
  - destruct (settingsAcqSelection s =? 1).
    + cbn [ICG_PERIOD set_ICG_PERIOD].
      destruct (Z.ltb_spec
                  (to_u32 (ICG_PERIOD s + (if rot >? 0 then 100 else -100) * 10))
                  32000).
      * exists (SH_PERIOD s), 32000. split; [lia|reflexivity].
      * exists (SH_PERIOD s),
          (to_u32 (ICG_PERIOD s + (if rot >? 0 then 100 else -100) * 10)).
        split; [lia|reflexivity].
    + exists (SH_PERIOD s), (ICG_PERIOD s). split; [lia|reflexivity].
Qed.

(** An edit step of the axis settings changes the plot window only, and
    keeps it inside the detector and the ADC range. *)
Lemma constrain_range amt low high :
  low <= high -> low <= constrain amt low high <= high.
Proof.
  intros H. unfold constrain.
  destruct (Z.ltb_spec amt low); [lia|].
  destruct (Z.gtb_spec amt high); lia.
Qed.

Lemma edit_axis_spec rot s :
  axis_ok s ->
  exists pmin pmax amin amax,
    (0 <= pmin /\ pmin + 10 <= pmax /\ pmax <= PIXEL_COUNT - 1 /\
     0 <= amin /\ amin + 100 <= amax /\ amax <= ADC_MAX_VALUE) /\
    edit_axis rot s =
      set_plot_adc_max amax
        (set_plot_adc_min amin
           (set_plot_pixel_max pmax (set_plot_pixel_min pmin s))).
Proof.
  intros (H1 & H2 & H3 & H4 & H5 & H6).
  unfold edit_axis.
  destruct (settingsAxisSelection s =? 1);
    [|destruct (settingsAxisSelection s =? 2);
      [|destruct (settingsAxisSelection s =? 3);
        [|destruct (settingsAxisSelection s =? 4)]]];
    cbn [plot_pixel_min plot_pixel_max plot_adc_min plot_adc_max
         set_plot_pixel_min set_plot_pixel_max set_plot_adc_min
         set_plot_adc_max].
  - match goal with
    | |- context [constrain ?a ?l ?h] =>
        pose proof (constrain_range a l h ltac:(lia));
        exists (constrain a l h), (plot_pixel_max s), (plot_adc_min s),
          (plot_adc_max s)
    end.
    split; [lia|reflexivity].
  - match goal with
    | |- context [constrain ?a ?l ?h] =>
        pose proof (constrain_range a l h ltac:(unfold PIXEL_COUNT in *; lia));
        exists (plot_pixel_min s), (constrain a l h), (plot_adc_min s),
          (plot_adc_max s)
    end.
    split; [lia|reflexivity].
  - match goal with
    | |- context [constrain ?a ?l ?h] =>
        pose proof (constrain_range a l h ltac:(lia));
        exists (plot_pixel_min s), (plot_pixel_max s), (constrain a l h),
          (plot_adc_max s)
    end.
    split; [lia|reflexivity].
  - match goal with
    | |- context [constrain ?a ?l ?h] =>
        pose proof (constrain_range a l h ltac:(unfold ADC_MAX_VALUE in *; lia));
        exists (plot_pixel_min s), (plot_pixel_max s), (plot_adc_min s),
          (constrain a l h)
    end.
    split; [lia|reflexivity].
  - exists (plot_pixel_min s), (plot_pixel_max s), (plot_adc_min s),
      (plot_adc_max s).
    split; [lia|reflexivity].
Qed.

(** The editors and the cursor arithmetic stay folded while a handler is
    evaluated; the lemmas above say what they do. *)
Arguments edit_acq : simpl never.
Arguments edit_axis : simpl never.
Arguments move_selection : simpl never.

(** Case analysis on the tests of a handler, comparisons first. *)
Ltac split_ifs :=
  repeat (match goal with
          | |- context [?a =? ?c] => destruct (Z.eqb_spec a c)
          | |- context [?a <? ?c] => destruct (Z.ltb_spec a c)
          | |- context [?a >? ?c] => destruct (Z.gtb_spec a c)
          | |- context [if ?b then _ else _] => destruct b
          end; cbn).

(** A moved cursor becomes a variable known to be on an item. *)
Ltac name_moves :=
  repeat match goal with
  | |- context [move_selection ?a ?b ?c] =>
      let H := fresh "Hm" in
      pose proof (move_selection_range a b c ltac:(lia)) as H;
      generalize dependent (move_selection a b c); intros
  end.

Ltac ui_ok_leaf :=
  first
    [ lia
    | assumption
    | discriminate
    | apply build_frame_length; assumption
    | apply build_frame_canon; assumption
    | intros ?;
      first [ discriminate | lia | apply build_frame_canon; assumption
            | left; split; [reflexivity|lia]
            | right; split; [reflexivity|lia] ]
    | left; split; [reflexivity|lia]
    | right; split; [reflexivity|lia] ].

Ltac ui_ok_start s inp :=
  let rot := fresh "rot" in
  destruct_state s; destruct inp as [rot ? ? ? ? ?];
  unfold ui_ok, cursors_ok, axis_ok, periods_ok, editing_ok, command_ok in *;
  cbn in *; subst.

Ltac not_editing He :=
  match type of He with
  | ?edit = true -> _ =>
      assert (edit = false) as -> by
        (destruct edit; [|reflexivity];
         destruct (He eq_refl) as [[? _]|[? _]]; discriminate)
  end.

Lemma ui_ok_navigation inp s : ui_ok s -> ui_ok (after (loop_navigation inp) s).
Proof.
  intros (Hc & Ha & Hp & He & Hlen & Hfresh).
  unfold after, loop_navigation, switch_state.
  destruct (currentState s) eqn:Hcs.
  - (* main menu *)
    ui_ok_start s inp. not_editing He.
    unfold handleMainMenuInput, changeState, requestFirstScan, seq_cmd, when,
      ite, switch_state, modify, emit, skip,
      MAIN_MENU_MAX, SETTINGS_MAX, SETTINGS_ACQ_MAX, SETTINGS_AXIS_MAX in *.
    cbn. name_moves.
    split_ifs; repeat split; ui_ok_leaf.
  - (* settings *)
    ui_ok_start s inp. not_editing He.
    unfold handleSettingsInput, changeState, requestFirstScan, seq_cmd, when,
      ite, switch_state, modify, emit, skip,
      MAIN_MENU_MAX, SETTINGS_MAX, SETTINGS_ACQ_MAX, SETTINGS_AXIS_MAX in *.
    cbn. name_moves.
    split_ifs; repeat split; ui_ok_leaf.
  - (* acquisition settings *)
    destruct (edit_acq_spec (rotation inp) s Hp) as (sh' & icg' & Hp' & Heq).
    ui_ok_start s inp.
    unfold handleSettingsAcqInput, changeState, requestFirstScan, seq_cmd, when,
      ite, switch_state, modify, emit, skip,
      MAIN_MENU_MAX, SETTINGS_MAX, SETTINGS_ACQ_MAX, SETTINGS_AXIS_MAX in *.
    destruct edit;
      [destruct (He eq_refl) as [[_ Hsas]|[? _]]; [|discriminate]|]; clear He;
      cbn; rewrite ?Heq; cbn; name_moves;
      split_ifs; repeat split; ui_ok_leaf.
  - (* axis settings *)
    destruct (edit_axis_spec (rotation inp) s Ha)
      as (pmin' & pmax' & amin' & amax' & Ha' & Heq).
    ui_ok_start s inp.
    unfold handleSettingsAxisInput, changeState, requestFirstScan, seq_cmd, when,
      ite, switch_state, modify, emit, skip,
      MAIN_MENU_MAX, SETTINGS_MAX, SETTINGS_ACQ_MAX, SETTINGS_AXIS_MAX in *.
    destruct edit;
      [destruct (He eq_refl) as [[? _]|[_ Hsxs]]; [discriminate|]|]; clear He;
      cbn; rewrite ?Heq; cbn; name_moves;
      split_ifs; repeat split; ui_ok_leaf.
  - (* continuous *)
    ui_ok_start s inp. not_editing He.
    unfold handleAcquisitionInput, changeState, requestFirstScan, seq_cmd, when,
      ite, switch_state, modify, emit, skip in *.
    cbn. split_ifs; repeat split; ui_ok_leaf.
  - (* single *)
    ui_ok_start s inp. not_editing He.
    unfold changeState, requestFirstScan, seq_cmd, when,
      ite, switch_state, modify, emit, skip in *.
    cbn. split_ifs; repeat split; ui_ok_leaf.
  - (* dark *)
    ui_ok_start s inp. not_editing He.
    unfold changeState, saveDarkSpectrum, requestFirstScan, seq_cmd, when,
      ite, switch_state, modify, emit, skip in *.
    cbn. split_ifs; repeat split; ui_ok_leaf.
Qed.

Lemma ui_view_applyDark s :
  ui_view (applyDarkSpectrumCorrection s) = ui_view s.
Proof.
  unfold applyDarkSpectrumCorrection. destruct (darkSpectrumSaved s); reflexivity.
Qed.

Lemma ui_view_acquisition inp : preserves ui_view (loop_acquisition inp).
Proof.
  assert (Hscan : forall mode, preserves ui_view (scan_corrected inp mode)).
  { intros mode s. unfold after. rewrite scan_corrected_spec. cbn [snd].
    rewrite ui_view_applyDark. reflexivity. }
  assert (Hraw : preserves ui_view (scan_raw inp)).
  { intros s. unfold after. rewrite scan_raw_spec. reflexivity. }
  unfold loop_acquisition.
  preserves_with ltac:(first [apply Hscan | apply Hraw]).
Qed.

Lemma ui_view_redraw : preserves ui_view loop_redraw.
Proof.
  unfold loop_redraw, drawCurrentScreen.
  preserves_with ltac:(idtac; lazymatch goal with
    | |- preserves _ (modify applyDarkSpectrumCorrection) =>
        apply preserves_modify, ui_view_applyDark
    | |- preserves _ (drawGraph_GFX _) => intros s; reflexivity
    end).
Qed.

Lemma ui_ok_view s s' : ui_view s' = ui_view s -> ui_ok s -> ui_ok s'.
Proof.
  unfold ui_view. intros Hv.
  injection Hv as Hcs Hsh Hicg H1 H2 H3 H4 Htx Hmm Hss Hsas Hsxs Hed.
  unfold ui_ok, cursors_ok, axis_ok, periods_ok, editing_ok, command_ok.
  rewrite Hcs, Hsh, Hicg, H1, H2, H3, H4, Htx, Hmm, Hss, Hsas, Hsxs, Hed.
  exact (fun H => H).
Qed.

(** One iteration of [loop] keeps the interface consistent. *)
Lemma ui_ok_loop inp : maintains ui_ok (loop inp).
Proof.
  intros s Hs. rewrite loop_after.
  apply (ui_ok_view (after (loop_front inp) s)).
  - rewrite ui_view_redraw, ui_view_acquisition. reflexivity.
  - unfold loop_front. rewrite after_seq. apply ui_ok_navigation.
    rewrite after_front_pre. destruct (client_event inp); exact Hs.
Qed.

Lemma ui_ok_initial : ui_ok initial_state.
Proof.
  unfold ui_ok, cursors_ok, axis_ok, periods_ok, editing_ok, command_ok,
    initial_state, buildCommand. cbn.
  rewrite build_frame_length by apply zeros_length.
  unfold MAIN_MENU_MAX, SETTINGS_MAX, SETTINGS_ACQ_MAX, SETTINGS_AXIS_MAX,
    PIXEL_COUNT, ADC_MAX_VALUE.
  repeat split; first [lia | discriminate].
Qed.

(** An invariant of [loop] that the interrupt does not touch holds along
    every run. *)
Lemma run_invariant (I : State -> Prop) :
  (forall inp, maintains I (loop inp)) ->
  (forall s, I s -> I (onDataReady s)) ->
  forall ts s, I s -> I (after (run ts) s).
Proof.
  intros Hloop Hirq ts. induction ts as [|t ts IH]; intros s Hs; [exact Hs|].
  cbn [run]. rewrite after_seq. apply IH.
  destruct t as [|inp]; cbn [tick].
  - rewrite after_modify. apply Hirq, Hs.
  - apply Hloop, Hs.
Qed.

Lemma ui_ok_run ts : ui_ok (after (run ts) initial_state).
Proof.
  apply run_invariant; [exact ui_ok_loop| |exact ui_ok_initial].
  intros s Hs. exact Hs.
Qed.

(** ** What goes on the bus *)

Lemma decode_header_command_frame sh icg :
  is_u32 sh -> is_u32 icg ->
  length (command_frame sh icg) = Z.to_nat PACKET_SIZE /\
  decode_header (command_frame sh icg) =
    {| h_magic := [0x45; 0x52];
       h_shPeriod := sh;
       h_icgPeriod := icg;
       h_mode := 0x01;
       h_integrations := NUM_INTEGRATIONS |}.
Proof.
  intros Hsh Hicg. unfold command_frame. split.
  - apply build_frame_length, zeros_length.
  - rewrite (build_frame_eq _ _ _ (zeros_length PACKET_SIZE)).
    unfold decode_header, field. cbn [app drop take].
    rewrite (word32_bytes _ Hsh), (word32_bytes _ Hicg). reflexivity.
Qed.

Ltac elem_cases H :=
  repeat first
    [ apply elem_of_nil in H; contradiction
    | apply elem_of_cons in H as [->|H] ].

(** The acquisition part of [loop] puts nothing on the bus but the
    transmit buffer as it finds it. *)
Lemma acquisition_bus inp s e tx :
  e ∈ events (loop_acquisition inp) s -> bus_frame e = Some tx ->
  tx = tx_buffer s /\ is_acquisition (currentState s) = true.
Proof.
  unfold events, loop_acquisition, switch_state.
  destruct s as [cs rs sh icg xu ppmin ppmax pamin pamax tx0 rx px raw dark
                   saved ready waiting mm ss sas sxs edit].
  destruct inp as [rot clk lp cev cup frame].
  unfold scan_corrected, scan_raw, readDataAndRequestNext, sendDataViaWiFi,
    requestFirstScan, drawGraph_GFX, applyDarkSpectrumCorrection, seq_cmd,
    when, ite, modify, emit, skip.
  destruct cs; cbn; intros He Hb; revert He;
    split_ifs; intros He; elem_cases He; cbn in Hb; try discriminate Hb;
    split; congruence.
Qed.

(** The navigation part puts on the bus the command frame of the current
    periods, when a mode is entered, and nothing else. *)
Lemma front_bus inp s e tx :
  length (tx_buffer s) = Z.to_nat PACKET_SIZE ->
  e ∈ events (loop_front inp) s -> bus_frame e = Some tx ->
  tx = command_frame (SH_PERIOD s) (ICG_PERIOD s).
Proof.
  intros Hlen. unfold events, loop_front, loop_navigation, switch_state.
  destruct s as [cs rs sh icg xu ppmin ppmax pamin pamax tx0 rx px raw dark
                   saved ready waiting mm ss sas sxs edit].
  cbn [tx_buffer SH_PERIOD ICG_PERIOD] in *.
  destruct inp as [rot clk lp cev cup frame].
  unfold handleMainMenuInput, handleSettingsInput, handleSettingsAcqInput,
    handleSettingsAxisInput, handleAcquisitionInput, changeState,
    saveDarkSpectrum, requestFirstScan, seq_cmd, when, ite, switch_state,
    modify, emit, skip.
  destruct cs, cev; cbn; intros He Hb; revert He;
    split_ifs; intros He; elem_cases He; cbn in Hb; try discriminate Hb;
    assert (Htx : tx = build_frame sh icg tx0) by congruence;
    rewrite Htx; apply build_frame_canon; assumption.
Qed.

Lemma currentState_edit_acq rot s :
  currentState (edit_acq rot s) = currentState s.
Proof. unfold edit_acq. repeat case_match; reflexivity. Qed.

Lemma currentState_edit_axis rot s :
  currentState (edit_axis rot s) = currentState s.
Proof. unfold edit_axis. repeat case_match; reflexivity. Qed.

(** A mode is not entered in the iteration that edits a period. *)
Lemma front_periods inp s :
  is_acquisition (currentState (after (loop_front inp) s)) = true ->
  periods (after (loop_front inp) s) = periods s.
Proof.
  unfold after, loop_front, loop_navigation, switch_state, periods.
  destruct_state s. destruct inp as [rot clk lp cev cup frame].
  unfold handleMainMenuInput, handleSettingsInput, handleSettingsAcqInput,
    handleSettingsAxisInput, handleAcquisitionInput, changeState,
    saveDarkSpectrum, requestFirstScan, seq_cmd, when, ite, switch_state,
    modify, emit, skip.
  destruct cs, cev; cbn;
    split_ifs; rewrite ?currentState_edit_acq, ?currentState_edit_axis; cbn;
    intros He; try discriminate He; try reflexivity.
  all: unfold edit_axis; cbn; repeat case_match; reflexivity.
Qed.

(** X1. Along every run from power-up, each frame that an iteration of
    [loop] puts on the SPI bus, by the kick-start write or by an
    exchange, is the command frame of the periods in force in that
    iteration: [PACKET_SIZE] bytes whose header reads back as the magic,
    [SH_PERIOD], [ICG_PERIOD], mode 1 and one integration; and these
    periods are never below 40 and 32000. *)
Theorem X1_bus_frames_carry_the_periods
    (ts : list Tick) (inp : Inputs) (e : Event) (tx : list Z) :
  let s := after (run ts) initial_state in
  e ∈ events (loop inp) s -> bus_frame e = Some tx ->
  tx = command_frame (SH_PERIOD s) (ICG_PERIOD s) /\
  length tx = Z.to_nat PACKET_SIZE /\
  decode_header tx =
    {| h_magic := [0x45; 0x52];
       h_shPeriod := SH_PERIOD s;
       h_icgPeriod := ICG_PERIOD s;
       h_mode := 0x01;
       h_integrations := NUM_INTEGRATIONS |} /\
  40 <= SH_PERIOD s < 2 ^ 32 /\ 32000 <= ICG_PERIOD s < 2 ^ 32.
Proof.
  intros s He Hb.
  pose proof (ui_ok_run ts) as Hok. fold s in Hok.
  pose proof Hok as (Hc & Ha & [Hsh Hicg] & Hed & Hlen & Hfresh).
  assert (Htx : tx = command_frame (SH_PERIOD s) (ICG_PERIOD s)).
  { pose proof (loop_events inp s) as Hev. cbv zeta in Hev.
    rewrite Hev in He. clear Hev.
    apply elem_of_app in He as [He|He]; [|apply elem_of_app in He as [He|He]].
    - exact (front_bus inp s e tx Hlen He Hb).
    - destruct (acquisition_bus _ _ _ _ He Hb) as [-> Hacq].
      assert (Hok1 : ui_ok (after (loop_front inp) s)).
      { unfold loop_front. rewrite after_seq. apply ui_ok_navigation.
        rewrite after_front_pre.
        destruct (client_event inp); exact Hok. }
      destruct Hok1 as (_ & _ & _ & _ & _ & Hfresh1).
      rewrite (Hfresh1 Hacq).
      pose proof (front_periods inp s Hacq) as Hp. unfold periods in Hp.
      congruence.
    - set (s2 := after (loop_acquisition inp) (after (loop_front inp) s)) in *.
      destruct (is_acquisition (currentState s2)) eqn:Hs2.
      + unfold events in He. rewrite (loop_redraw_acquisition _ Hs2) in He.
        by apply elem_of_nil in He.
      + pose proof (emits_loop_redraw_menu _ _ Hs2 He) as Hm.
        destruct e; discriminate. }
  assert (H1 : is_u32 (SH_PERIOD s)) by (unfold is_u32; lia).
  assert (H2 : is_u32 (ICG_PERIOD s)) by (unfold is_u32; lia).
  destruct (decode_header_command_frame _ _ H1 H2) as [Hl Hd].
  rewrite Htx. auto.
Qed.

(** Entering the continuous mode at power-up writes the command frame of
    the periods 5000000 and 5000000. *)
Lemma X1_bus_frames_carry_the_periods_witness :
  h_shPeriod (decode_header (command_frame 5000000 5000000)) = 5000000 /\
  h_icgPeriod (decode_header (command_frame 5000000 5000000)) = 5000000.
Proof.
  assert (He : Spi_writeBytes (command_frame 5000000 5000000)
               ∈ events (loop click) (after (run []) initial_state)).
  { apply (list_elem_of_lookup_2 _ 2%nat). vm_compute. reflexivity. }
  destruct (X1_bus_frames_carry_the_periods [] click _ _ He eq_refl)
    as (_ & _ & Hd & _).
  rewrite Hd. split; reflexivity.
Defined.

(** ** Menus *)

(** After the navigation part, the acquisition and redraw parts leave
    the mode, the cursors and the settings alone. *)
Lemma loop_ui_view inp s :
  ui_view (after (loop inp) s) = ui_view (after (loop_front inp) s).
Proof.
  rewrite loop_after, ui_view_redraw, ui_view_acquisition. reflexivity.
Qed.

Lemma front_click_main inp s :
  cursors_ok s -> currentState s = STATE_MAIN_MENU -> clicked inp = true ->
  let s1 := after (loop_front inp) s in
  menu_choice (mainMenuSelection s1) = Some (currentState s1).
Proof.
  intros (Hm & _) Hcs Hclk.
  unfold after, loop_front, loop_navigation, switch_state.
  destruct_state s. destruct inp as [rot clk lp cev cup frame].
  cbn in Hclk. subst cs clk. unfold MAIN_MENU_MAX in *.
  unfold handleMainMenuInput, changeState, requestFirstScan, seq_cmd, when,
    ite, switch_state, modify, emit, skip, MAIN_MENU_MAX.
  destruct cev, (rot =? 0); cbn; name_moves;
    repeat match goal with
           | |- context [?a =? ?c] => destruct (Z.eqb_spec a c); cbn
           end;
    first [subst; reflexivity | lia].
Qed.

(** X2. Along every run from power-up each menu cursor stays on an item
    of its menu, whatever the encoder does; so a click in the main menu
    always leaves it, for the mode or the settings screen under the
    cursor. *)
Theorem X2_menu_click_enters (ts : list Tick) (inp : Inputs) :
  let s := after (run ts) initial_state in
  let s' := after (loop inp) s in
  cursors_ok s /\
  (currentState s = STATE_MAIN_MENU -> clicked inp = true ->
   menu_choice (mainMenuSelection s') = Some (currentState s') /\
   currentState s' <> STATE_MAIN_MENU).
Proof.
  intros s s'. pose proof (ui_ok_run ts) as (Hc & _). fold s in Hc.
  split; [exact Hc|]. intros Hcs Hclk.
  pose proof (loop_ui_view inp s) as Hv. fold s' in Hv.
  unfold ui_view in Hv.
  injection Hv as Hst _ _ _ _ _ _ _ Hmm _ _ _ _.
  pose proof (front_click_main inp s Hc Hcs Hclk) as Hch. cbv zeta in Hch.
  rewrite <- Hst, <- Hmm in Hch. split; [exact Hch|].
  intros Habs. rewrite Habs in Hch. unfold menu_choice in Hch.
  repeat case_match; discriminate.
Qed.

(** At power-up a click leaves the main menu. *)
Lemma X2_menu_click_enters_witness :
  currentState (after (loop click) initial_state) <> STATE_MAIN_MENU.
Proof.
  exact (proj2 (proj2 (X2_menu_click_enters [] click) eq_refl eq_refl)).
Defined.

(** ** The edit mode *)

(** What the editors write: the periods, or the bounds of the plot. *)
Lemma edit_acq_shape rot s :
  exists sh icg, edit_acq rot s = set_ICG_PERIOD icg (set_SH_PERIOD sh s).
Proof.
  exists (SH_PERIOD (edit_acq rot s)), (ICG_PERIOD (edit_acq rot s)).
  destruct s. unfold edit_acq. cbn. repeat case_match; reflexivity.
Qed.

Lemma edit_axis_shape rot s :
  exists pmin pmax amin amax,
    edit_axis rot s =
      set_plot_adc_max amax
        (set_plot_adc_min amin
           (set_plot_pixel_max pmax (set_plot_pixel_min pmin s))).
Proof.
  exists (plot_pixel_min (edit_axis rot s)), (plot_pixel_max (edit_axis rot s)),
    (plot_adc_min (edit_axis rot s)), (plot_adc_max (edit_axis rot s)).
  destruct s. unfold edit_axis. cbn. repeat case_match; reflexivity.
Qed.

Ltac open_edits :=
  repeat match goal with
  | |- context [edit_acq ?r ?x] =>
      destruct (edit_acq_shape r x) as (? & ? & ->)
  | |- context [edit_axis ?r ?x] =>
      destruct (edit_axis_shape r x) as (? & ? & ? & ? & ->)
  end.

(** In the edit mode the navigation part moves no cursor and leaves the
    screen where it is. *)
Lemma front_editing inp s :
  editing_ok s -> settingsEditMode s = true ->
  let s1 := after (loop_front inp) s in
  currentState s1 = currentState s /\ cursors s1 = cursors s.
Proof.
  intros He Hedit. specialize (He Hedit).
  unfold after, loop_front, loop_navigation, switch_state.
  destruct_state s. destruct inp as [rot clk lp cev cup frame].
  cbn [rotation clicked longPress client_event].
  cbn in Hedit. subst edit.
  destruct He as [[-> Hsel]|[-> Hsel]];
    unfold handleSettingsAcqInput, handleSettingsAxisInput, seq_cmd, when,
      ite, switch_state, modify, emit, skip, cursors;
    destruct cev, clk, (rot =? 0); cbn; open_edits; split; reflexivity.
Qed.

(** Out of the edit mode, or without a rotation, the navigation part
    changes no setting. *)
Lemma front_settings inp s :
  settingsEditMode s = false \/ rotation inp = 0 ->
  settings (after (loop_front inp) s) = settings s.
Proof.
  unfold after, loop_front, loop_navigation, switch_state.
  destruct_state s. destruct inp as [rot clk lp cev cup frame]. cbn.
  intros Hq.
  assert (Hcase : edit = false \/ (rot =? 0) = true).
  { destruct Hq as [->| ->]; [left|right]; reflexivity. }
  clear Hq.
  unfold handleMainMenuInput, handleSettingsInput, handleSettingsAcqInput,
    handleSettingsAxisInput, handleAcquisitionInput, changeState,
    saveDarkSpectrum, requestFirstScan, seq_cmd, when, ite, switch_state,
    modify, emit, skip.
  destruct Hcase as [->|Hrot]; [|rewrite Hrot];
    destruct cs, cev; cbn; split_ifs; reflexivity.
Qed.

Lemma loop_settings inp s :
  settings (after (loop inp) s) = settings (after (loop_front inp) s).
Proof.
  pose proof (loop_ui_view inp s) as Hv. unfold ui_view in Hv.
  unfold settings. congruence.
Qed.

Lemma loop_cursors inp s :
  cursors (after (loop inp) s) = cursors (after (loop_front inp) s).
Proof.
  pose proof (loop_ui_view inp s) as Hv. unfold ui_view in Hv.
  unfold cursors. congruence.
Qed.

Lemma loop_currentState inp s :
  currentState (after (loop inp) s) = currentState (after (loop_front inp) s).
Proof.
  pose proof (loop_ui_view inp s) as Hv. unfold ui_view in Hv. congruence.
Qed.

(** X3. Along every run from power-up the edit mode is on only in the
    acquisition settings with the cursor on one of the two periods, or in
    the axis settings with the cursor on one of the four bounds. While it
    is on, an iteration leaves the screen and every cursor where they
    are; and an iteration changes a period or a bound of the plot only
    when it starts in the edit mode and the encoder was turned. *)
Theorem X3_edit_mode (ts : list Tick) (inp : Inputs) :
  let s := after (run ts) initial_state in
  let s' := after (loop inp) s in
  (settingsEditMode s = true ->
   ((currentState s = STATE_SETTINGS_ACQ /\ 0 <= settingsAcqSelection s <= 1) \/
    (currentState s = STATE_SETTINGS_AXIS /\
     1 <= settingsAxisSelection s <= 4)) /\
   currentState s' = currentState s /\ cursors s' = cursors s) /\
  (settings s' <> settings s ->
   settingsEditMode s = true /\ rotation inp <> 0).
Proof.
  intros s s'. pose proof (ui_ok_run ts) as (_ & _ & _ & He & _). fold s in He.
  split.
  - intros Hedit. split; [exact (He Hedit)|].
    unfold s'. rewrite loop_currentState, loop_cursors.
    apply front_editing; assumption.
  - intros Hne.
    destruct (settingsEditMode s) eqn:Hedit.
    + split; [reflexivity|]. intros Hrot. apply Hne.
      unfold s'. rewrite loop_settings. apply front_settings. right; exact Hrot.
    + exfalso. apply Hne.
      unfold s'. rewrite loop_settings. apply front_settings. left; exact Hedit.
Qed.

(** With the SH-period editor open, a step of the encoder changes the
    period and nothing else moves. *)
Lemma X3_edit_mode_witness :
  let s := after (run open_sh_editor) initial_state in
  let s' := after (loop turn_right) s in
  currentState s' = STATE_SETTINGS_ACQ /\ cursors s' = cursors s /\
  settingsEditMode s = true /\ rotation turn_right <> 0.
Proof.
  intros s s'.
  destruct (X3_edit_mode open_sh_editor turn_right) as [H1 H2].
  assert (Hedit : settingsEditMode s = true) by (vm_compute; reflexivity).
  destruct (H1 Hedit) as (_ & Hcs & Hcur).
  assert (Hne : settings s' <> settings s) by (vm_compute; discriminate).
  destruct (H2 Hne) as [_ Hrot].
  split; [|split; [|split]]; assumption.
Defined.

(** ** One item at a time *)

Lemma move_selection_cyclic sel rot max :
  0 <= sel <= max -> -1 <= rot <= 1 ->
  move_selection sel rot max = (sel + rot) mod (max + 1).
Proof.
  intros Ha Hr. unfold move_selection.
  destruct (Z.gtb_spec (sel + rot) max) as [Hgt|Hle].
  - replace (sel + rot) with (max + 1) by lia.
    rewrite Z.mod_same by lia. reflexivity.
  - destruct (Z.ltb_spec (sel + rot) 0) as [Hlt|Hge].
    + replace (sel + rot) with (max + (-1) * (max + 1)) by lia.
      rewrite Z.mod_add by lia. rewrite Z.mod_small by lia. reflexivity.
    + rewrite Z.mod_small by lia. reflexivity.
Qed.

Lemma decode_rotation_step x b :
  -1 <= (decode_rotation x b).1 <= 1 /\
  ((decode_rotation x b).1 = 0 <-> encoderChanged x = false).
Proof.
  unfold decode_rotation. destruct (encoderChanged x); cbn [fst].
  - destruct (to_i16 (readEncoder x) >? lastEncoderValue b);
      (split; [lia|]); split; intros; discriminate.
  - split; [lia|]. split; reflexivity.
Qed.

Lemma decode_gesture_rotation x b cev cup frame :
  rotation (decode_gesture x b cev cup frame).1 = (decode_rotation x b).1.
Proof.
  unfold decode_gesture. destruct (decode_rotation x b) as [rot b1].
  destruct (decode_button x b1) as [[[clk lp] evs] b2]. reflexivity.
Qed.

(** The cursor of the menu on display after the navigation part. *)
Lemma front_cursor inp s :
  cursors_ok s -> -1 <= rotation inp <= 1 ->
  let s1 := after (loop_front inp) s in
  (currentState s = STATE_MAIN_MENU ->
   mainMenuSelection s1 =
     (mainMenuSelection s + rotation inp) mod (MAIN_MENU_MAX + 1)) /\
  (currentState s = STATE_SETTINGS ->
   settingsSelection s1 =
     (settingsSelection s + rotation inp) mod (SETTINGS_MAX + 1)) /\
  (currentState s = STATE_SETTINGS_ACQ -> settingsEditMode s = false ->
   settingsAcqSelection s1 =
     (settingsAcqSelection s + rotation inp) mod (SETTINGS_ACQ_MAX + 1)) /\
  (currentState s = STATE_SETTINGS_AXIS -> settingsEditMode s = false ->
   settingsAxisSelection s1 =
     (settingsAxisSelection s + rotation inp) mod (SETTINGS_AXIS_MAX + 1)).
Proof.
  intros (Hmm & Hss & Hsas & Hsxs) Hrot.
  unfold after, loop_front, loop_navigation, switch_state.
  destruct_state s. destruct inp as [rot clk lp cev cup frame].
  cbn [rotation clicked longPress client_event] in *.
  unfold MAIN_MENU_MAX, SETTINGS_MAX, SETTINGS_ACQ_MAX, SETTINGS_AXIS_MAX in *.
  assert (E1 : move_selection mm rot 3 = (mm + rot) mod 4)
    by exact (move_selection_cyclic mm rot 3 Hmm Hrot).
  assert (E2 : move_selection ss rot 2 = (ss + rot) mod 3)
    by exact (move_selection_cyclic ss rot 2 Hss Hrot).
  assert (E3 : move_selection sas rot 2 = (sas + rot) mod 3)
    by exact (move_selection_cyclic sas rot 2 Hsas Hrot).
  assert (E4 : move_selection sxs rot 5 = (sxs + rot) mod 6)
    by exact (move_selection_cyclic sxs rot 5 Hsxs Hrot).
  assert (Z1 : rot = 0 -> mm = (mm + rot) mod 4 /\ ss = (ss + rot) mod 3 /\
                 sas = (sas + rot) mod 3 /\ sxs = (sxs + rot) mod 6).
  { intros ->. rewrite !Z.add_0_r, !Z.mod_small by lia. auto. }
  split; [|split; [|split]]; intros ->; try intros ->;
    unfold handleMainMenuInput, handleSettingsInput, handleSettingsAcqInput,
      handleSettingsAxisInput, changeState, requestFirstScan, seq_cmd, when,
      ite, switch_state, modify, emit, skip,
      MAIN_MENU_MAX, SETTINGS_MAX, SETTINGS_ACQ_MAX, SETTINGS_AXIS_MAX;
    destruct (Z.eqb_spec rot 0) as [H0|H0];
    try (destruct (Z1 H0) as (? & ? & ? & ?));
    destruct cev, clk; cbn;
    generalize dependent (move_selection mm rot 3);
    generalize dependent (move_selection ss rot 2);
    generalize dependent (move_selection sas rot 2);
    generalize dependent (move_selection sxs rot 5); intros;
    split_ifs; first [reflexivity | assumption | lia].
Qed.

(** X4. Whatever the encoder reports, the gesture handed to the
    navigation carries a rotation of one step at most, none exactly when
    the encoder did not change; and along every run from power-up the
    cursor of the menu on display moves by that step cyclically, from
    the last item to the first and back. *)
Theorem X4_cursor_moves_one_item (ts : list Tick) (x : Sense) (b : Button)
    (cev cup : bool) (frame : list Z) :
  let s := after (run ts) initial_state in
  let inp := (decode_gesture x b cev cup frame).1 in
  let s' := after (loop inp) s in
  -1 <= rotation inp <= 1 /\
  (rotation inp = 0 <-> encoderChanged x = false) /\
  (currentState s = STATE_MAIN_MENU ->
   mainMenuSelection s' =
     (mainMenuSelection s + rotation inp) mod (MAIN_MENU_MAX + 1)) /\
  (currentState s = STATE_SETTINGS ->
   settingsSelection s' =
     (settingsSelection s + rotation inp) mod (SETTINGS_MAX + 1)) /\
  (currentState s = STATE_SETTINGS_ACQ -> settingsEditMode s = false ->
   settingsAcqSelection s' =
     (settingsAcqSelection s + rotation inp) mod (SETTINGS_ACQ_MAX + 1)) /\
  (currentState s = STATE_SETTINGS_AXIS -> settingsEditMode s = false ->
   settingsAxisSelection s' =
     (settingsAxisSelection s + rotation inp) mod (SETTINGS_AXIS_MAX + 1)).
Proof.
  intros s inp s'.
  pose proof (decode_rotation_step x b) as [Hrot Hzero].
  rewrite <- (decode_gesture_rotation x b cev cup frame) in Hrot, Hzero.
  fold inp in Hrot, Hzero.
  pose proof (ui_ok_run ts) as (Hc & _). fold s in Hc.
  pose proof (front_cursor inp s Hc Hrot) as Hfront. cbv zeta in Hfront.
  pose proof (loop_cursors inp s) as Hcur. fold s' in Hcur.
  unfold cursors in Hcur.
  assert (Hmm : mainMenuSelection s'
                = mainMenuSelection (after (loop_front inp) s)) by congruence.
  assert (Hss : settingsSelection s'
                = settingsSelection (after (loop_front inp) s)) by congruence.
  assert (Hsas : settingsAcqSelection s'
                 = settingsAcqSelection (after (loop_front inp) s))
    by congruence.
  assert (Hsxs : settingsAxisSelection s'
                 = settingsAxisSelection (after (loop_front inp) s))
    by congruence.
  rewrite Hmm, Hss, Hsas, Hsxs.
  split; [exact Hrot|]. split; [exact Hzero|]. exact Hfront.
Qed.

(** At power-up a step back of the encoder wraps the cursor of the main
    menu to its last item. *)
Lemma X4_cursor_moves_one_item_witness :
  mainMenuSelection
    (after
       (loop (decode_gesture (turned_to (-1)) (initial_button 0)
                false true []).1)
       initial_state) = 3.
Proof.
  destruct (X4_cursor_moves_one_item [] (turned_to (-1)) (initial_button 0)
              false true []) as (_ & _ & Hmain & _).
  exact (Hmain eq_refl).
Defined.

(** ** The graph *)

Lemma to_i32_small z : - 2 ^ 31 <= z < 2 ^ 31 -> to_i32 z = z.
Proof. intros Hz. unfold to_i32. rewrite Z.mod_small by lia. lia. Qed.

(** [map] on a range that is not empty, with the point inside it and
    ends that fit 16 bits: nothing overflows. *)
Lemma arduino_map_eq x in_min in_max out_min out_max :
  0 <= x - in_min <= in_max - in_min -> 0 < in_max - in_min < 2 ^ 16 ->
  - 2 ^ 15 <= out_min < 2 ^ 15 -> - 2 ^ 15 <= out_max < 2 ^ 15 ->
  - 2 ^ 15 <= out_max - out_min < 2 ^ 15 ->
  arduino_map x in_min in_max out_min out_max =
    ((x - in_min) * (out_max - out_min)) ÷ (in_max - in_min) + out_min /\
  Z.abs (((x - in_min) * (out_max - out_min)) ÷ (in_max - in_min))
    <= Z.abs (out_max - out_min).
Proof.
  intros Hx Hrun Hmin Hmax Hrise.
  set (run := in_max - in_min) in *. set (delta := x - in_min) in *.
  set (rise := out_max - out_min) in *.
  assert (Hq : Z.abs ((delta * rise) ÷ run) <= Z.abs rise).
  { rewrite <- Z.quot_abs by lia. rewrite Z.abs_mul.
    rewrite (Z.abs_eq delta), (Z.abs_eq run) by lia.
    apply Z.quot_le_upper_bound; [lia|]. nia. }
  split; [|exact Hq].
  unfold arduino_map. fold run delta rise.
  rewrite (to_i32_small run) by lia.
  destruct (Z.eqb_spec run 0) as [H0|_]; [lia|].
  rewrite (to_i32_small rise), (to_i32_small delta) by lia.
  assert (Hp : - 2 ^ 31 <= delta * rise < 2 ^ 31) by nia.
  rewrite (to_i32_small (delta * rise)) by exact Hp.
  rewrite (to_i32_small ((delta * rise) ÷ run)) by lia.
  apply to_i32_small. lia.
Qed.

(** Rising [map]: from [out_min] at [in_min] to [out_max] at [in_max],
    never decreasing. *)
Lemma arduino_map_up x in_min in_max out_min out_max :
  0 <= x - in_min <= in_max - in_min -> 0 < in_max - in_min < 2 ^ 16 ->
  - 2 ^ 15 <= out_min < 2 ^ 15 -> - 2 ^ 15 <= out_max < 2 ^ 15 ->
  0 <= out_max - out_min < 2 ^ 15 ->
  arduino_map x in_min in_max out_min out_max =
    ((x - in_min) * (out_max - out_min)) / (in_max - in_min) + out_min /\
  out_min <= arduino_map x in_min in_max out_min out_max <= out_max.
Proof.
  intros Hx Hrun Hmin Hmax Hrise.
  destruct (arduino_map_eq x in_min in_max out_min out_max) as [-> Hq];
    try lia.
  rewrite Z.quot_div_nonneg in * by nia.
  split; [reflexivity|].
  assert (0 <= (x - in_min) * (out_max - out_min) / (in_max - in_min))
    by (apply Z.div_pos; nia).
  lia.
Qed.

(** Falling [map]: from [out_min] at [in_min] down to [out_max]. *)
Lemma arduino_map_down x in_min in_max out_min out_max :
  0 <= x - in_min <= in_max - in_min -> 0 < in_max - in_min < 2 ^ 16 ->
  - 2 ^ 15 <= out_min < 2 ^ 15 -> - 2 ^ 15 <= out_max < 2 ^ 15 ->
  0 <= out_min - out_max < 2 ^ 15 ->
  arduino_map x in_min in_max out_min out_max =
    out_min - ((x - in_min) * (out_min - out_max)) / (in_max - in_min) /\
  out_max <= arduino_map x in_min in_max out_min out_max <= out_min.
Proof.
  intros Hx Hrun Hmin Hmax Hrise.
  destruct (arduino_map_eq x in_min in_max out_min out_max) as [-> Hq];
    try lia.
  replace ((x - in_min) * (out_max - out_min))
    with (- ((x - in_min) * (out_min - out_max))) in * by ring.
  rewrite Z.quot_opp_l in * by lia.
  rewrite Z.quot_div_nonneg in * by nia.
  split; [lia|].
  assert (0 <= (x - in_min) * (out_min - out_max) / (in_max - in_min))
    by (apply Z.div_pos; nia).
  lia.
Qed.

(** The polyline, segment by segment: segment [k] joins column [k] to
    column [k + 1], at the heights of the samples read for them. *)
Lemma curve_lookup w h s :
  let Y := fun k : Z =>
    curve_y h s
      (rd (pixel_data s)
          (Z.to_nat (if k =? 0 then plot_pixel_min s else curve_pixel w s k))) in
  length (curve w h s) = Z.to_nat (plot_w w - 1) /\
  forall (k : nat) seg, curve w h s !! k = Some seg ->
    seg = {| seg_x0 := plot_x0 + Z.of_nat k; seg_y0 := Y (Z.of_nat k);
             seg_x1 := plot_x0 + Z.of_nat k + 1; seg_y1 := Y (Z.of_nat k + 1);
             seg_pixel := curve_pixel w s (Z.of_nat k + 1) |}.
Proof.
  intros Y. unfold curve.
  set (init := ([] : list Segment,
                (plot_x0,
                 curve_y h s
                   (rd (pixel_data s) (Z.to_nat (plot_pixel_min s)))))).
  generalize (Z.to_nat (plot_w w - 1)). intros n.
  assert (Hinv :
    length (fst (foldl (curve_step w h s) init (map Z.of_nat (seq 1 n)))) = n /\
    snd (foldl (curve_step w h s) init (map Z.of_nat (seq 1 n)))
      = (plot_x0 + Z.of_nat n, Y (Z.of_nat n)) /\
    forall (k : nat) seg,
      fst (foldl (curve_step w h s) init (map Z.of_nat (seq 1 n))) !! k
        = Some seg ->
      seg = {| seg_x0 := plot_x0 + Z.of_nat k; seg_y0 := Y (Z.of_nat k);
               seg_x1 := plot_x0 + Z.of_nat k + 1;
               seg_y1 := Y (Z.of_nat k + 1);
               seg_pixel := curve_pixel w s (Z.of_nat k + 1) |}).
  { induction n as [|n (Hlen & Hlast & Hsegs)].
    - cbn. split; [reflexivity|]. split.
      + rewrite Z.add_0_r. reflexivity.
      + intros k seg Hk. discriminate Hk.
    - rewrite seq_S, map_app, foldl_app. cbn [map foldl].
      destruct (foldl (curve_step w h s) init (map Z.of_nat (seq 1 n)))
        as [segs [px py]].
      cbn [fst snd] in Hlen, Hlast, Hsegs. injection Hlast as -> ->.
      unfold curve_step. cbn [fst snd].
      replace (Z.of_nat (1 + n)) with (Z.of_nat n + 1) by lia.
      replace (Z.of_nat (S n)) with (Z.of_nat n + 1) by lia.
      assert (HY : Y (Z.of_nat n + 1) =
                   curve_y h s
                     (rd (pixel_data s)
                         (Z.to_nat (curve_pixel w s (Z.of_nat n + 1))))).
      { unfold Y. destruct (Z.eqb_spec (Z.of_nat n + 1) 0); [lia|reflexivity]. }
      split; [rewrite length_app, Hlen; cbn; lia|].
      split; [rewrite HY; f_equal; lia|].
      intros k seg Hk.
      destruct (decide (k < n)%nat) as [Hlt|Hge].
      + rewrite lookup_app_l in Hk by lia. apply Hsegs, Hk.
      + rewrite lookup_app_r in Hk by lia. rewrite Hlen in Hk.
        destruct (k - n)%nat as [|d] eqn:Hd; [|destruct d; discriminate Hk].
        assert (k = n) as -> by lia.
        cbn in Hk. injection Hk as <-. rewrite HY. f_equal; lia. }
  destruct Hinv as (Hlen & _ & Hsegs). split; assumption.
Qed.

(** The columns of the plot read the window of pixels, end to end. *)
Lemma curve_pixel_spec w s x_plot :
  axis_ok s -> 2 * MARGEM_X + 2 <= w < 2 ^ 15 -> 0 <= x_plot < plot_w w ->
  curve_pixel w s x_plot =
    plot_pixel_min s
      + x_plot * (plot_pixel_max s - plot_pixel_min s) / (plot_w w - 1) /\
  plot_pixel_min s <= curve_pixel w s x_plot <= plot_pixel_max s.
Proof.
  intros (Hp0 & Hp1 & Hp2 & _) Hw Hx.
  unfold curve_pixel, plot_w, plot_x1, plot_x0, MARGEM_X, PIXEL_COUNT in *.
  destruct (arduino_map_up x_plot 0 (w - 30 - 30 - 1)
              (plot_pixel_min s) (plot_pixel_max s)) as [Heq Hr]; try lia.
  rewrite Heq. rewrite !Z.sub_0_r in *. split; [lia|].
  rewrite Heq in Hr. lia.
Qed.

(** The heights of the plot: inside the frame, lower counts lower on the
    display. *)
Lemma curve_y_spec h s v :
  axis_ok s -> 2 * MARGEM_Y <= h < 2 ^ 15 ->
  curve_y h s v =
    plot_y1 h
      - (constrain v (plot_adc_min s) (plot_adc_max s) - plot_adc_min s)
        * plot_h h / (plot_adc_max s - plot_adc_min s) /\
  plot_y0 <= curve_y h s v <= plot_y1 h.
Proof.
  intros (_ & _ & _ & Ha0 & Ha1 & Ha2) Hh.
  pose proof (constrain_range v (plot_adc_min s) (plot_adc_max s)
                ltac:(lia)) as Hc.
  unfold curve_y, plot_h, plot_y1, plot_y0, MARGEM_Y, ADC_MAX_VALUE in *.
  destruct (arduino_map_down
              (constrain v (plot_adc_min s) (plot_adc_max s))
              (plot_adc_min s) (plot_adc_max s) (h - 20) 20)
    as [Heq Hr]; lia.
Qed.

Lemma axis_ok_run ts : axis_ok (after (run ts) initial_state).
Proof. apply ui_ok_run. Qed.

(** X5. Along every run from power-up the window of the plot keeps at
    least eleven pixels of the detector and 101 counts of the converter.
    On a display at least 62 pixels wide every column of the plot reads
    a sample inside the window, hence inside [pixel_data]: the first
    column reads the first pixel of the window, the last column the last,
    and the columns in between read pixels in order. *)
Theorem X5_plot_reads_the_window (ts : list Tick) (w x_plot : Z) :
  let s := after (run ts) initial_state in
  let i := curve_pixel w s x_plot in
  2 * MARGEM_X + 2 <= w < 2 ^ 15 -> 0 <= x_plot < plot_w w ->
  axis_ok s /\
  0 <= plot_pixel_min s <= i /\ i <= plot_pixel_max s < PIXEL_COUNT /\
  (x_plot = 0 -> i = plot_pixel_min s) /\
  (x_plot = plot_w w - 1 -> i = plot_pixel_max s) /\
  (forall x2, x_plot <= x2 < plot_w w -> i <= curve_pixel w s x2).
Proof.
  intros s i Hw Hx. pose proof (axis_ok_run ts) as Hok. fold s in Hok.
  destruct (curve_pixel_spec w s x_plot Hok Hw Hx) as [Heq Hr]. fold i in Heq, Hr.
  pose proof Hok as (Hp0 & Hp1 & Hp2 & _).
  assert (Hrun : 0 < plot_w w - 1)
    by (unfold plot_w, plot_x1, plot_x0, MARGEM_X in *; lia).
  split; [exact Hok|]. split; [lia|]. split; [lia|]. split; [|split].
  - intros ->. rewrite Heq. rewrite Z.mul_0_l, Z.div_0_l by lia. lia.
  - intros Hlast. rewrite Heq, Hlast.
    rewrite Z.mul_comm, Z.div_mul by lia. lia.
  - intros x2 Hx2.
    destruct (curve_pixel_spec w s x2 Hok Hw ltac:(lia)) as [Heq2 _].
    rewrite Heq, Heq2. apply Z.add_le_mono_l.
    apply Z.div_le_mono; [lia|]. apply Z.mul_le_mono_nonneg_r; lia.
Qed.

(** On the display of the sketch, 480 pixels wide, the last of the 420
    columns reads the last pixel of the detector at power-up. *)
Lemma X5_plot_reads_the_window_witness :
  curve_pixel TFT_WIDTH initial_state 419 = 3693.
Proof.
  destruct (X5_plot_reads_the_window [] TFT_WIDTH 419)
    as (_ & _ & _ & _ & Hlast & _);
    [unfold MARGEM_X, TFT_WIDTH; lia | vm_compute; split; [discriminate|reflexivity] |].
  exact (Hlast eq_refl).
Defined.

(** X6. Counts become heights inside the frame of the plot: a count at
    or below the lower bound of the window is drawn on the bottom edge,
    a count at or above the upper bound on the top edge, and a larger
    count is never drawn lower. *)
Theorem X6_counts_become_heights (ts : list Tick) (h v1 v2 : Z) :
  let s := after (run ts) initial_state in
  2 * MARGEM_Y <= h < 2 ^ 15 -> v1 <= v2 ->
  plot_y0 <= curve_y h s v2 /\ curve_y h s v2 <= curve_y h s v1 /\
  curve_y h s v1 <= plot_y1 h /\
  (v1 <= plot_adc_min s -> curve_y h s v1 = plot_y1 h) /\
  (plot_adc_max s <= v2 -> curve_y h s v2 = plot_y0).
Proof.
  intros s Hh Hv. pose proof (axis_ok_run ts) as Hok. fold s in Hok.
  destruct (curve_y_spec h s v1 Hok Hh) as [Heq1 Hr1].
  destruct (curve_y_spec h s v2 Hok Hh) as [Heq2 Hr2].
  pose proof Hok as (_ & _ & _ & Ha0 & Ha1 & Ha2).
  assert (Hph : 0 <= plot_h h)
    by (unfold plot_h, plot_y1, plot_y0, MARGEM_Y in *; lia).
  split; [lia|]. split; [|split; [lia|split]].
  - rewrite Heq1, Heq2.
    apply Z.sub_le_mono_l, Z.div_le_mono; [lia|].
    apply Z.mul_le_mono_nonneg_r; [exact Hph|].
    unfold constrain.
    repeat match goal with
           | |- context [?a <? ?b] => destruct (Z.ltb_spec a b)
           | |- context [?a >? ?b] => destruct (Z.gtb_spec a b)
           end; lia.
  - intros Hlow. rewrite Heq1. unfold constrain.
    destruct (Z.ltb_spec v1 (plot_adc_min s)) as [_|Hge].
    + rewrite Z.sub_diag, Z.mul_0_l, Z.div_0_l by lia. lia.
    + replace v1 with (plot_adc_min s) by lia.
      destruct (Z.gtb_spec (plot_adc_min s) (plot_adc_max s)); [lia|].
      rewrite Z.sub_diag, Z.mul_0_l, Z.div_0_l by lia. lia.
  - intros Hhigh. rewrite Heq2.
    assert (Hc : constrain v2 (plot_adc_min s) (plot_adc_max s)
                 = plot_adc_max s).
    { unfold constrain.
      destruct (Z.ltb_spec v2 (plot_adc_min s)); [lia|].
      destruct (Z.gtb_spec v2 (plot_adc_max s)); lia. }
    rewrite Hc, Z.mul_comm, Z.div_mul by lia.
    unfold plot_h. lia.
Qed.

(** On the display of the sketch, 320 pixels high, zero is drawn on row
    300 and full scale on row 20 at power-up. *)
Lemma X6_counts_become_heights_witness :
  curve_y TFT_HEIGHT initial_state 0 = 300 /\
  curve_y TFT_HEIGHT initial_state 4095 = 20.
Proof.
  destruct (X6_counts_become_heights [] TFT_HEIGHT 0 4095)
    as (_ & _ & _ & Hlow & Hhigh);
    [unfold MARGEM_Y, TFT_HEIGHT; lia | lia |].
  split; [exact (Hlow ltac:(vm_compute; discriminate))
        | exact (Hhigh ltac:(vm_compute; discriminate))].
Defined.

(** X7. The polyline of the spectrum has one segment for each column
    after the first. Segment [k] goes one column to the right, from
    column [k], ends at the height of the sample read for its column,
    which lies in the window, and stays inside the frame; the next
    segment starts where it ends. *)
Theorem X7_polyline_in_the_frame (ts : list Tick) (w h : Z) (k : nat)
    (seg : Segment) :
  let s := after (run ts) initial_state in
  2 * MARGEM_X + 2 <= w < 2 ^ 15 -> 2 * MARGEM_Y <= h < 2 ^ 15 ->
  curve w h s !! k = Some seg ->
  length (curve w h s) = Z.to_nat (plot_w w - 1) /\
  seg_x0 seg = plot_x0 + Z.of_nat k /\ seg_x1 seg = seg_x0 seg + 1 /\
  seg_x1 seg < plot_x1 w /\
  plot_y0 <= seg_y0 seg <= plot_y1 h /\ plot_y0 <= seg_y1 seg <= plot_y1 h /\
  0 <= plot_pixel_min s <= seg_pixel seg /\
  seg_pixel seg <= plot_pixel_max s < PIXEL_COUNT /\
  seg_y1 seg = curve_y h s (rd (pixel_data s) (Z.to_nat (seg_pixel seg))) /\
  (forall seg', curve w h s !! S k = Some seg' ->
     seg_x0 seg' = seg_x1 seg /\ seg_y0 seg' = seg_y1 seg).
Proof.
  intros s Hw Hh Hk. pose proof (axis_ok_run ts) as Hok. fold s in Hok.
  destruct (curve_lookup w h s) as [Hlen Hsegs].
  pose proof (lookup_lt_Some _ _ _ Hk) as Hlt. rewrite Hlen in Hlt.
  pose proof (Hsegs k seg Hk) as ->. cbn [seg_x0 seg_y0 seg_x1 seg_y1 seg_pixel].
  assert (Hcol : 0 <= Z.of_nat k + 1 < plot_w w) by lia.
  destruct (curve_pixel_spec w s (Z.of_nat k + 1) Hok Hw Hcol) as [_ Hr].
  pose proof Hok as (Hp0 & Hp1 & Hp2 & _).
  split; [exact Hlen|]. split; [reflexivity|]. split; [reflexivity|].
  split; [unfold plot_w in Hcol; lia|].
  split; [apply curve_y_spec; assumption|].
  split; [apply curve_y_spec; assumption|].
  split; [lia|]. split; [lia|]. split.
  - destruct (Z.eqb_spec (Z.of_nat k + 1) 0); [lia|reflexivity].
  - intros seg' Hk'. pose proof (Hsegs (S k) seg' Hk') as ->.
    cbn [seg_x0 seg_y0]. split; [lia|].
    replace (Z.of_nat (S k)) with (Z.of_nat k + 1) by lia. reflexivity.
Qed.

(** On the display of the sketch the polyline has 419 segments, and at
    power-up its first segment lies on the bottom edge: the spectrum is
    still all zeros. *)
Lemma X7_polyline_in_the_frame_witness :
  length (curve TFT_WIDTH TFT_HEIGHT initial_state) = 419%nat /\
  curve TFT_WIDTH TFT_HEIGHT initial_state !! 0%nat =
    Some {| seg_x0 := 30; seg_y0 := 300; seg_x1 := 31; seg_y1 := 300;
            seg_pixel := 8 |}.
Proof.
  assert (H0 : curve TFT_WIDTH TFT_HEIGHT initial_state !! 0%nat =
    Some {| seg_x0 := 30; seg_y0 := 300; seg_x1 := 31; seg_y1 := 300;
            seg_pixel := 8 |}) by (vm_compute; reflexivity).
  destruct (X7_polyline_in_the_frame [] TFT_WIDTH TFT_HEIGHT 0 _
              ltac:(unfold MARGEM_X, TFT_WIDTH; lia)
              ltac:(unfold MARGEM_Y, TFT_HEIGHT; lia) H0) as [Hlen _].
  split; [exact Hlen | exact H0].
Defined.

(** ** The axes *)

Lemma float_le_trans (x y z : float) :
  float_le x y = true -> float_le y z = true -> float_le x z = true.
Proof.
  unfold float_le, SFleb.
  destruct x as [sx|sx| |sx mx ex], y as [sy|sy| |sy my ey],
           z as [sz|sz| |sz mz ez]; cbn;
    try discriminate; try reflexivity;
    repeat match goal with s : bool |- _ => destruct s end;
    try discriminate; try reflexivity.
  - destruct (Z.compare_spec ex ey) as [E1|E1|E1],
             (Z.compare_spec ey ez) as [E2|E2|E2],
             (Z.compare_spec ex ez) as [E3|E3|E3];
      try discriminate; try reflexivity; try lia.
    change (Pos.compare_cont Eq mx my) with (mx ?= my)%positive.
    change (Pos.compare_cont Eq my mz) with (my ?= mz)%positive.
    change (Pos.compare_cont Eq mx mz) with (mx ?= mz)%positive.
    destruct (Pos.compare_spec mx my), (Pos.compare_spec my mz),
             (Pos.compare_spec mx mz);
      try discriminate; try reflexivity; lia.
  - destruct (Z.compare_spec ex ey) as [E1|E1|E1],
             (Z.compare_spec ey ez) as [E2|E2|E2],
             (Z.compare_spec ex ez) as [E3|E3|E3];
      try discriminate; try reflexivity; try lia.
    change (Pos.compare_cont Eq mx my) with (mx ?= my)%positive.
    change (Pos.compare_cont Eq my mz) with (my ?= mz)%positive.
    change (Pos.compare_cont Eq mx mz) with (mx ?= mz)%positive.
    destruct (Pos.compare_spec mx my), (Pos.compare_spec my mz),
             (Pos.compare_spec mx mz);
      try discriminate; try reflexivity; lia.
Qed.

Lemma float_le_refl_l (x y : float) :
  float_le x y = true -> float_le x x = true.
Proof.
  unfold float_le, SFleb.
  destruct x as [sx|sx| |sx mx ex]; cbn; try discriminate;
    try (destruct sx; reflexivity).
  intros _. rewrite Z.compare_refl.
  change (Pos.compare_cont Eq mx mx) with (mx ?= mx)%positive.
  rewrite Pos.compare_refl. destruct sx; reflexivity.
Qed.

Lemma float_le_refl_r (x y : float) :
  float_le x y = true -> float_le y y = true.
Proof.
  unfold float_le, SFleb.
  destruct y as [sy|sy| |sy my ey]; cbn;
    try (destruct sy; reflexivity).
  - destruct x as [?|?| |? ? ?]; cbn; try discriminate;
      repeat match goal with s : bool |- _ => destruct s end; discriminate.
  - intros _. rewrite Z.compare_refl.
    change (Pos.compare_cont Eq my my) with (my ?= my)%positive.
    rewrite Pos.compare_refl. destruct sy; reflexivity.
Qed.

Lemma axis_ordered_step unit n : forall p k,
  axis_ordered unit n p = true -> 0 <= k < Z.of_nat n ->
  float_le (getXUnitValue unit (p + k)) (getXUnitValue unit (p + k + 1)) = true.
Proof.
  induction n as [|n IH]; intros p k Hall Hk; [lia|].
  cbn [axis_ordered] in Hall.
  apply andb_true_iff in Hall as [H1 Hrest].
  destruct (Z.eq_dec k 0) as [->|Hk0].
  - rewrite Z.add_0_r. exact H1.
  - specialize (IH (p + 1) (k - 1) Hrest ltac:(lia)).
    replace (p + 1 + (k - 1)) with (p + k) in IH by lia. exact IH.
Qed.

(** The detector, pixel by pixel, in each unit of the x axis. *)
Lemma detector_ordered unit : axis_ordered unit 3693 0 = true.
Proof. destruct unit; vm_compute; reflexivity. Qed.

Lemma axis_step unit i :
  0 <= i < PIXEL_COUNT - 1 ->
  float_le (getXUnitValue unit i) (getXUnitValue unit (i + 1)) = true.
Proof.
  unfold PIXEL_COUNT. intros Hi.
  exact (axis_ordered_step unit 3693 0 i (detector_ordered unit) ltac:(lia)).
Qed.

Lemma axis_monotone unit (i : Z) (d : nat) :
  0 <= i -> i + Z.of_nat d < PIXEL_COUNT ->
  float_le (getXUnitValue unit i) (getXUnitValue unit (i + Z.of_nat d)) = true.
Proof.
  intros Hi. induction d as [|d IH]; intros Hj.
  - rewrite Z.add_0_r.
    destruct (Z_lt_ge_dec i (PIXEL_COUNT - 1)) as [Hlt|Hge].
    + apply (float_le_refl_l _ _ (axis_step unit i ltac:(lia))).
    + pose proof (axis_step unit (i - 1) ltac:(unfold PIXEL_COUNT in *; lia))
        as H.
      replace (i - 1 + 1) with i in H by lia.
      apply (float_le_refl_r _ _ H).
  - specialize (IH ltac:(lia)).
    pose proof (axis_step unit (i + Z.of_nat d) ltac:(lia)) as H.
    replace (i + Z.of_nat (S d)) with (i + Z.of_nat d + 1) by lia.
    eapply float_le_trans; eassumption.
Qed.

Lemma grid_pixel_spec s i :
  axis_ok s -> 0 <= i <= NUM_DIVISOES_X ->
  grid_pixel s i =
    plot_pixel_min s
      + i * (plot_pixel_max s - plot_pixel_min s) / NUM_DIVISOES_X /\
  plot_pixel_min s <= grid_pixel s i <= plot_pixel_max s.
Proof.
  intros (Hp0 & Hp1 & Hp2 & _) Hi.
  unfold grid_pixel, NUM_DIVISOES_X, PIXEL_COUNT in *.
  destruct (arduino_map_up i 0 8 (plot_pixel_min s) (plot_pixel_max s))
    as [Heq Hr]; try lia.
  rewrite !Z.sub_0_r in Heq. lia.
Qed.

Lemma grid_y_label_spec s i :
  axis_ok s -> 0 <= i <= NUM_DIVISOES_Y ->
  grid_y_label s i =
    plot_adc_max s - i * (plot_adc_max s - plot_adc_min s) / NUM_DIVISOES_Y /\
  plot_adc_min s <= grid_y_label s i <= plot_adc_max s.
Proof.
  intros (_ & _ & _ & Ha0 & Ha1 & Ha2) Hi.
  unfold grid_y_label, NUM_DIVISOES_Y, ADC_MAX_VALUE in *.
  destruct (arduino_map_down i 0 4 (plot_adc_max s) (plot_adc_min s))
    as [Heq Hr]; try lia.
  rewrite !Z.sub_0_r in Heq. lia.
Qed.

Lemma grid_line_spec i len n :
  0 < n -> 0 <= i <= n -> n <= 8 -> 0 <= len < 2 ^ 15 ->
  to_i32 (i * len) ÷ n = i * len / n /\ 0 <= i * len / n <= len.
Proof.
  intros Hn Hi Hn8 Hlen.
  rewrite to_i32_small by nia.
  rewrite Z.quot_div_nonneg by nia.
  split; [reflexivity|]. split; [apply Z.div_pos; nia|].
  apply Z.div_le_upper_bound; nia.
Qed.

(** X8. The nine vertical grid lines run from the left edge of the frame
    to the right edge, in order. The first is labelled with the first
    pixel of the window and the last with the last pixel; the labels in
    between come from pixels of the window, in order, and in each unit
    of the x axis (pixel, nanometre, Raman shift) the values printed do
    not decrease from left to right. *)
Theorem X8_x_axis_labels (ts : list Tick) (w i j : Z) :
  let s := after (run ts) initial_state in
  2 * MARGEM_X <= w < 2 ^ 15 -> 0 <= i <= j -> j <= NUM_DIVISOES_X ->
  plot_x0 <= grid_x w i /\ grid_x w i <= grid_x w j /\
  grid_x w j <= plot_x1 w /\
  grid_x w 0 = plot_x0 /\ grid_x w NUM_DIVISOES_X = plot_x1 w /\
  0 <= plot_pixel_min s <= grid_pixel s i /\
  grid_pixel s i <= grid_pixel s j /\
  grid_pixel s j <= plot_pixel_max s < PIXEL_COUNT /\
  grid_pixel s 0 = plot_pixel_min s /\
  grid_pixel s NUM_DIVISOES_X = plot_pixel_max s /\
  float_le (grid_x_label s i) (grid_x_label s j) = true.
Proof.
  intros s Hw Hij Hj. pose proof (axis_ok_run ts) as Hok. fold s in Hok.
  pose proof Hok as (Hp0 & Hp1 & Hp2 & _).
  assert (Hpw : 0 <= plot_w w < 2 ^ 15)
    by (unfold plot_w, plot_x1, plot_x0, MARGEM_X in *; lia).
  assert (Hgx : forall k, 0 <= k <= NUM_DIVISOES_X ->
            grid_x w k = plot_x0 + k * plot_w w / NUM_DIVISOES_X /\
            0 <= k * plot_w w / NUM_DIVISOES_X <= plot_w w).
  { intros k Hk. unfold grid_x.
    destruct (grid_line_spec k (plot_w w) NUM_DIVISOES_X) as [-> Hr];
      unfold NUM_DIVISOES_X in *; try lia. }
  destruct (Hgx i ltac:(lia)) as [Hxi Hri].
  destruct (Hgx j ltac:(lia)) as [Hxj Hrj].
  destruct (Hgx 0 ltac:(unfold NUM_DIVISOES_X; lia)) as [Hx0 _].
  destruct (Hgx NUM_DIVISOES_X ltac:(unfold NUM_DIVISOES_X; lia)) as [Hx8 _].
  destruct (grid_pixel_spec s i Hok ltac:(lia)) as [Hpi Hpri].
  destruct (grid_pixel_spec s j Hok ltac:(lia)) as [Hpj Hprj].
  destruct (grid_pixel_spec s 0 Hok ltac:(unfold NUM_DIVISOES_X; lia))
    as [Hq0 _].
  destruct (grid_pixel_spec s NUM_DIVISOES_X Hok
              ltac:(unfold NUM_DIVISOES_X; lia)) as [Hq8 _].
  assert (Hpij : grid_pixel s i <= grid_pixel s j).
  { rewrite Hpi, Hpj. apply Z.add_le_mono_l.
    apply Z.div_le_mono; [unfold NUM_DIVISOES_X; lia|].
    apply Z.mul_le_mono_nonneg_r; lia. }
  split; [lia|]. split.
  { rewrite Hxi, Hxj. apply Z.add_le_mono_l.
    apply Z.div_le_mono; [unfold NUM_DIVISOES_X; lia|].
    apply Z.mul_le_mono_nonneg_r; lia. }
  split; [unfold plot_w in *; lia|].
  split; [rewrite Hx0, Z.mul_0_l, Z.div_0_l by (unfold NUM_DIVISOES_X; lia); lia|].
  split.
  { rewrite Hx8, Z.mul_comm, Z.div_mul by (unfold NUM_DIVISOES_X; lia).
    unfold plot_w. lia. }
  split; [lia|]. split; [exact Hpij|]. split; [lia|].
  split; [rewrite Hq0, Z.mul_0_l, Z.div_0_l by (unfold NUM_DIVISOES_X; lia); lia|].
  split.
  { rewrite Hq8, Z.mul_comm, Z.div_mul by (unfold NUM_DIVISOES_X; lia). lia. }
  unfold grid_x_label.
  replace (grid_pixel s j)
    with (grid_pixel s i + Z.of_nat (Z.to_nat (grid_pixel s j - grid_pixel s i)))
    by lia.
  apply axis_monotone; lia.
Qed.

(** At power-up, in pixels, the first label is 0 and the last is 3693,
    printed on columns 30 and 450 of the display of the sketch. *)
Lemma X8_x_axis_labels_witness :
  grid_x TFT_WIDTH 0 = 30 /\ grid_x TFT_WIDTH NUM_DIVISOES_X = 450 /\
  grid_pixel initial_state 0 = 0 /\
  grid_pixel initial_state NUM_DIVISOES_X = 3693 /\
  float_le (grid_x_label initial_state 0)
           (grid_x_label initial_state NUM_DIVISOES_X) = true.
Proof.
  destruct (X8_x_axis_labels [] TFT_WIDTH 0 NUM_DIVISOES_X)
    as (_ & _ & _ & H0 & H8 & _ & _ & _ & Hp0 & Hp8 & Hle);
    try (unfold MARGEM_X, TFT_WIDTH, NUM_DIVISOES_X; lia).
  split; [exact H0|]. split; [exact H8|]. split; [exact Hp0|].
  split; [exact Hp8|exact Hle].
Defined.

(** X9. The five horizontal grid lines run from the top edge of the
    frame to the bottom edge, in order, labelled from the upper bound of
    the window of counts at the top down to the lower bound at the
    bottom, never increasing on the way down. *)
Theorem X9_y_axis_labels (ts : list Tick) (h i j : Z) :
  let s := after (run ts) initial_state in
  2 * MARGEM_Y <= h < 2 ^ 15 -> 0 <= i <= j -> j <= NUM_DIVISOES_Y ->
  plot_y0 <= grid_y h i /\ grid_y h i <= grid_y h j /\
  grid_y h j <= plot_y1 h /\
  grid_y h 0 = plot_y0 /\ grid_y h NUM_DIVISOES_Y = plot_y1 h /\
  plot_adc_min s <= grid_y_label s j /\
  grid_y_label s j <= grid_y_label s i /\
  grid_y_label s i <= plot_adc_max s /\
  grid_y_label s 0 = plot_adc_max s /\
  grid_y_label s NUM_DIVISOES_Y = plot_adc_min s.
Proof.
  intros s Hh Hij Hj. pose proof (axis_ok_run ts) as Hok. fold s in Hok.
  pose proof Hok as (_ & _ & _ & Ha0 & Ha1 & Ha2).
  assert (Hph : 0 <= plot_h h < 2 ^ 15)
    by (unfold plot_h, plot_y1, plot_y0, MARGEM_Y in *; lia).
  assert (Hgy : forall k, 0 <= k <= NUM_DIVISOES_Y ->
            grid_y h k = plot_y0 + k * plot_h h / NUM_DIVISOES_Y /\
            0 <= k * plot_h h / NUM_DIVISOES_Y <= plot_h h).
  { intros k Hk. unfold grid_y.
    destruct (grid_line_spec k (plot_h h) NUM_DIVISOES_Y) as [-> Hr];
      unfold NUM_DIVISOES_Y in *; try lia. }
  destruct (Hgy i ltac:(lia)) as [Hyi Hri].
  destruct (Hgy j ltac:(lia)) as [Hyj Hrj].
  destruct (Hgy 0 ltac:(unfold NUM_DIVISOES_Y; lia)) as [Hy0 _].
  destruct (Hgy NUM_DIVISOES_Y ltac:(unfold NUM_DIVISOES_Y; lia)) as [Hy4 _].
  destruct (grid_y_label_spec s i Hok ltac:(lia)) as [Hli Hlri].
  destruct (grid_y_label_spec s j Hok ltac:(lia)) as [Hlj Hlrj].
  destruct (grid_y_label_spec s 0 Hok ltac:(unfold NUM_DIVISOES_Y; lia))
    as [Hl0 _].
  destruct (grid_y_label_spec s NUM_DIVISOES_Y Hok
              ltac:(unfold NUM_DIVISOES_Y; lia)) as [Hl4 _].
  split; [lia|]. split.
  { rewrite Hyi, Hyj. apply Z.add_le_mono_l.
    apply Z.div_le_mono; [unfold NUM_DIVISOES_Y; lia|].
    apply Z.mul_le_mono_nonneg_r; lia. }
  split; [unfold plot_h in *; lia|].
  split; [rewrite Hy0, Z.mul_0_l, Z.div_0_l by (unfold NUM_DIVISOES_Y; lia); lia|].
  split.
  { rewrite Hy4, Z.mul_comm, Z.div_mul by (unfold NUM_DIVISOES_Y; lia).
    unfold plot_h. lia. }
  split; [lia|]. split.
  { rewrite Hli, Hlj. apply Z.sub_le_mono_l.
    apply Z.div_le_mono; [unfold NUM_DIVISOES_Y; lia|].
    apply Z.mul_le_mono_nonneg_r; lia. }
  split; [lia|].
  split; [rewrite Hl0, Z.mul_0_l, Z.div_0_l by (unfold NUM_DIVISOES_Y; lia); lia|].
  rewrite Hl4, Z.mul_comm, Z.div_mul by (unfold NUM_DIVISOES_Y; lia). lia.
Qed.

(** At power-up the labels run from 4095, on row 20 of the display of
    the sketch, down to 0, on row 300. *)
Lemma X9_y_axis_labels_witness :
  grid_y TFT_HEIGHT 0 = 20 /\ grid_y TFT_HEIGHT NUM_DIVISOES_Y = 300 /\
  grid_y_label initial_state 0 = 4095 /\
  grid_y_label initial_state NUM_DIVISOES_Y = 0.
Proof.
  destruct (X9_y_axis_labels [] TFT_HEIGHT 0 NUM_DIVISOES_Y)
    as (_ & _ & _ & H0 & H4 & _ & _ & _ & Hl0 & Hl4);
    try (unfold MARGEM_Y, TFT_HEIGHT, NUM_DIVISOES_Y; lia).
  split; [exact H0|]. split; [exact H4|]. split; [exact Hl0|exact Hl4].
Defined.

(** ** Gestures *)

Lemma decode_buttons_app xs ys b :
  decode_buttons (xs ++ ys) b =
    let '(g1, b1) := decode_buttons xs b in
    let '(g2, b2) := decode_buttons ys b1 in
    (g1 ++ g2, b2).
Proof.
  revert b. induction xs as [|x xs IH]; intros b; cbn [app decode_buttons].
  - destruct (decode_buttons ys b). reflexivity.
  - destruct (decode_button x b) as [[[clk lp] evs] b1].
    rewrite IH. destruct (decode_buttons xs b1) as [g1 b2].
    destruct (decode_buttons ys b2) as [g2 b3]. reflexivity.
Qed.

Lemma gesture_count_app g1 g2 :
  gesture_count (g1 ++ g2) = (gesture_count g1 + gesture_count g2)%nat.
Proof.
  induction g1 as [|g g1 IH]; [reflexivity|].
  cbn [app gesture_count foldr] in *. fold (gesture_count (g1 ++ g2)).
  fold (gesture_count g1). lia.
Qed.

(** One iteration with the button held. *)
Lemma decode_button_held x b :
  button_down x -> isPressing b = true ->
  let '(clk, lp, _, b') := decode_button x b in
  clk = false /\
  isPressing b' = true /\
  pressStartTime b' = pressStartTime b /\
  lastTimePressed b' = lastTimePressed b /\
  (Nat.b2n lp + Nat.b2n (longPressEventTriggered b))%nat
    = Nat.b2n (longPressEventTriggered b') /\
  (lp = true ->
   to_u32 (to_u32 (millis x 0) - pressStartTime b) > LONG_PRESS_DURATION).
Proof.
  intros Hd Hp. unfold decode_button, button_down in *.
  destruct b as [enc last start pressing trig]. cbn in Hp. subst pressing.
  rewrite Hd. cbn.
  destruct trig; cbn; [repeat split; discriminate|].
  destruct (Z.gtb_spec (to_u32 (to_u32 (millis x 0) - start))
                       LONG_PRESS_DURATION);
    cbn; repeat split; try discriminate; lia.
Qed.

(** The iteration that first sees the button down. *)
Lemma decode_button_pressed x b :
  button_down x -> isPressing b = false ->
  let '(clk, lp, _, b') := decode_button x b in
  clk = false /\
  isPressing b' = true /\
  pressStartTime b' = to_u32 (millis x 0) /\
  lastTimePressed b' = lastTimePressed b /\
  Nat.b2n lp = Nat.b2n (longPressEventTriggered b') /\
  (lp = true ->
   to_u32 (to_u32 (millis x 1) - to_u32 (millis x 0)) > LONG_PRESS_DURATION).
Proof.
  intros Hd Hp. unfold decode_button, button_down in *.
  destruct b as [enc last start pressing trig]. cbn in Hp. subst pressing.
  rewrite Hd. cbn.
  destruct (Z.gtb_spec (to_u32 (to_u32 (millis x 1) - to_u32 (millis x 0)))
                       LONG_PRESS_DURATION);
    cbn; repeat split; try discriminate; lia.
Qed.

(** While the button is held nothing is clicked, the start of the press
    is remembered, and a long press is reported once at most. *)
Lemma decode_buttons_held xs : forall b,
  Forall button_down xs -> isPressing b = true ->
  let '(gs, b') := decode_buttons xs b in
  Forall (fun g : bool * bool => g.1 = false) gs /\
  isPressing b' = true /\
  pressStartTime b' = pressStartTime b /\
  lastTimePressed b' = lastTimePressed b /\
  (gesture_count gs + Nat.b2n (longPressEventTriggered b))%nat
    = Nat.b2n (longPressEventTriggered b').
Proof.
  induction xs as [|x xs IH]; intros b Hall Hp; cbn [decode_buttons].
  - repeat split; [constructor | exact Hp].
  - apply Forall_cons in Hall as [Hx Hxs].
    pose proof (decode_button_held x b Hx Hp) as H1.
    destruct (decode_button x b) as [[[clk lp] evs] b1].
    destruct H1 as (-> & Hp1 & Hs1 & Hl1 & Hc1 & _).
    specialize (IH b1 Hxs Hp1).
    destruct (decode_buttons xs b1) as [gs b2].
    destruct IH as (Hno & Hp2 & Hs2 & Hl2 & Hc2).
    split; [constructor; [reflexivity|exact Hno]|].
    split; [exact Hp2|]. split; [congruence|]. split; [congruence|].
    cbn [gesture_count foldr fst snd Nat.b2n] in *.
    fold (gesture_count gs). lia.
Qed.

(** The iteration that sees the button released. *)
Lemma decode_button_released x b :
  isEncoderButtonDown x = false -> isPressing b = true ->
  let '(clk, lp, _, b') := decode_button x b in
  lp = false /\
  isPressing b' = false /\
  (clk = true <->
     longPressEventTriggered b = false /\
     to_u32 (to_u32 (millis x 0) - pressStartTime b) < 1000 /\
     to_u32 (to_u32 (millis x 1) - lastTimePressed b) > 500) /\
  (clk = true -> lastTimePressed b' = to_u32 (millis x 2)) /\
  (clk = false -> lastTimePressed b' = lastTimePressed b).
Proof.
  intros Hu Hp. unfold decode_button.
  destruct b as [enc last start pressing trig]. cbn in Hp. subst pressing.
  rewrite Hu. cbn.
  destruct trig; cbn.
  { repeat split; try discriminate; try reflexivity.
    intros (Habs & _). discriminate Habs. }
  destruct (Z.ltb_spec (to_u32 (to_u32 (millis x 0) - start)) 1000); cbn.
  - destruct (Z.gtb_spec (to_u32 (to_u32 (millis x 1) - last)) 500); cbn;
      repeat split; try discriminate; try reflexivity; try lia;
      intros (_ & _ & Habs); lia.
  - repeat split; try discriminate; try reflexivity;
      intros (_ & Habs & _); lia.
Qed.

(** X10. One hold of the button, from the iteration that first sees it
    down to the iteration that sees it released, is reported as one
    gesture at most: nothing is clicked while it is down, a long press is
    reported once at most, and the release is a click exactly when no
    long press was reported, the button was down for less than a second
    and the previous click is more than half a second old, on the 32-bit
    clock. Only a click moves the time of the last click. *)
Theorem X10_one_gesture_per_hold (b : Button) (x0 : Sense)
    (xs : list Sense) (x_up : Sense) :
  isPressing b = false ->
  button_down x0 -> Forall button_down xs ->
  isEncoderButtonDown x_up = false ->
  let held := decode_buttons (x0 :: xs) b in
  let released := decode_button x_up held.2 in
  let clicked := released.1.1.1 in
  let total := decode_buttons (x0 :: xs ++ [x_up]) b in
  (gesture_count total.1 <= 1)%nat /\
  Forall (fun g : bool * bool => g.1 = false) held.1 /\
  released.1.1.2 = false /\
  isPressing total.2 = false /\
  (clicked = true <->
     gesture_count held.1 = 0%nat /\
     to_u32 (to_u32 (millis x_up 0) - to_u32 (millis x0 0)) < 1000 /\
     to_u32 (to_u32 (millis x_up 1) - lastTimePressed b) > 500) /\
  (clicked = true -> lastTimePressed total.2 = to_u32 (millis x_up 2)) /\
  (clicked = false -> lastTimePressed total.2 = lastTimePressed b).
Proof.
  intros Hp H0 Hxs Hup. cbv zeta.
  change (x0 :: xs ++ [x_up]) with ((x0 :: xs) ++ [x_up]).
  rewrite decode_buttons_app.
  assert (Hheld :
    let held := decode_buttons (x0 :: xs) b in
    Forall (fun g : bool * bool => g.1 = false) held.1 /\
    isPressing held.2 = true /\
    pressStartTime held.2 = to_u32 (millis x0 0) /\
    lastTimePressed held.2 = lastTimePressed b /\
    gesture_count held.1 = Nat.b2n (longPressEventTriggered held.2)).
  { cbn [decode_buttons].
    pose proof (decode_button_pressed x0 b H0 Hp) as H1.
    destruct (decode_button x0 b) as [[[clk lp] evs] b1].
    destruct H1 as (-> & Hp1 & Hs1 & Hl1 & Hc1 & _).
    pose proof (decode_buttons_held xs b1 Hxs Hp1) as H2.
    destruct (decode_buttons xs b1) as [gs b2].
    destruct H2 as (Hno & Hp2 & Hs2 & Hl2 & Hc2). cbn [fst snd].
    split; [constructor; [reflexivity|exact Hno]|].
    split; [exact Hp2|]. split; [congruence|]. split; [congruence|].
    cbn [gesture_count foldr fst snd Nat.b2n] in *.
    fold (gesture_count gs). lia. }
  destruct (decode_buttons (x0 :: xs) b) as [gs b1]. cbn [fst snd] in *.
  destruct Hheld as (Hno & Hp1 & Hs1 & Hl1 & Hc1).
  pose proof (decode_button_released x_up b1 Hup Hp1) as Hrel.
  cbn [decode_buttons].
  destruct (decode_button x_up b1) as [[[clk lp] evs] b2]. cbn [fst snd].
  destruct Hrel as (-> & Hp2 & Hclk & Hyes & Hnot).
  rewrite Hs1, Hl1 in Hclk. rewrite Hl1 in Hnot.
  split.
  { rewrite gesture_count_app. cbn [gesture_count foldr fst snd Nat.b2n].
    fold (gesture_count gs). rewrite Hc1.
    destruct (longPressEventTriggered b1) eqn:Ht; cbn [Nat.b2n].
    - destruct clk; [|cbn; lia].
      destruct (proj1 Hclk eq_refl) as (Habs & _). discriminate Habs.
    - destruct clk; cbn; lia. }
  split; [exact Hno|]. split; [reflexivity|]. split; [exact Hp2|].
  split; [|split; assumption].
  rewrite Hc1. rewrite Hclk.
  destruct (longPressEventTriggered b1); cbn [Nat.b2n];
    split; intros (Ha & Hb & Hc); repeat split; try assumption;
    try reflexivity; discriminate.
Qed.

(** A press of 400 ms, a second after power-up, is a click. *)
Lemma X10_one_gesture_per_hold_witness :
  (decode_button (released_at 1400)
     (decode_buttons [held_at 1000; held_at 1200] (initial_button 0)).2).1.1.1
    = true.
Proof.
  destruct (X10_one_gesture_per_hold (initial_button 0) (held_at 1000)
              [held_at 1200] (released_at 1400))
    as (_ & _ & _ & _ & Hclk & _);
    [reflexivity | reflexivity | repeat constructor | reflexivity |].
  apply Hclk. vm_compute. repeat split; reflexivity.
Defined.

(** While the button is held, a long press is reported only with the
    clock more than three seconds past the start of the press. *)
Lemma decode_buttons_long xs : forall b (k : nat) x clk,
  Forall button_down xs -> isPressing b = true ->
  xs !! k = Some x -> (decode_buttons xs b).1 !! k = Some (clk, true) ->
  to_u32 (to_u32 (millis x 0) - pressStartTime b) > LONG_PRESS_DURATION.
Proof.
  induction xs as [|x1 xs IH]; intros b k x clk Hall Hp Hx Hg;
    [discriminate Hx|].
  apply Forall_cons in Hall as [H1 Hxs].
  cbn [decode_buttons] in Hg.
  pose proof (decode_button_held x1 b H1 Hp) as Hstep.
  destruct (decode_button x1 b) as [[[clk1 lp1] evs] b1].
  destruct Hstep as (_ & Hp1 & Hs1 & _ & _ & Hlong).
  pose proof (IH b1) as IH1.
  destruct (decode_buttons xs b1) as [gs b2]. cbn [fst] in Hg, IH1.
  destruct k as [|k].
  - cbn in Hx, Hg. injection Hx as <-. injection Hg as _ ->.
    exact (Hlong eq_refl).
  - cbn in Hx, Hg. rewrite <- Hs1. exact (IH1 k x clk Hxs Hp1 Hx Hg).
Qed.

(** X11. During a hold of the button a long press is reported only by an
    iteration that reads the 32-bit clock more than [LONG_PRESS_DURATION]
    milliseconds after the reading taken when the button was first seen
    down; the first iteration of the hold compares its second reading of
    the clock with its first. *)
Theorem X11_long_press_takes_three_seconds (b : Button) (x0 : Sense)
    (xs : list Sense) (k : nat) (x : Sense) (clk : bool) :
  isPressing b = false -> button_down x0 -> Forall button_down xs ->
  (x0 :: xs) !! k = Some x ->
  (decode_buttons (x0 :: xs) b).1 !! k = Some (clk, true) ->
  let reading := match k with O => 1%nat | S _ => 0%nat end in
  to_u32 (to_u32 (millis x reading) - to_u32 (millis x0 0))
    > LONG_PRESS_DURATION.
Proof.
  intros Hp H0 Hxs Hx Hg.
  cbn [decode_buttons] in Hg.
  pose proof (decode_button_pressed x0 b H0 Hp) as Hstep.
  destruct (decode_button x0 b) as [[[clk0 lp0] evs] b1].
  destruct Hstep as (_ & Hp1 & Hs1 & _ & _ & Hlong).
  pose proof (decode_buttons_long xs b1) as Hrest.
  destruct (decode_buttons xs b1) as [gs b2]. cbn [fst] in Hg, Hrest.
  destruct k as [|k]; cbv zeta.
  - cbn in Hx, Hg. injection Hx as <-. injection Hg as _ ->.
    exact (Hlong eq_refl).
  - cbn in Hx, Hg. rewrite <- Hs1. exact (Hrest k x clk Hxs Hp1 Hx Hg).
Qed.

(** A hold seen at 1000 ms, 2500 ms and 4100 ms reports its long press in
    the third iteration, 3100 ms after the first reading. *)
Lemma X11_long_press_takes_three_seconds_witness :
  to_u32 (to_u32 4100 - to_u32 1000) > LONG_PRESS_DURATION.
Proof.
  exact (X11_long_press_takes_three_seconds (initial_button 0) (held_at 1000)
           [held_at 2500; held_at 4100] 2 (held_at 4100) false
           eq_refl eq_refl ltac:(repeat constructor) eq_refl eq_refl).
Defined.

(** ** The data-ready handshake *)

(** The acquisition part: a frame is exchanged only when the flag is up,
    which clears it; otherwise the flag is dropped, except in the single
    mode when a click asks for a new scan. *)
Lemma acquisition_handshake inp s :
  let s2 := after (loop_acquisition inp) s in
  (forall e tx rx, e ∈ events (loop_acquisition inp) s ->
     e = Spi_transferBytes tx rx ->
     dataReady s = true /\ dataReady s2 = false /\ rx = spi_frame inp /\
     is_acquisition (currentState s) = true /\
     rx_buffer s2 = memcpy (rx_buffer s) rx (Z.to_nat PACKET_SIZE)) /\
  (dataReady s2 = true ->
     dataReady s = true /\
     (is_acquisition (currentState s) = false \/
      (currentState s = STATE_ACQUISITION_SINGLE /\ clicked inp = true /\
       waitingForSingleScan s = false /\ waitingForSingleScan s2 = true))) /\
  currentState s2 = currentState s.
Proof.
  unfold events, after, loop_acquisition, switch_state.
  destruct s as [cs rs sh icg xu ppmin ppmax pamin pamax tx0 rx0 px raw dark
                   saved ready waiting mm ss sas sxs edit].
  destruct inp as [rot clk lp cev cup frame].
  unfold scan_corrected, scan_raw, readDataAndRequestNext, sendDataViaWiFi,
    requestFirstScan, drawGraph_GFX, applyDarkSpectrumCorrection,
    processData_Raw, seq_cmd, when, ite, modify, emit, skip.
  destruct cs, ready, waiting, clk, cup, saved; cbn;
    (split; [intros e tx rx He Heq; elem_cases He; try discriminate Heq;
             repeat split; congruence
            |split; [intros Hr;
                     first [discriminate Hr
                           | split; [reflexivity|];
                             first [left; reflexivity
                                   | right; repeat split; reflexivity]]
                    |reflexivity]]).
Qed.

(** The single mode is reached with the latch clear only by staying in
    it. *)
Lemma front_single_idle inp s :
  let s1 := after (loop_front inp) s in
  currentState s1 = STATE_ACQUISITION_SINGLE ->
  waitingForSingleScan s1 = false ->
  currentState s = STATE_ACQUISITION_SINGLE /\
  waitingForSingleScan s = false /\ rotation inp = 0.
Proof.
  unfold after, loop_front, loop_navigation, switch_state.
  destruct_state s. destruct inp as [rot clk lp cev cup frame].
  cbn [rotation clicked longPress client_event].
  unfold handleMainMenuInput, handleSettingsInput, handleSettingsAcqInput,
    handleSettingsAxisInput, handleAcquisitionInput, changeState,
    saveDarkSpectrum, requestFirstScan, seq_cmd, when, ite, switch_state,
    modify, emit, skip.
  destruct cs, cev; cbn; split_ifs; open_edits; cbn;
    intros Hcs Hw; try discriminate Hcs; try discriminate Hw;
    repeat split; first [reflexivity | assumption].
Qed.

Lemma dataReady_redraw s : dataReady (after loop_redraw s) = dataReady s.
Proof.
  apply after_loop_redraw_view; [reflexivity|].
  destruct (is_acquisition (currentState s)); auto.
Qed.

Lemma rx_buffer_redraw s : rx_buffer (after loop_redraw s) = rx_buffer s.
Proof.
  apply after_loop_redraw_view; [reflexivity|].
  destruct (is_acquisition (currentState s)); auto.
Qed.

Lemma waiting_redraw s :
  waitingForSingleScan (after loop_redraw s) = waitingForSingleScan s.
Proof.
  apply after_loop_redraw_view; [reflexivity|].
  destruct (is_acquisition (currentState s)); auto.
Qed.

Lemma currentState_redraw s :
  currentState (after loop_redraw s) = currentState s.
Proof.
  apply after_loop_redraw_view; [reflexivity|].
  destruct (is_acquisition (currentState s)); auto.
Qed.

(** X12. [loop] never raises the data-ready flag, and exchanges a frame
    on the bus only when it finds the flag up: the exchange takes the
    frame of the iteration into [rx_buffer], in an acquisition mode, and
    leaves the flag down. A flag that is up survives an iteration only
    in the menus, or in the single mode when the latch is clear and a
    click asks for a new scan, which arms the latch with the flag still
    up. *)
Theorem X12_data_ready_handshake (s : State) (inp : Inputs) :
  let s' := after (loop inp) s in
  (forall tx rx, Spi_transferBytes tx rx ∈ events (loop inp) s ->
     dataReady s = true /\ dataReady s' = false /\ rx = spi_frame inp /\
     is_acquisition (currentState s') = true /\
     rx_buffer s' = memcpy (rx_buffer s) rx (Z.to_nat PACKET_SIZE)) /\
  (dataReady s' = true ->
     dataReady s = true /\
     (is_acquisition (currentState s') = false \/
      (currentState s = STATE_ACQUISITION_SINGLE /\
       currentState s' = STATE_ACQUISITION_SINGLE /\
       rotation inp = 0 /\ clicked inp = true /\
       waitingForSingleScan s = false /\ waitingForSingleScan s' = true))).
Proof.
  intros s'.
  pose proof (loop_events inp s) as Hev. cbv zeta in Hev.
  pose proof (loop_after inp s) as Haf. fold s' in Haf.
  set (s1 := after (loop_front inp) s) in *.
  set (s2 := after (loop_acquisition inp) s1) in *.
  pose proof (preserves_data_path_front inp s) as Hdp. fold s1 in Hdp.
  unfold data_path in Hdp.
  assert (Hr1 : dataReady s1 = dataReady s) by congruence.
  assert (Hrx1 : rx_buffer s1 = rx_buffer s) by congruence.
  destruct (acquisition_handshake inp s1) as (Hex & Hup & Hcs2).
  fold s2 in Hex, Hup, Hcs2.
  assert (Hr' : dataReady s' = dataReady s2)
    by (rewrite Haf; apply dataReady_redraw).
  assert (Hrx' : rx_buffer s' = rx_buffer s2)
    by (rewrite Haf; apply rx_buffer_redraw).
  assert (Hw' : waitingForSingleScan s' = waitingForSingleScan s2)
    by (rewrite Haf; apply waiting_redraw).
  assert (Hcs' : currentState s' = currentState s1)
    by (rewrite Haf, currentState_redraw; exact Hcs2).
  split.
  - intros tx rx He. rewrite Hev in He.
    apply elem_of_app in He as [He|He].
    { pose proof (emits_loop_front inp s _ He) as Hn. discriminate Hn. }
    apply elem_of_app in He as [He|He].
    + destruct (Hex _ tx rx He eq_refl) as (H1 & H2 & H3 & H4 & H5).
      rewrite Hr', Hrx', Hcs', <- Hr1, <- Hrx1. auto.
    + exfalso.
      destruct (is_acquisition (currentState s2)) eqn:Hs2.
      * unfold events in He. rewrite (loop_redraw_acquisition _ Hs2) in He.
        by apply elem_of_nil in He.
      * pose proof (emits_loop_redraw_menu _ _ Hs2 He) as Hm. discriminate Hm.
  - intros Hr. rewrite Hr' in Hr.
    destruct (Hup Hr) as (H1 & Hcase).
    split; [congruence|].
    destruct Hcase as [Hmenu|(Hsingle & Hclk & Hw1 & Hw2)].
    + left. rewrite Hcs'. exact Hmenu.
    + right.
      destruct (front_single_idle inp s Hsingle Hw1) as (H3 & H4 & H5).
      rewrite Hcs', Hw'. auto 10.
Qed.

(** In the continuous mode with the flag up, an iteration exchanges a
    frame and leaves the flag down. *)
Lemma X12_data_ready_handshake_witness :
  let s := onDataReady (after (loop click) initial_state) in
  dataReady (after (loop no_gesture) s) = false.
Proof.
  intros s.
  assert (He : Spi_transferBytes (tx_buffer s) (spi_frame no_gesture)
               ∈ events (loop no_gesture) s).
  { apply (list_elem_of_lookup_2 _ 0%nat). vm_compute. reflexivity. }
  destruct (X12_data_ready_handshake s no_gesture) as [Hex _].
  destruct (Hex _ _ He) as (_ & Hdown & _). exact Hdown.
Defined.

(** ** Menus are redrawn when they change *)

(** The navigation part asks for a redraw whenever it changes what the
    menus show. *)
Lemma front_redraw inp s :
  let s1 := after (loop_front inp) s in
  redrawScreen s1 = true \/
  (shown s1 = shown s /\ redrawScreen s = false /\ client_event inp = false).
Proof.
  unfold after, loop_front, loop_navigation, switch_state, shown, cursors,
    settings.
  destruct_state s. destruct inp as [rot clk lp cev cup frame].
  cbn [rotation clicked longPress client_event].
  unfold handleMainMenuInput, handleSettingsInput, handleSettingsAcqInput,
    handleSettingsAxisInput, handleAcquisitionInput, changeState,
    saveDarkSpectrum, requestFirstScan, seq_cmd, when, ite, switch_state,
    modify, emit, skip.
  destruct cs, cev; cbn; split_ifs; open_edits; cbn;
    first [ left; reflexivity
          | destruct rs;
            first [left; reflexivity | right; repeat split; reflexivity] ].
Qed.

Lemma acquisition_in_menus inp s :
  is_acquisition (currentState s) = false ->
  loop_acquisition inp s = ([], s).
Proof.
  intros Hm. unfold loop_acquisition, switch_state.
  destruct (currentState s); try discriminate Hm; reflexivity.
Qed.

(** X13. An iteration that ends on a menu or settings screen leaves no
    redraw pending, draws no screen but the one it ends on, and draws
    that screen whenever a redraw was pending, a client came or went, or
    the iteration changed anything the menus show: the screen, a cursor,
    a period, a bound of the plot, the edit mode or the unit of the x
    axis. *)
Theorem X13_menus_follow_changes (s : State) (inp : Inputs) :
  let s' := after (loop inp) s in
  is_acquisition (currentState s') = false ->
  redrawScreen s' = false /\
  (forall scr, Tft_menu scr ∈ events (loop inp) s -> scr = currentState s') /\
  (redrawScreen s = true \/ client_event inp = true \/ shown s' <> shown s ->
   Tft_menu (currentState s') ∈ events (loop inp) s).
Proof.
  intros s' Hmenu.
  pose proof (loop_events inp s) as Hev. cbv zeta in Hev.
  pose proof (loop_after inp s) as Haf. fold s' in Haf.
  set (s1 := after (loop_front inp) s) in *.
  assert (Hcs : currentState s' = currentState s1).
  { rewrite Haf, currentState_redraw.
    apply (acquisition_handshake inp s1). }
  assert (Hm1 : is_acquisition (currentState s1) = false) by congruence.
  pose proof (acquisition_in_menus inp s1 Hm1) as Hacq.
  unfold events at 3, after at 1 in Hev. unfold after at 2 in Haf.
  rewrite Hacq in Hev, Haf. cbn [fst snd app] in Hev, Haf.
  pose proof (loop_redraw_menu s1 Hm1) as Hrd.
  unfold events at 3 in Hev. unfold after in Haf. fold s1 in Haf.
  rewrite Hrd in Hev, Haf.
  assert (Hfront : forall scr, Tft_menu scr ∉ events (loop_front inp) s).
  { intros scr Hin.
    pose proof (emits_loop_front inp s _ Hin) as Hn. discriminate Hn. }
  assert (Hshown : shown s' = shown s1).
  { rewrite Haf. destruct (redrawScreen s1); reflexivity. }
  split; [|split].
  - rewrite Haf. destruct (redrawScreen s1) eqn:Hr; [reflexivity|exact Hr].
  - intros scr Hin. rewrite Hev in Hin.
    apply elem_of_app in Hin as [Hin|Hin]; [destruct (Hfront _ Hin)|].
    destruct (redrawScreen s1).
    + apply list_elem_of_singleton in Hin. congruence.
    + by apply elem_of_nil in Hin.
  - intros Hchange. rewrite Hev, Hcs. apply elem_of_app. right.
    destruct (front_redraw inp s) as [Hr|(Hsame & Hr & Hc)]; fold s1 in Hr.
    + rewrite Hr. apply list_elem_of_singleton. reflexivity.
    + exfalso. destruct Hchange as [H|[H|H]]; [congruence|congruence|].
      apply H. rewrite Hshown. exact Hsame.
Qed.

(** At power-up the main menu is drawn, the redraw that [setup()] leaves
    pending. *)
Lemma X13_menus_follow_changes_witness :
  Tft_menu STATE_MAIN_MENU ∈ events (loop no_gesture) initial_state.
Proof.
  destruct (X13_menus_follow_changes initial_state no_gesture eq_refl)
    as (_ & _ & Hdraw).
  exact (Hdraw (or_introl eq_refl)).
Defined.

(** ** Decoding loses nothing *)

Lemma decode_pixel_bytes rx i :
  length rx = Z.to_nat PACKET_SIZE -> Forall is_u8 rx ->
  (i < Z.to_nat PIXEL_COUNT)%nat ->
  let count := to_u16 (ADC_MAX_VALUE - decode_pixel rx i) in
  rd rx (i * 2) = count mod 256 /\ rd rx (i * 2 + 1) = count / 256.
Proof.
  intros Hlen Hu8 Hi.
  rewrite (decode_pixel_value rx i Hlen Hu8 Hi).
  assert (H0 : is_u8 (rd rx (i * 2)))
    by (apply rd_Forall; [assumption|unfold PACKET_SIZE, PIXEL_COUNT in *; lia]).
  assert (H1 : is_u8 (rd rx (i * 2 + 1)))
    by (apply rd_Forall; [assumption|unfold PACKET_SIZE, PIXEL_COUNT in *; lia]).
  unfold little_endian, to_u16, is_u8, ADC_MAX_VALUE in *. cbn [foldr].
  change (2 ^ 16) with 65536. change (2 ^ 8) with 256 in *.
  generalize dependent (rd rx (i * 2)). generalize dependent (rd rx (i * 2 + 1)).
  intros b1 Hb1 b0 Hb0. cbv zeta.
  set (v := b0 + 256 * (b1 + 256 * 0)).
  assert (Hv : (4095 - (4095 - v) mod 65536) mod 65536 = v).
  { destruct (Z_le_gt_dec v 4095).
    - rewrite (Z.mod_small (4095 - v)) by lia.
      replace (4095 - (4095 - v)) with v by lia. apply Z.mod_small. lia.
    - replace (4095 - v) with (4095 - v + 65536 + (-1) * 65536) by lia.
      rewrite Z.mod_add by lia.
      rewrite (Z.mod_small (4095 - v + 65536)) by lia.
      replace (4095 - (4095 - v + 65536)) with (v + (-1) * 65536) by lia.
      rewrite Z.mod_add by lia. apply Z.mod_small. lia. }
  rewrite Hv. unfold v. replace (b0 + 256 * (b1 + 256 * 0)) with (b0 + b1 * 256) by lia.
  rewrite Z.mod_add, Z.div_add, Z.mod_small, Z.div_small by lia. lia.
Qed.

(** X14. [processData_Raw] loses nothing of a frame: the two bytes of
    each pixel are recovered from its decoded sample, as the low and the
    high byte of [ADC_MAX_VALUE] minus the sample on 16 bits; so two
    frames that decode to the same spectrum are the same frame. *)
Theorem X14_decoding_loses_nothing (s1 s2 : State) :
  length (rx_buffer s1) = Z.to_nat PACKET_SIZE -> Forall is_u8 (rx_buffer s1) ->
  length (raw_pixel_data s1) = Z.to_nat PIXEL_COUNT ->
  (forall i : nat, (i < Z.to_nat PIXEL_COUNT)%nat ->
     let count :=
       to_u16 (ADC_MAX_VALUE - rd (raw_pixel_data (processData_Raw s1)) i) in
     rd (rx_buffer s1) (i * 2) = count mod 256 /\
     rd (rx_buffer s1) (i * 2 + 1) = count / 256) /\
  (length (rx_buffer s2) = Z.to_nat PACKET_SIZE -> Forall is_u8 (rx_buffer s2) ->
   length (raw_pixel_data s2) = Z.to_nat PIXEL_COUNT ->
   raw_pixel_data (processData_Raw s1) = raw_pixel_data (processData_Raw s2) ->
   rx_buffer s1 = rx_buffer s2).
Proof.
  intros Hlen1 Hu1 Hraw1.
  assert (Hrec : forall s, length (rx_buffer s) = Z.to_nat PACKET_SIZE ->
            Forall is_u8 (rx_buffer s) ->
            length (raw_pixel_data s) = Z.to_nat PIXEL_COUNT ->
            forall i : nat, (i < Z.to_nat PIXEL_COUNT)%nat ->
            let count :=
              to_u16 (ADC_MAX_VALUE - rd (raw_pixel_data (processData_Raw s)) i) in
            rd (rx_buffer s) (i * 2) = count mod 256 /\
            rd (rx_buffer s) (i * 2 + 1) = count / 256).
  { intros s Hlen Hu Hraw i Hi.
    unfold processData_Raw. cbn [raw_pixel_data set_raw_pixel_data].
    rewrite decode_frame_rd by assumption.
    apply decode_pixel_bytes; assumption. }
  split; [exact (Hrec s1 Hlen1 Hu1 Hraw1)|].
  intros Hlen2 Hu2 Hraw2 Heq.
  assert (Hrd : forall j : nat, (j < Z.to_nat PACKET_SIZE)%nat ->
            rd (rx_buffer s1) j = rd (rx_buffer s2) j).
  { intros j Hj.
    assert (Hi : (j / 2 < Z.to_nat PIXEL_COUNT)%nat).
    { unfold PACKET_SIZE, PIXEL_COUNT in *.
      apply Nat.Div0.div_lt_upper_bound. lia. }
    pose proof (Hrec s1 Hlen1 Hu1 Hraw1 (j / 2)%nat Hi) as [A1 B1].
    pose proof (Hrec s2 Hlen2 Hu2 Hraw2 (j / 2)%nat Hi) as [A2 B2].
    rewrite <- Heq in A2, B2.
    pose proof (Nat.div_mod_eq j 2) as Hj2.
    pose proof (Nat.mod_upper_bound j 2 ltac:(lia)) as Hm.
    destruct (j mod 2)%nat as [|[|?]] eqn:Hr; [| |lia].
    - replace j with (j / 2 * 2)%nat by lia. congruence.
    - replace j with (j / 2 * 2 + 1)%nat by lia. congruence. }
  apply list_eq. intros j.
  destruct (decide (j < Z.to_nat PACKET_SIZE)%nat) as [Hj|Hj].
  - destruct (lookup_lt_is_Some_2 (rx_buffer s1) j ltac:(lia)) as [v1 Hv1].
    destruct (lookup_lt_is_Some_2 (rx_buffer s2) j ltac:(lia)) as [v2 Hv2].
    pose proof (Hrd j Hj) as H.
    rewrite (rd_lookup _ _ _ Hv1), (rd_lookup _ _ _ Hv2) in H. congruence.
  - rewrite !lookup_ge_None_2 by lia. reflexivity.
Qed.

(** The frame whose first pixel holds the bytes 0x34 and 0x02 gives them
    back from its decoded sample. *)
Lemma X14_decoding_loses_nothing_witness :
  let s := received (frame_with_pixel0 0x34 0x02) in
  let count :=
    to_u16 (ADC_MAX_VALUE - rd (raw_pixel_data (processData_Raw s)) 0) in
  count mod 256 = 0x34 /\ count / 256 = 0x02.
Proof.
  intros s count.
  assert (Hlen : length (rx_buffer s) = Z.to_nat PACKET_SIZE)
    by apply frame_with_pixel0_length.
  assert (Hu8 : Forall is_u8 (rx_buffer s))
    by (apply frame_with_pixel0_u8; unfold is_u8; lia).
  assert (Hraw : length (raw_pixel_data s) = Z.to_nat PIXEL_COUNT)
    by apply zeros_length.
  destruct (X14_decoding_loses_nothing s s Hlen Hu8 Hraw) as [Hrec _].
  destruct (Hrec 0%nat ltac:(unfold PIXEL_COUNT; lia)) as [H0 H1].
  cbv zeta in H0, H1. fold count in H0, H1.
  rewrite <- H0, <- H1. split; vm_compute; reflexivity.
Defined.

(** ** Arrays keep their shape *)

Lemma correct_pixel_u16 raw dark i : is_u16 (correct_pixel raw dark i).
Proof.
  unfold correct_pixel, to_u16, is_u16.
  destruct (rd raw i >? rd dark i); [apply Z.mod_pos_bound|]; lia.
Qed.

Lemma pixels_ok_applyDark s :
  pixels_ok s -> pixels_ok (applyDarkSpectrumCorrection s).
Proof.
  intros [Hs Hpx]. split; [apply spectra_ok_applyDark, Hs|].
  destruct Hs as (Hp & Hr & Hd & Hur & Hud).
  unfold applyDarkSpectrumCorrection.
  destruct (darkSpectrumSaved s); cbn.
  - apply Forall_lookup. intros i x Hx.
    pose proof (lookup_lt_Some _ _ _ Hx) as Hi.
    rewrite subtract_dark_length, Hp in Hi.
    rewrite <- (rd_lookup _ _ _ Hx), subtract_dark_rd by assumption.
    apply correct_pixel_u16.
  - rewrite (memcpy_full _ _ _ Hp Hr). exact Hur.
Qed.

Lemma pixels_ok_processData_Raw s : pixels_ok s -> pixels_ok (processData_Raw s).
Proof.
  intros [Hs Hpx]. split; [apply spectra_ok_processData_Raw, Hs|exact Hpx].
Qed.

Lemma pixels_ok_edit_acq rot s : pixels_ok s -> pixels_ok (edit_acq rot s).
Proof. intros Hok. unfold edit_acq. repeat case_match; exact Hok. Qed.

Lemma pixels_ok_edit_axis rot s : pixels_ok s -> pixels_ok (edit_axis rot s).
Proof. intros Hok. unfold edit_axis. repeat case_match; exact Hok. Qed.

Lemma pixels_ok_store_dark s : pixels_ok s -> pixels_ok (store_dark s).
Proof.
  intros [Hs Hpx]. split; [apply spectra_ok_store_dark, Hs|exact Hpx].
Qed.

Lemma pixels_ok_show_raw s :
  pixels_ok s ->
  pixels_ok
    (set_pixel_data
       (memcpy (pixel_data s) (raw_pixel_data s) (Z.to_nat PIXEL_COUNT)) s).
Proof.
  intros [(Hp & Hr & Hd & Hur & Hud) Hpx].
  unfold pixels_ok, spectra_ok. cbn.
  rewrite (memcpy_full _ _ _ Hp Hr). auto 10.
Qed.

Lemma pixels_ok_loop inp : maintains pixels_ok (loop inp).
Proof.
  unfold loop, loop_navigation, loop_acquisition, loop_redraw,
    drawCurrentScreen, scan_corrected, scan_raw, handleMainMenuInput,
    handleSettingsInput, handleSettingsAcqInput, handleSettingsAxisInput,
    handleAcquisitionInput, changeState, saveDarkSpectrum.
  maintains_with ltac:(idtac; lazymatch goal with
    | |- maintains _ (modify (edit_acq _)) =>
        apply maintains_modify, pixels_ok_edit_acq
    | |- maintains _ (modify (edit_axis _)) =>
        apply maintains_modify, pixels_ok_edit_axis
    | |- maintains _ (modify store_dark) =>
        apply maintains_modify, pixels_ok_store_dark
    | |- maintains _ (modify processData_Raw) =>
        apply maintains_modify, pixels_ok_processData_Raw
    | |- maintains _ (modify applyDarkSpectrumCorrection) =>
        apply maintains_modify, pixels_ok_applyDark
    | |- maintains _ (modify (fun s => set_pixel_data _ s)) =>
        apply maintains_modify, pixels_ok_show_raw
    | |- maintains _ (readDataAndRequestNext _) =>
        intros s Hs; exact Hs
    | |- maintains _ (sendDataViaWiFi _) =>
        apply maintains_pure, after_sendDataViaWiFi
    | |- maintains _ (drawGraph_GFX _) =>
        apply maintains_pure, after_drawGraph_GFX
    end).
Qed.

Lemma wf_state_loop_frame inp :
  frame_ok inp -> maintains wf_state (loop inp).
Proof.
  intros (Hlen & Hu8).
  unfold loop, loop_navigation, loop_acquisition, loop_redraw,
    drawCurrentScreen, scan_corrected, scan_raw, handleMainMenuInput,
    handleSettingsInput, handleSettingsAcqInput, handleSettingsAxisInput,
    handleAcquisitionInput, changeState, saveDarkSpectrum.
  maintains_with ltac:(idtac; lazymatch goal with
    | |- maintains _ (modify buildCommand) =>
        apply maintains_modify, wf_state_buildCommand
    | |- maintains _ (modify (edit_acq _)) =>
        apply maintains_modify, wf_state_edit_acq
    | |- maintains _ (modify (edit_axis _)) =>
        apply maintains_modify, wf_state_edit_axis
    | |- maintains _ (modify applyDarkSpectrumCorrection) =>
        apply maintains_modify, wf_state_applyDark
    | |- maintains _ (readDataAndRequestNext _) =>
        intros s Hs; apply wf_state_receive; assumption
    | |- maintains _ (sendDataViaWiFi _) =>
        apply maintains_pure, after_sendDataViaWiFi
    | |- maintains _ (drawGraph_GFX _) =>
        apply maintains_pure, after_drawGraph_GFX
    end).
Qed.

Lemma cells_ok_run ts : forall s,
  Forall (fun t => match t with Irq => True | Poll inp => frame_ok inp end) ts ->
  cells_ok s -> cells_ok (after (run ts) s).
Proof.
  induction ts as [|t ts IH]; intros s Hin Hok; [exact Hok|].
  apply Forall_cons in Hin as [Ht Hts].
  cbn [run]. rewrite after_seq. apply IH; [exact Hts|].
  destruct t as [|inp]; cbn [tick]; [exact Hok|].
  destruct Hok as (Hwf & Hs & Hpx).
  destruct (pixels_ok_loop inp s (conj Hs Hpx)) as [Hs' Hpx'].
  split; [apply wf_state_loop_frame; assumption|]. split; assumption.
Qed.

(** X15. When every frame clocked in has the size of a packet and holds
    bytes, every array keeps its declared size and every cell a value of
    its type along every run from power-up: the transmit and receive
    buffers hold [PACKET_SIZE] bytes, the three spectra [PIXEL_COUNT]
    16-bit counts, and the periods fit 32 bits. *)
Theorem X15_arrays_keep_their_shape (ts : list Tick) :
  Forall (fun t => match t with Irq => True | Poll inp => frame_ok inp end) ts ->
  let s := after (run ts) initial_state in
  (length (tx_buffer s) = Z.to_nat PACKET_SIZE /\ Forall is_u8 (tx_buffer s)) /\
  (length (rx_buffer s) = Z.to_nat PACKET_SIZE /\ Forall is_u8 (rx_buffer s)) /\
  (length (raw_pixel_data s) = Z.to_nat PIXEL_COUNT /\
   Forall is_u16 (raw_pixel_data s)) /\
  (length (dark_spectrum_data s) = Z.to_nat PIXEL_COUNT /\
   Forall is_u16 (dark_spectrum_data s)) /\
  (length (pixel_data s) = Z.to_nat PIXEL_COUNT /\
   Forall is_u16 (pixel_data s)) /\
  is_u32 (SH_PERIOD s) /\ is_u32 (ICG_PERIOD s).
Proof.
  intros Hin s.
  assert (H0 : cells_ok initial_state).
  { split; [apply wf_state_initial|]. split; [apply spectra_ok_initial|].
    apply zeros_u16. }
  destruct (cells_ok_run ts initial_state Hin H0)
    as ((Htx & Hrx & Hutx & Hurx & Hsh & Hicg)
        & (Hp & Hr & Hd & Hur & Hud) & Hpx).
  fold s in Htx, Hrx, Hutx, Hurx, Hsh, Hicg, Hp, Hr, Hd, Hur, Hud, Hpx.
  auto 20.
Qed.

(** After a scan in the continuous mode the receive buffer still holds
    7388 bytes. *)
Lemma X15_arrays_keep_their_shape_witness :
  length (rx_buffer (after (run [Poll click; Irq; Poll no_gesture])
                       initial_state)) = Z.to_nat PACKET_SIZE.
Proof.
  assert (Hf : frame_ok click /\ frame_ok no_gesture).
  { split; (split; [apply frame_with_pixel0_length
                   |apply frame_with_pixel0_u8; unfold is_u8; lia]). }
  destruct Hf as [Hc Hn].
  destruct (X15_arrays_keep_their_shape [Poll click; Irq; Poll no_gesture])
    as (_ & (Hlen & _) & _).
  { apply Forall_cons; split; [exact Hc|].
    apply Forall_cons; split; [exact I|].
    apply Forall_cons; split; [exact Hn|constructor]. }
  exact Hlen.
Defined.
